(** * A shallow embedding of the blockchain port of the art platform backend

    Sources embedded here:
    - [app/core/ports/web3_client.py]   value objects of the port
    - [app/core/domain/base.py]         [Address] and [Amount]
    - [app/adapters/web3/web3_client_impl.py]   [Web3ClientImpl]

    Python integers are unbounded, so they are [Z].  Python strings are
    [string]; [len] is [String.length] and [startswith] is [String.prefix].
    Code that can raise returns a [result]; code that reads or writes the
    client object threads a [Client] record explicitly; everything the
    node answers is taken from an explicit environment record. *)

From Stdlib Require Import ZArith String Ascii List Bool Lia Permutation.
Import ListNotations.
Local Open Scope string_scope.
Local Open Scope Z_scope.

(** ** Exceptions and results *)

Module Py.

(** The exception classes that the embedded code raises or lets through.
    The first four are declared in [web3_client_impl.py]; the last three
    subclasses there derive from [Web3ClientError].  [ArithmeticError]
    covers the trapped signals of [decimal] and the [ZeroDivisionError] and
    [OverflowError] of float arithmetic.  [NodeError] stands for
    any [Exception] raised inside the web3 library (RPC fault, rejection by
    the node, transaction not found). *)
Inductive ExcClass : Type :=
  | Web3ClientError
  | NetworkNotConnectedError
  | TransactionFailedError
  | ContractInteractionError
  | ValueError
  | KeyError
  | AttributeError
  | TypeError
  | ArithmeticError
  | NodeError.

(** An exception object: its class and [str(e)].  These are the instances
    of [Exception], which is what every [except Exception] of the source
    catches. *)
Record Exc : Type := mkExc { exc_class : ExcClass; exc_msg : string }.

Inductive result (A : Type) : Type :=
  | Return (a : A)
  | Raise (e : Exc).
Arguments Return {A} a.
Arguments Raise {A} e.

Definition bind {A B : Type} (m : result A) (k : A -> result B) : result B :=
  match m with
  | Return a => k a
  | Raise e => Raise e
  end.

(** [try: body  except Exception as e: handler(e)] *)
Definition try_except {A : Type} (body : result A) (handler : Exc -> result A)
  : result A :=
  match body with
  | Return a => Return a
  | Raise e => handler e
  end.

Definition raised_class {A : Type} (r : result A) : option ExcClass :=
  match r with
  | Return _ => None
  | Raise e => Some (exc_class e)
  end.

End Py.
Import Py.

Declare Scope py_scope.
Notation "x <- m ;; k" := (bind m (fun x => k))
  (at level 61, m at next level, right associativity) : py_scope.
Notation "m ;;; k" := (bind m (fun _ => k))
  (at level 61, right associativity) : py_scope.
Local Open Scope py_scope.

(** ** Strings *)

Module Str.

(** The characters of a [string] are the code points 0 to 255.  Those
    that [str.lower] changes are A to Z and the capital letters of the
    Latin-1 range (192 to 222 except the multiplication sign 215); each
    goes to the code point 32 above it.  Above that range [str.lower]
    can also lengthen a string (U+0130 becomes two code points), so
    nothing below is derived from the length of a lower-cased string:
    what is used of [lower] is that it is idempotent and that it leaves
    the prefix [0x] in place, which [str.lower] does on every string. *)
Definition is_upper (c : ascii) : bool :=
  let n := nat_of_ascii c in
  ((Nat.leb 65 n && Nat.leb n 90)
   || (Nat.leb 192 n && Nat.leb n 214)
   || (Nat.leb 216 n && Nat.leb n 222))%bool.

Definition lower_char (c : ascii) : ascii :=
  if is_upper c then ascii_of_nat (nat_of_ascii c + 32) else c.

(** [str.lower] *)
Fixpoint lower (s : string) : string :=
  match s with
  | EmptyString => EmptyString
  | String c s' => String (lower_char c) (lower s')
  end.

Definition is_hex_char (c : ascii) : bool :=
  let n := nat_of_ascii c in
  ((Nat.leb 48 n && Nat.leb n 57)
   || (Nat.leb 65 n && Nat.leb n 70)
   || (Nat.leb 97 n && Nat.leb n 102))%bool.

Fixpoint all_hex (s : string) : bool :=
  match s with
  | EmptyString => true
  | String c s' => (is_hex_char c && all_hex s')%bool
  end.

(** [c * n] for a one-character string [c]. *)
Fixpoint repeat_char (c : ascii) (n : nat) : string :=
  match n with
  | O => EmptyString
  | S k => String c (repeat_char c k)
  end.

(** The textual form the specification gives for addresses and hashes:
    [0x] followed by exactly [n] hexadecimal characters. *)
Definition is_0x_hex (n : nat) (s : string) : Prop :=
  exists h, s = "0x" ++ h /\ String.length h = n /\ all_hex h = true.

(** [0x] followed by [n] further characters, whatever they are. *)
Definition is_0x_len (n : nat) (s : string) : Prop :=
  exists t, s = "0x" ++ t /\ String.length t = n.

End Str.

(** ** Value objects of the port ([web3_client.py], [base.py]) *)

Module ValueObjects.

(** The test shared by every [__post_init__]:
    [not value.startswith('0x') or len(value) != n]. *)
Definition bad_format (n : nat) (value : string) : bool :=
  (negb (String.prefix "0x" value) || negb (Nat.eqb (String.length value) n))%bool.

Record TransactionHash : Type := mkTransactionHash { th_value : string }.
Record ContractAddress : Type := mkContractAddress { ca_value : string }.
Record WalletAddress : Type := mkWalletAddress { wa_value : string }.
Record Address : Type := mkAddress { ad_value : string }.

(** [TransactionHash(value)]: the dataclass stores the argument, then
    [__post_init__] runs. *)
Definition new_TransactionHash (value : string) : result TransactionHash :=
  if bad_format 66 value
  then Raise (mkExc ValueError "Invalid transaction hash format")
  else Return (mkTransactionHash value).

Definition new_ContractAddress (value : string) : result ContractAddress :=
  if bad_format 42 value
  then Raise (mkExc ValueError "Invalid contract address format")
  else Return (mkContractAddress value).

Definition new_WalletAddress (value : string) : result WalletAddress :=
  if bad_format 42 value
  then Raise (mkExc ValueError "Invalid wallet address format")
  else Return (mkWalletAddress value).

Definition new_Address (value : string) : result Address :=
  if bad_format 42 value
  then Raise (mkExc ValueError ("Invalid address format: " ++ value))
  else Return (mkAddress value).

(** [__str__] *)
Definition TransactionHash_str (h : TransactionHash) : string := th_value h.
Definition ContractAddress_str (a : ContractAddress) : string := ca_value a.
Definition WalletAddress_str (a : WalletAddress) : string := Str.lower (wa_value a).
Definition Address_str (a : Address) : string := Str.lower (ad_value a).

(** [__eq__] generated by [@dataclass]: the tuples of fields are compared. *)
Definition TransactionHash_eq (a b : TransactionHash) : bool :=
  String.eqb (th_value a) (th_value b).
Definition ContractAddress_eq (a b : ContractAddress) : bool :=
  String.eqb (ca_value a) (ca_value b).
Definition WalletAddress_eq (a b : WalletAddress) : bool :=
  String.eqb (wa_value a) (wa_value b).
Definition Address_eq (a b : Address) : bool :=
  String.eqb (ad_value a) (ad_value b).

End ValueObjects.
Import ValueObjects.

(** ** [decimal.Decimal] under the default context

    The adapter converts between wei and ether with [Decimal] and never
    changes the context, so the arithmetic below is the one of
    [decimal.getcontext()] as Python starts it: precision 28, rounding
    ROUND_HALF_EVEN, Emax 999999, Emin -999999, clamp 0, with
    InvalidOperation, DivisionByZero and Overflow trapped (raised) and the
    other signals silent.  The operations follow the reference
    implementation [_pydecimal]; the coefficient, a string of digits there,
    is kept as the number it spells together with its length [ndigits].
    Only finite numbers occur on the paths embedded here. *)

Module PyDecimal.

Definition prec : Z := 28.
Definition Emax : Z := 999999.
Definition Emin : Z := -999999.
Definition Etiny : Z := Emin - prec + 1.
Definition Etop : Z := Emax - prec + 1.

(** A finite decimal: [(-1)^sign * int * 10^exp] with [0 <= int]. *)
Record Decimal : Type := mkDec { d_sign : bool; d_int : Z; d_exp : Z }.

Fixpoint ndigits_fuel (fuel : nat) (n : Z) : Z :=
  match fuel with
  | O => 1
  | S f => if n <? 10 then 1 else 1 + ndigits_fuel f (n / 10)
  end.

(** [len(str(n))] for [0 <= n]; a number has no more decimal digits than
    binary ones. *)
Definition ndigits (n : Z) : Z := ndigits_fuel (S (Z.to_nat (Z.log2 n))) n.

(** [Decimal(n)] for an [int]: exact, whatever the precision. *)
Definition of_int (n : Z) : Decimal := mkDec (n <? 0) (Z.abs n) 0.

(** [_round_half_up(prec)] and [_round_half_even(prec)] on a coefficient
    [c] of [n] digits, keeping [p] of them: 1 to round up, 0 when the
    dropped digits are all zero, -1 to truncate. *)
Definition round_half_up (c n p : Z) : Z :=
  if 5 <=? (c / 10 ^ (n - p - 1)) mod 10 then 1
  else if c mod 10 ^ (n - p) =? 0 then 0
  else -1.

Definition round_half_even (c n p : Z) : Z :=
  if (c mod 10 ^ (n - p) =? 5 * 10 ^ (n - p - 1))
     && ((p =? 0) || Z.even ((c / 10 ^ (n - p)) mod 10))
  then -1
  else round_half_up c n p.

(** [Decimal._fix(context)]: round to the context's precision and check
    the exponent range. *)
Definition fix_ (d : Decimal) : result Decimal :=
  if d_int d =? 0 then
    Return (mkDec (d_sign d) 0 (Z.min (Z.max (d_exp d) Etiny) Emax))
  else
    let n := ndigits (d_int d) in
    let exp_min := n + d_exp d - prec in
    if exp_min >? Etop then
      Raise (mkExc ArithmeticError "above Emax")
    else
      let self_is_subnormal := exp_min <? Etiny in
      let exp_min := if self_is_subnormal then Etiny else exp_min in
      if d_exp d <? exp_min then
        let digits := n + d_exp d - exp_min in
        let '(c, n, digits) :=
          if digits <? 0 then (1, 1, 0) else (d_int d, n, digits) in
        let changed := round_half_even c n digits in
        let coeff := c / 10 ^ (n - digits) in
        let '(coeff, exp_min) :=
          if changed >? 0 then
            if ndigits (coeff + 1) >? prec
            then ((coeff + 1) / 10, exp_min + 1)
            else (coeff + 1, exp_min)
          else (coeff, exp_min) in
        if exp_min >? Etop then
          Raise (mkExc ArithmeticError "above Emax")
        else
          Return (mkDec (d_sign d) coeff exp_min)
      else
        Return d.

(** The loop of [__truediv__] for an exact quotient:
    [while exp < ideal_exp and coeff % 10 == 0: coeff //= 10; exp += 1],
    run for at most [ideal_exp - exp] rounds. *)
Fixpoint strip_zeros (rounds : nat) (coeff exp : Z) : Z * Z :=
  match rounds with
  | O => (coeff, exp)
  | S k =>
      if coeff mod 10 =? 0 then strip_zeros k (coeff / 10) (exp + 1)
      else (coeff, exp)
  end.

(** [Decimal.__truediv__] *)
Definition truediv (a b : Decimal) : result Decimal :=
  let sign := xorb (d_sign a) (d_sign b) in
  if d_int b =? 0 then
    if d_int a =? 0
    then Raise (mkExc ArithmeticError "0 / 0")
    else Raise (mkExc ArithmeticError "x / 0")
  else
    let '(coeff, exp) :=
      if d_int a =? 0 then (0, d_exp a - d_exp b)
      else
        let shift := ndigits (d_int b) - ndigits (d_int a) + prec + 1 in
        let exp := d_exp a - d_exp b - shift in
        let '(coeff, remainder) :=
          if 0 <=? shift
          then Z.div_eucl (d_int a * 10 ^ shift) (d_int b)
          else Z.div_eucl (d_int a) (d_int b * 10 ^ (- shift)) in
        if remainder =? 0 then
          let ideal_exp := d_exp a - d_exp b in
          strip_zeros (Z.to_nat (ideal_exp - exp)) coeff exp
        else
          (if coeff mod 5 =? 0 then coeff + 1 else coeff, exp)
    in
    fix_ (mkDec sign coeff exp).

(** [Decimal.__mul__] *)
Definition mul (a b : Decimal) : result Decimal :=
  let resultsign := xorb (d_sign a) (d_sign b) in
  let resultexp := d_exp a + d_exp b in
  if (d_int a =? 0) || (d_int b =? 0) then
    fix_ (mkDec resultsign 0 resultexp)
  else if d_int a =? 1 then
    fix_ (mkDec resultsign (d_int b) resultexp)
  else if d_int b =? 1 then
    fix_ (mkDec resultsign (d_int a) resultexp)
  else
    fix_ (mkDec resultsign (d_int a * d_int b) resultexp).

(** [Decimal.__int__]: truncation towards zero. *)
Definition to_int (d : Decimal) : Z :=
  let s := if d_sign d then -1 else 1 in
  if 0 <=? d_exp d
  then s * d_int d * 10 ^ d_exp d
  else s * (d_int d / 10 ^ (- d_exp d)).

End PyDecimal.

(** ** Wei and ether ([Web3ClientImpl.wei_to_ether], [ether_to_wei])

    Both methods ignore [self] and the node. *)

Module Units.
Import PyDecimal.

(** [return Decimal(wei_amount) / Decimal(10**18)] *)
Definition wei_to_ether (wei_amount : Z) : result Decimal :=
  truediv (of_int wei_amount) (of_int (10 ^ 18)).

(** [return int(ether_amount * Decimal(10**18))] *)
Definition ether_to_wei (ether_amount : Decimal) : result Z :=
  p <- mul ether_amount (of_int (10 ^ 18)) ;;
  Return (to_int p).

(** The composition the round-trip property is about. *)
Definition round_trip (w : Z) : result Z :=
  e <- wei_to_ether w ;; ether_to_wei e.

End Units.


(** ** The adapter ([Web3ClientImpl]) *)

Module Web3Client.
Import PyDecimal Units.

(** *** Data of the port *)

Inductive NetworkType : Type := MAINNET | SEPOLIA | POLYGON | MUMBAI | LOCALHOST.

Definition NetworkType_value (n : NetworkType) : string :=
  match n with
  | MAINNET => "mainnet"
  | SEPOLIA => "sepolia"
  | POLYGON => "polygon"
  | MUMBAI => "mumbai"
  | LOCALHOST => "localhost"
  end.

Definition NetworkType_eqb (a b : NetworkType) : bool :=
  match a, b with
  | MAINNET, MAINNET | SEPOLIA, SEPOLIA | POLYGON, POLYGON
  | MUMBAI, MUMBAI | LOCALHOST, LOCALHOST => true
  | _, _ => false
  end.

Inductive TransactionStatus : Type := PENDING | CONFIRMED | FAILED | DROPPED.

Record GasEstimate : Type := mkGasEstimate {
  gas_limit : Z;
  gas_price : Z;
  estimated_cost : Decimal
}.

(** One emitted log entry, as [dict(log)] keeps it. *)
Record Log : Type := mkLog {
  log_address : string;
  log_topics : list Z;
  log_data : list Z
}.

Record TransactionReceipt : Type := mkTransactionReceipt {
  transaction_hash : TransactionHash;
  block_number : Z;
  gas_used : Z;
  status : TransactionStatus;
  contract_address : option ContractAddress;
  logs : list Log
}.

Record NFTMetadata : Type := mkNFTMetadata {
  title : string;
  description : string;
  image_uri : string;
  metadata_uri : string;
  royalty_bps : Z
}.

(** *** What the web3 library and the node hand back *)

Record Block : Type := mkBlock { number : Z; timestamp : Z }.

(** An entry of [receipt.logs]: a mapping, or something [dict()] refuses. *)
Inductive RawLog : Type :=
  | LogMapping (l : Log)
  | LogMalformed.

(** The receipt as the node returns it ([receipt.status],
    [receipt.blockNumber], ...). *)
Record RawReceipt : Type := mkRawReceipt {
  raw_status : Z;
  raw_blockNumber : Z;
  raw_gasUsed : Z;
  raw_contractAddress : option string;
  raw_logs : list RawLog
}.

(** The transaction dictionary built before signing. *)
Record Txn : Type := mkTxn {
  tx_to : string;
  tx_value : Z;
  tx_gas : Z;
  tx_gasPrice : Z;
  tx_nonce : Z;
  tx_chainId : option Z
}.

Record SignedTxn : Type := mkSignedTxn { rawTransaction : string }.

(** The [Web3] object held in [self.w3]: its provider's endpoint and
    whether the proof-of-authority middleware was injected. *)
Record Web3 : Type := mkWeb3 { provider_url : string; poa_middleware : bool }.

(** The arguments of [contract.functions.mintArtwork]. *)
Record MintCall : Type := mkMintCall {
  mc_contract : string;
  mc_to : string;
  mc_title : string;
  mc_description : string;
  mc_image_uri : string;
  mc_metadata_uri : string;
  mc_royalty_bps : Z
}.

(** Everything outside the process at one moment: the answers of the node
    to each RPC call, of the signer, and of the file system holding the
    contract ABIs.  Each answer is a value or an exception. *)
Record Node : Type := mkNode {
  node_is_connected : Web3 -> result bool;
  node_get_block_latest : result Block;
  node_gas_price : result Z;
  node_block_number : result Z;
  node_get_balance : string -> result Z;
  node_estimate_gas : string -> string -> Z -> result Z;
  node_get_transaction_count : string -> result Z;
  node_sign_transaction : Txn -> string -> result SignedTxn;
  node_send_raw_transaction : string -> result string;
  node_get_transaction_receipt : string -> result RawReceipt;
  node_contract : string -> string -> result unit;
  node_call_balanceOf : string -> string -> result Z;
  node_call_decimals : string -> result N;
  node_call_mintingFee : string -> result Z;
  node_build_transaction : MintCall -> Txn -> result Txn;
  node_account_from_key : string -> result string;
  node_abi_file : string -> option (result string)
}.

(** *** The client object *)

Record NetworkConfig : Type := mkNetworkConfig {
  cfg_rpc_url : string;
  cfg_chain_id : Z;
  cfg_name : string
}.

(** The argument of [connect]: a member of [NetworkType]; a plain [str]
    ([NetworkType] derives from [str], so its members hash and compare as
    their values, and a string that spells the value of a member is
    equal to that member); or any other object, one that is equal to no
    member or cannot be hashed. *)
Inductive NetworkArg : Type :=
  | Net (n : NetworkType)
  | PlainStr (s : string)
  | OtherObject (repr : string).

(** The member whose value is [s]. *)
Definition NetworkType_of_value (s : string) : option NetworkType :=
  if String.eqb s "mainnet" then Some MAINNET
  else if String.eqb s "sepolia" then Some SEPOLIA
  else if String.eqb s "polygon" then Some POLYGON
  else if String.eqb s "mumbai" then Some MUMBAI
  else if String.eqb s "localhost" then Some LOCALHOST
  else None.

(** The member that an argument is equal to ([==]), if any. *)
Definition as_member (arg : NetworkArg) : option NetworkType :=
  match arg with
  | Net n => Some n
  | PlainStr s => NetworkType_of_value s
  | OtherObject _ => None
  end.

Definition NetworkArg_text (arg : NetworkArg) : string :=
  match arg with
  | Net n => NetworkType_value n
  | PlainStr s => s
  | OtherObject r => r
  end.

(** [self.network] holds the object that [connect] was given. *)
Record Client : Type := mkClient {
  w3 : option Web3;
  network : option NetworkArg;
  chain_id : option Z;
  network_configs : list (NetworkType * NetworkConfig)
}.

(** [__init__], given [settings.ALCHEMY_API_KEY]. *)
Definition init (ALCHEMY_API_KEY : string) : Client :=
  mkClient None None None
    [ (MAINNET, mkNetworkConfig
                  ("https://eth-mainnet.g.alchemy.com/v2/" ++ ALCHEMY_API_KEY)
                  1 "Ethereum Mainnet");
      (SEPOLIA, mkNetworkConfig
                  ("https://eth-sepolia.g.alchemy.com/v2/" ++ ALCHEMY_API_KEY)
                  11155111 "Sepolia Testnet");
      (POLYGON, mkNetworkConfig "https://polygon-rpc.com/" 137 "Polygon Mainnet");
      (MUMBAI, mkNetworkConfig "https://rpc-mumbai.maticvigil.com/" 80001
                 "Mumbai Testnet");
      (LOCALHOST, mkNetworkConfig "http://localhost:8545" 31337
                    "Local Development") ].

Fixpoint dict_get (d : list (NetworkType * NetworkConfig)) (n : NetworkType)
  : option NetworkConfig :=
  match d with
  | [] => None
  | (k, v) :: d' => if NetworkType_eqb k n then Some v else dict_get d' n
  end.

(** [self.network_configs[network]]: the key found, which is the member
    that the argument equals, and its configuration.  (An object that
    cannot be hashed raises [TypeError] instead of [KeyError]; [connect]
    treats the two alike.) *)
Definition config_lookup (self : Client) (arg : NetworkArg)
  : result (NetworkType * NetworkConfig) :=
  match as_member arg with
  | Some n =>
      match dict_get (network_configs self) n with
      | Some c => Return (n, c)
      | None => Raise (mkExc KeyError (NetworkArg_text arg))
      end
  | None => Raise (mkExc KeyError (NetworkArg_text arg))
  end.

(** [network in [SEPOLIA, MUMBAI, LOCALHOST]], for an argument equal to
    the member [n]. *)
Definition needs_poa (n : NetworkType) : bool :=
  match n with
  | SEPOLIA | MUMBAI | LOCALHOST => true
  | _ => false
  end.

(** [connect]: the boolean returned and the client afterwards.  [self.w3]
    is assigned before the liveness test, so it stays assigned when the
    test fails; [self.network] and [self.chain_id] are assigned after it,
    [self.network] with the argument itself. *)
Definition connect (self : Client) (arg : NetworkArg) (node : Node)
  : bool * Client :=
  match config_lookup self arg with
  | Raise _ => (false, self)
  | Return (n, config) =>
      let w := mkWeb3 (cfg_rpc_url config) (needs_poa n) in
      let self1 := mkClient (Some w) (network self) (chain_id self)
                            (network_configs self) in
      let test :=
        c <- node_is_connected node w ;;
        if negb c
        then Raise (mkExc Web3ClientError
                          ("Failed to connect to " ++ NetworkType_value n))
        else Return tt in
      match test with
      | Raise _ => (false, self1)
      | Return _ =>
          (true, mkClient (Some w) (Some arg) (Some (cfg_chain_id config))
                          (network_configs self))
      end
  end.

(** [is_connected] *)
Definition is_connected (self : Client) (node : Node) : result bool :=
  match w3 self with
  | None => Return false
  | Some w => node_is_connected node w
  end.

(** The guard that opens most chain-facing methods:
    [if not await self.is_connected(): raise NetworkNotConnectedError(...)]. *)
Definition require_connected (self : Client) (node : Node) : result unit :=
  c <- is_connected self node ;;
  if negb c
  then Raise (mkExc NetworkNotConnectedError "Not connected to any network")
  else Return tt.

(** Reading an attribute of [self.w3] ([self.w3.eth...]). *)
Definition the_w3 (self : Client) : result Web3 :=
  match w3 self with
  | Some w => Return w
  | None => Raise (mkExc AttributeError
                         "'NoneType' object has no attribute 'eth'")
  end.

Record NetworkInfo : Type := mkNetworkInfo {
  ni_network : string;
  ni_chain_id : option Z;
  ni_latest_block : Z;
  ni_block_time : Z;
  ni_gas_price : Z
}.

(** [get_network_info].  [self.network.value] exists when [self.network]
    is a member; a plain [str] and [None] have no such attribute.
    ([connect] stores nothing but members and strings; another object is
    taken not to have the attribute.) *)
Definition get_network_info (self : Client) (node : Node) : result NetworkInfo :=
  require_connected self node ;;;
  _ <- the_w3 self ;;
  latest_block <- node_get_block_latest node ;;
  net <- match network self with
         | Some (Net n) => Return (NetworkType_value n)
         | Some (PlainStr _) =>
             Raise (mkExc AttributeError
                          "'str' object has no attribute 'value'")
         | Some (OtherObject _) =>
             Raise (mkExc AttributeError "object has no attribute 'value'")
         | None => Raise (mkExc AttributeError
                                "'NoneType' object has no attribute 'value'")
         end ;;
  gp <- node_gas_price node ;;
  Return (mkNetworkInfo net (chain_id self) (number latest_block)
                        (timestamp latest_block) gp).

(** [get_latest_block_number] *)
Definition get_latest_block_number (self : Client) (node : Node) : result Z :=
  require_connected self node ;;;
  _ <- the_w3 self ;;
  node_block_number node.

(** [get_balance] *)
Definition get_balance (self : Client) (node : Node) (address : WalletAddress)
  : result Decimal :=
  require_connected self node ;;;
  _ <- the_w3 self ;;
  balance_wei <- node_get_balance node (wa_value address) ;;
  wei_to_ether balance_wei.

(** [_load_contract_abi] *)
Definition _load_contract_abi (node : Node) (contract_name : string)
  : result string :=
  match node_abi_file node contract_name with
  | None => Raise (mkExc Web3ClientError
                         ("ABI file not found: " ++ contract_name ++ ".json"))
  | Some r => r
  end.

(** [get_token_balance]: no connection guard; the ABI is loaded first and
    [self.w3] is dereferenced next. *)
Definition get_token_balance (self : Client) (node : Node)
    (address : WalletAddress) (token_contract : ContractAddress)
  : result Decimal :=
  erc20_abi <- _load_contract_abi node "ERC20" ;;
  _ <- the_w3 self ;;
  node_contract node (ca_value token_contract) erc20_abi ;;;
  balance <- node_call_balanceOf node (ca_value token_contract)
                                 (wa_value address) ;;
  decimals <- node_call_decimals node (ca_value token_contract) ;;
  truediv (of_int balance) (of_int (10 ^ Z.of_N decimals)).

(** [estimate_gas] *)
Definition estimate_gas (self : Client) (node : Node)
    (to : WalletAddress) (data : string) (value : Z) : result GasEstimate :=
  require_connected self node ;;;
  _ <- the_w3 self ;;
  gl <- node_estimate_gas node (wa_value to) data value ;;
  gp <- node_gas_price node ;;
  cost <- wei_to_ether (gl * gp) ;;
  Return (mkGasEstimate gl gp cost).

(** [gas_limit or 21000] *)
Definition gas_or_default (gas_limit : option Z) : Z :=
  match gas_limit with
  | Some g => if g =? 0 then 21000 else g
  | None => 21000
  end.

(** [send_transaction] *)
Definition send_transaction (self : Client) (node : Node)
    (from_address to_address : WalletAddress) (value : Decimal)
    (private_key : string) (gas_limit gas_price : option Z)
  : result TransactionHash :=
  require_connected self node ;;;
  try_except
    (_ <- the_w3 self ;;
     nonce <- node_get_transaction_count node (wa_value from_address) ;;
     gp <- match gas_price with
           | Some g => Return g
           | None => node_gas_price node
           end ;;
     value_wei <- ether_to_wei value ;;
     let transaction :=
       mkTxn (wa_value to_address) value_wei (gas_or_default gas_limit)
             gp nonce (chain_id self) in
     signed_txn <- node_sign_transaction node transaction private_key ;;
     tx_hash <- node_send_raw_transaction node (rawTransaction signed_txn) ;;
     new_TransactionHash tx_hash)
    (fun e =>
       Raise (mkExc TransactionFailedError
                    ("Transaction failed: " ++ exc_msg e))).

(** [[dict(log) for log in receipt.logs]] *)
Fixpoint convert_logs (l : list RawLog) : result (list Log) :=
  match l with
  | [] => Return []
  | LogMapping x :: l' => xs <- convert_logs l' ;; Return (x :: xs)
  | LogMalformed :: _ =>
      Raise (mkExc TypeError "cannot convert dictionary update sequence")
  end.

(** [ContractAddress(receipt.contractAddress) if receipt.contractAddress
    else None]: [None] and the empty string are falsy. *)
Definition convert_contract_address (a : option string)
  : result (option ContractAddress) :=
  match a with
  | None => Return None
  | Some s =>
      if String.eqb s "" then Return None
      else (c <- new_ContractAddress s ;; Return (Some c))
  end.

(** [get_transaction_receipt] *)
Definition get_transaction_receipt (self : Client) (node : Node)
    (tx_hash : TransactionHash) : result (option TransactionReceipt) :=
  require_connected self node ;;;
  try_except
    (_ <- the_w3 self ;;
     receipt <- node_get_transaction_receipt node (th_value tx_hash) ;;
     let status :=
       if raw_status receipt =? 1 then CONFIRMED else FAILED in
     ca <- convert_contract_address (raw_contractAddress receipt) ;;
     ls <- convert_logs (raw_logs receipt) ;;
     Return (Some (mkTransactionReceipt tx_hash (raw_blockNumber receipt)
                                        (raw_gasUsed receipt) status ca ls)))
    (fun _ => Return None).

(** *** Waiting for a receipt

    The event loop's clock is threaded through the loop.  The [k]-th
    round of the loop sees the node [poll_node k]; [poll_latency k] is the
    time that round spends outside the nominal sleep (the receipt lookup,
    scheduling).  Time is counted in the unit of [timeout]. *)

Record Polls : Type := mkPolls {
  poll_node : nat -> Node;
  poll_latency : nat -> Z
}.

Definition default_timeout : Z := 300.
Definition poll_interval : Z := 2.

(** What a run of the loop leaves behind: its result, the clock when it
    ended and the number of lookups made. *)
Record Waited : Type := mkWaited {
  waited_result : result TransactionReceipt;
  waited_clock : Z;
  waited_polls : nat
}.

(** [TransactionFailedError(f"Transaction {tx_hash} timed out")] *)
Definition timeout_error (tx_hash : TransactionHash) : Exc :=
  mkExc TransactionFailedError
        ("Transaction " ++ TransactionHash_str tx_hash ++ " timed out").

(** The [while True] loop of [wait_for_transaction], from round [k] on at
    clock [clock]; [None] when [fuel] rounds were not enough. *)
Fixpoint wait_loop (self : Client) (polls : Polls) (tx_hash : TransactionHash)
    (timeout start_time : Z) (fuel k : nat) (clock : Z) : option Waited :=
  match fuel with
  | O => None
  | S fuel' =>
      let clock1 := clock + poll_latency polls k in
      match get_transaction_receipt self (poll_node polls k) tx_hash with
      | Raise e => Some (mkWaited (Raise e) clock1 (S k))
      | Return (Some receipt) => Some (mkWaited (Return receipt) clock1 (S k))
      | Return None =>
          if clock1 - start_time >? timeout then
            Some (mkWaited (Raise (timeout_error tx_hash)) clock1 (S k))
          else
            wait_loop self polls tx_hash timeout start_time fuel' (S k)
                      (clock1 + poll_interval)
      end
  end.

(** [wait_for_transaction], entered at clock [now]. *)
Definition wait_for_transaction (self : Client) (polls : Polls)
    (tx_hash : TransactionHash) (timeout : Z) (now : Z) (fuel : nat)
  : option Waited :=
  wait_loop self polls tx_hash timeout now fuel 0%nat now.

(** The clock at the timeout test of round [k]. *)
Fixpoint check_clock (polls : Polls) (now : Z) (k : nat) : Z :=
  match k with
  | O => now + poll_latency polls 0%nat
  | S k' => check_clock polls now k' + poll_interval + poll_latency polls (S k')
  end.

(** *** Minting *)

(** The body of [mint_nft] up to the broadcast: the transaction hash as
    [tx_hash.hex()] spells it. *)
Definition mint_submit (self : Client) (node : Node)
    (contract_address : ContractAddress) (minter_private_key : string)
    (to_address : WalletAddress) (metadata : NFTMetadata) : result string :=
  contract_abi <- _load_contract_abi node "ArtNFT" ;;
  _ <- the_w3 self ;;
  node_contract node (ca_value contract_address) contract_abi ;;;
  account <- node_account_from_key node minter_private_key ;;
  minting_fee <- node_call_mintingFee node (ca_value contract_address) ;;
  let function :=
    mkMintCall (ca_value contract_address) (wa_value to_address)
               (title metadata) (description metadata) (image_uri metadata)
               (metadata_uri metadata) (royalty_bps metadata) in
  nonce <- node_get_transaction_count node account ;;
  gp <- node_gas_price node ;;
  transaction <- node_build_transaction node function
                   (mkTxn (ca_value contract_address) minting_fee 300000 gp
                          nonce (chain_id self)) ;;
  signed_txn <- node_sign_transaction node transaction minter_private_key ;;
  node_send_raw_transaction node (rawTransaction signed_txn).

(** [mint_nft]: [node] answers the calls up to the broadcast, [polls] the
    receipt lookups after it; [None] when the wait ran out of [fuel]. *)
Definition mint_nft (self : Client) (node : Node) (polls : Polls)
    (contract_address : ContractAddress) (minter_private_key : string)
    (to_address : WalletAddress) (metadata : NFTMetadata)
    (now : Z) (fuel : nat) : option (result (Z * TransactionHash)) :=
  let wrap (e : Exc) : result (Z * TransactionHash) :=
    Raise (mkExc ContractInteractionError
                 ("Failed to mint NFT: " ++ exc_msg e)) in
  match mint_submit self node contract_address minter_private_key
                    to_address metadata with
  | Raise e => Some (wrap e)
  | Return tx_hash =>
      match new_TransactionHash tx_hash with
      | Raise e => Some (wrap e)
      | Return h =>
          match wait_for_transaction self polls h default_timeout now fuel with
          | None => None
          | Some w =>
              Some (try_except
                      (receipt <- waited_result w ;;
                       let token_id := 1 in
                       h' <- new_TransactionHash tx_hash ;;
                       Return (token_id, h'))
                      wrap)
          end
      end
  end.

End Web3Client.

(** ** True division of integers ([int.__truediv__])

    [a / b] on two [int]s is a [float]: the IEEE-754 binary64 number
    nearest to the quotient, ties going to the even significand
    (CPython's [long_true_divide] is correctly rounded), with
    [ZeroDivisionError] for [b == 0] and [OverflowError] when the rounded
    quotient does not fit.  A finite binary64 is kept as sign, significand
    and binary exponent. *)

Module PyFloat.

(** [(-1)^f_neg * f_mant * 2^f_exp], [0 <= f_mant < 2^53],
    [-1074 <= f_exp <= 971]. *)
Record float : Type := mkFloat { f_neg : bool; f_mant : Z; f_exp : Z }.

(** [int.bit_length] for [0 <= n]. *)
Definition bit_length (n : Z) : Z := if n =? 0 then 0 else Z.log2 n + 1.

(** Numerator and denominator of [x / (y * 2^e)]. *)
Definition scale_num (x e : Z) : Z := if e <? 0 then x * 2 ^ (- e) else x.
Definition scale_den (y e : Z) : Z := if e <? 0 then y else y * 2 ^ e.

(** The integer nearest to [n / d], ties to even, for [0 <= n], [0 < d]. *)
Definition round_half_even_div (n d : Z) : Z :=
  let q := n / d in
  let r := n mod d in
  if 2 * r <? d then q
  else if d <? 2 * r then q + 1
  else if Z.even q then q else q + 1.

Definition int_true_divide (a b : Z) : result float :=
  if b =? 0 then Raise (mkExc ArithmeticError "division by zero")
  else
    let negate := xorb (a <? 0) (b <? 0) in
    let x := Z.abs a in
    let y := Z.abs b in
    if x =? 0 then Return (mkFloat negate 0 0)
    else
      let diff := bit_length x - bit_length y in
      if diff >? 1024 then
        Raise (mkExc ArithmeticError
                     "integer division result too large for a float")
      else if diff <? -1075 then Return (mkFloat negate 0 0)
      else
        (* the quotient lies in [2^lead, 2^(lead+1)) *)
        let lead :=
          if scale_den y diff <=? scale_num x diff then diff else diff - 1 in
        let e := Z.max (lead - 52) (-1074) in
        let m := round_half_even_div (scale_num x e) (scale_den y e) in
        let '(m, e) := if m =? 2 ^ 53 then (2 ^ 52, e + 1) else (m, e) in
        if e >? 971 then
          Raise (mkExc ArithmeticError
                       "integer division result too large for a float")
        else Return (mkFloat negate m e).

(** [f] denotes exactly the quotient [n / d] (for [0 < d]). *)
Definition float_is_quotient (f : float) (n d : Z) : Prop :=
  (if f_neg f then -1 else 1) * f_mant f * scale_den d (f_exp f)
  = scale_num n (f_exp f).

(** The binary64 numbers: a significand of at most 53 bits and an
    exponent in range. *)
Definition binary64 (f : float) : Prop :=
  0 <= f_mant f < 2 ^ 53 /\ -1074 <= f_exp f <= 971.

(** The significand has its full 53 bits, unless the number is subnormal
    or zero. *)
Definition normal_form (f : float) : Prop :=
  2 ^ 52 <= f_mant f \/ f_exp f = -1074 \/ f_mant f = 0.

(** [f] counted in units of [2^-1074], the smallest positive binary64:
    an integer. *)
Definition float_units (f : float) : Z :=
  (if f_neg f then -1 else 1) * f_mant f * 2 ^ (f_exp f + 1074).

(** The distance between [f] and the quotient [n / d], multiplied by
    [d * 2^1074] (for [0 < d]). *)
Definition float_distance (f : float) (n d : Z) : Z :=
  Z.abs (float_units f * d - n * 2 ^ 1074).

(** No binary64 number is nearer to [n / d] than [f], and when another
    one is as near, the significand of [f] is even. *)
Definition nearest_ties_to_even (f : float) (n d : Z) : Prop :=
  forall g, binary64 g ->
    float_distance f n d <= float_distance g n d /\
    (float_distance g n d = float_distance f n d ->
     float_units g <> float_units f -> Z.even (f_mant f) = true).

(** The quotients from [2^1024 - 2^970] on, half a unit of the last place
    above the largest binary64, round to [2^1024], which is no float. *)
Definition overflow_threshold : Z := 2 ^ 1024 - 2 ^ 970.

End PyFloat.

(** ** [Amount] ([base.py]) *)

Module Domain.
Import PyFloat.

Record Amount : Type := mkAmount { value : Z; decimals : Z }.

Definition default_decimals : Z := 18.

(** [Amount(value, decimals)]: [__post_init__] refuses a negative value. *)
Definition new_Amount (value decimals : Z) : result Amount :=
  if value <? 0
  then Raise (mkExc ValueError "Amount cannot be negative")
  else Return (mkAmount value decimals).

(** The property [normalized]: [self.value / (10 ** self.decimals)].
    For [0 <= decimals] both operands are [int]s and [/] is their true
    division.  For a negative [decimals] Python computes [10 ** decimals]
    with the C library's [pow] on floats, which is outside this
    development: [None]. *)
Definition normalized (a : Amount) : option (result float) :=
  if decimals a <? 0 then None
  else Some (int_true_divide (value a) (10 ^ decimals a)).

End Domain.

(** ** The asset aggregate ([app/core/domain/asset.py])

    [datetime.utcnow()] is read from outside: every operation that reads
    the clock takes the readings as arguments, in the order the code makes
    them.  A [datetime] is kept as a number; an event's ["timestamp"] is
    the reading whose [isoformat()] the code stores.  A [UUID] is kept as
    its canonical text, which is what [str] gives and what equality
    compares. *)

Module AssetDomain.
Import Str PyDecimal.

Inductive AssetStatus : Type := DRAFT | MINTING | MINTED | LISTED | SOLD | BURNED.

Inductive VerificationStatus : Type := PENDING | VERIFIED | REJECTED | EXPIRED.

Definition AssetStatus_eqb (a b : AssetStatus) : bool :=
  match a, b with
  | DRAFT, DRAFT | MINTING, MINTING | MINTED, MINTED
  | LISTED, LISTED | SOLD, SOLD | BURNED, BURNED => true
  | _, _ => false
  end.

Definition VerificationStatus_eqb (a b : VerificationStatus) : bool :=
  match a, b with
  | PENDING, PENDING | VERIFIED, VERIFIED
  | REJECTED, REJECTED | EXPIRED, EXPIRED => true
  | _, _ => false
  end.

Record AssetId : Type := mkAssetId { asset_uuid : string }.

Definition AssetId_str (a : AssetId) : string := asset_uuid a.

(** *** Value objects *)

Record IPFSHash : Type := mkIPFSHash { ipfs_value : string }.

(** [IPFSHash(value)]: [value.startswith(('Qm', 'bafy'))] *)
Definition new_IPFSHash (value : string) : result IPFSHash :=
  if negb (String.prefix "Qm" value || String.prefix "bafy" value)
  then Raise (mkExc ValueError "Invalid IPFS hash format")
  else Return (mkIPFSHash value).

Record C2PAHash : Type := mkC2PAHash { c2pa_value : string }.

(** [C2PAHash(value)] *)
Definition new_C2PAHash (value : string) : result C2PAHash :=
  if negb (Nat.eqb (String.length value) 66) || negb (String.prefix "0x" value)
  then Raise (mkExc ValueError "Invalid C2PA hash format")
  else Return (mkC2PAHash value).

Definition C2PAHash_str (h : C2PAHash) : string := c2pa_value h.

(** Comparison of an [int] with a finite [Decimal]: by value. *)
Definition dec_sign_factor (d : Decimal) : Z := if d_sign d then -1 else 1.

Definition int_le_dec (n : Z) (d : Decimal) : bool :=
  if 0 <=? d_exp d
  then n <=? dec_sign_factor d * d_int d * 10 ^ d_exp d
  else n * 10 ^ (- d_exp d) <=? dec_sign_factor d * d_int d.

Definition dec_le_int (d : Decimal) (n : Z) : bool :=
  if 0 <=? d_exp d
  then dec_sign_factor d * d_int d * 10 ^ d_exp d <=? n
  else dec_sign_factor d * d_int d <=? n * 10 ^ (- d_exp d).

Record RoyaltyInfo : Type := mkRoyaltyInfo {
  recipient : string;
  percentage : Decimal
}.

(** [RoyaltyInfo(recipient, percentage)]: the percentage is tested first. *)
Definition new_RoyaltyInfo (recipient : string) (percentage : Decimal)
  : result RoyaltyInfo :=
  if negb (int_le_dec 0 percentage && dec_le_int percentage 100)
  then Raise (mkExc ValueError "Royalty percentage must be between 0 and 100")
  else if negb (String.prefix "0x" recipient)
          || negb (Nat.eqb (String.length recipient) 42)
  then Raise (mkExc ValueError "Invalid Ethereum address format")
  else Return (mkRoyaltyInfo recipient percentage).

(** [str.isspace] on the code points 0 to 255. *)
Definition isspace (c : ascii) : bool :=
  let n := nat_of_ascii c in
  ((Nat.leb 9 n && Nat.leb n 13) || (Nat.leb 28 n && Nat.leb n 32)
   || Nat.eqb n 133 || Nat.eqb n 160)%bool.

(** [str.lstrip()], [str.rstrip()] and [str.strip()] without argument. *)
Fixpoint lstrip (s : string) : string :=
  match s with
  | EmptyString => EmptyString
  | String c s' => if isspace c then lstrip s' else s
  end.

Fixpoint rstrip (s : string) : string :=
  match s with
  | EmptyString => EmptyString
  | String c s' =>
      match rstrip s' with
      | EmptyString => if isspace c then EmptyString else String c EmptyString
      | r => String c r
      end
  end.

Definition strip (s : string) : string := rstrip (lstrip s).

(** [AssetMetadata] is a dataclass that is not frozen, and the asset keeps
    a reference to the object it was given.  The record is the content
    of that object; the statements about assets concern what the methods
    of [Asset] assign, not what a holder of the same object does to its
    fields. *)
Record AssetMetadata : Type := mkAssetMetadata {
  title : string;
  description : string;
  image_uri : IPFSHash;
  metadata_uri : IPFSHash;
  tags : list string;
  attributes : list (string * string)
}.

(** [AssetMetadata(...)]: [__post_init__] *)
Definition new_AssetMetadata (title description : string)
    (image_uri metadata_uri : IPFSHash) (tags : list string)
    (attributes : list (string * string)) : result AssetMetadata :=
  if String.eqb (strip title) ""
  then Raise (mkExc ValueError "Title cannot be empty")
  else if Nat.ltb 200 (String.length title)
  then Raise (mkExc ValueError "Title cannot exceed 200 characters")
  else if Nat.ltb 2000 (String.length description)
  then Raise (mkExc ValueError "Description cannot exceed 2000 characters")
  else Return (mkAssetMetadata title description image_uri metadata_uri
                               tags attributes).

(** *** Domain events

    The values an event dictionary holds. [VFloatOf d] is [float(d)] for a
    [Decimal] [d]. *)
#[warnings="-register-all"]
Inductive EventValue : Type :=
  | VStr (s : string)
  | VInt (n : Z)
  | VNone
  | VFloatOf (d : Decimal)
  | VDict (entries : list (string * EventValue)).

Record Event : Type := mkEvent {
  event_type : string;
  event_data : list (string * EventValue);
  timestamp : Z;
  aggregate_id : string
}.

(** *** The entity *)

Record Asset : Type := mkAsset {
  _asset_id : AssetId;
  _creator_address : string;
  _metadata : AssetMetadata;
  _royalty_info : RoyaltyInfo;
  _created_at : Z;
  _status : AssetStatus;
  _verification_status : VerificationStatus;
  _token_id : option Z;
  _contract_address : option string;
  _c2pa_hash : option C2PAHash;
  _verification_attempts : Z;
  _updated_at : Z;
  _domain_events : list Event
}.

(** [_validate_ethereum_address] *)
Definition _validate_ethereum_address (address : string) : result string :=
  if negb (String.prefix "0x" address)
     || negb (Nat.eqb (String.length address) 42)
  then Raise (mkExc ValueError ("Invalid Ethereum address: " ++ address))
  else Return (lower address).

(** [Asset(asset_id, creator_address, metadata, royalty_info, created_at)];
    [utcnow] is the clock reading used when [created_at] is [None]. *)
Definition new_Asset (asset_id : AssetId) (creator_address : string)
    (metadata : AssetMetadata) (royalty_info : RoyaltyInfo)
    (created_at : option Z) (utcnow : Z) : result Asset :=
  creator <- _validate_ethereum_address creator_address ;;
  let created := match created_at with Some t => t | None => utcnow end in
  Return (mkAsset asset_id creator metadata royalty_info created
                  DRAFT PENDING None None None 0 created []).

(** Properties *)
Definition is_minted (a : Asset) : bool :=
  match _token_id a, _contract_address a with
  | Some _, Some _ => true
  | _, _ => false
  end.

Definition is_verified (a : Asset) : bool :=
  VerificationStatus_eqb (_verification_status a) VERIFIED.

Definition can_be_minted (a : Asset) : bool :=
  AssetStatus_eqb (_status a) DRAFT
  && VerificationStatus_eqb (_verification_status a) VERIFIED.

(** Field updates. *)
Definition set_metadata (a : Asset) (m : AssetMetadata) : Asset :=
  mkAsset (_asset_id a) (_creator_address a) m (_royalty_info a)
          (_created_at a) (_status a) (_verification_status a) (_token_id a)
          (_contract_address a) (_c2pa_hash a) (_verification_attempts a)
          (_updated_at a) (_domain_events a).

Definition set_royalty_info (a : Asset) (r : RoyaltyInfo) : Asset :=
  mkAsset (_asset_id a) (_creator_address a) (_metadata a) r
          (_created_at a) (_status a) (_verification_status a) (_token_id a)
          (_contract_address a) (_c2pa_hash a) (_verification_attempts a)
          (_updated_at a) (_domain_events a).

Definition set_status (a : Asset) (s : AssetStatus) : Asset :=
  mkAsset (_asset_id a) (_creator_address a) (_metadata a) (_royalty_info a)
          (_created_at a) s (_verification_status a) (_token_id a)
          (_contract_address a) (_c2pa_hash a) (_verification_attempts a)
          (_updated_at a) (_domain_events a).

Definition set_verification_status (a : Asset) (v : VerificationStatus)
  : Asset :=
  mkAsset (_asset_id a) (_creator_address a) (_metadata a) (_royalty_info a)
          (_created_at a) (_status a) v (_token_id a)
          (_contract_address a) (_c2pa_hash a) (_verification_attempts a)
          (_updated_at a) (_domain_events a).

Definition set_token_id (a : Asset) (t : option Z) : Asset :=
  mkAsset (_asset_id a) (_creator_address a) (_metadata a) (_royalty_info a)
          (_created_at a) (_status a) (_verification_status a) t
          (_contract_address a) (_c2pa_hash a) (_verification_attempts a)
          (_updated_at a) (_domain_events a).

Definition set_contract_address (a : Asset) (c : option string) : Asset :=
  mkAsset (_asset_id a) (_creator_address a) (_metadata a) (_royalty_info a)
          (_created_at a) (_status a) (_verification_status a) (_token_id a)
          c (_c2pa_hash a) (_verification_attempts a)
          (_updated_at a) (_domain_events a).

Definition set_c2pa_hash (a : Asset) (h : option C2PAHash) : Asset :=
  mkAsset (_asset_id a) (_creator_address a) (_metadata a) (_royalty_info a)
          (_created_at a) (_status a) (_verification_status a) (_token_id a)
          (_contract_address a) h (_verification_attempts a)
          (_updated_at a) (_domain_events a).

Definition set_verification_attempts (a : Asset) (n : Z) : Asset :=
  mkAsset (_asset_id a) (_creator_address a) (_metadata a) (_royalty_info a)
          (_created_at a) (_status a) (_verification_status a) (_token_id a)
          (_contract_address a) (_c2pa_hash a) n
          (_updated_at a) (_domain_events a).

Definition set_updated_at (a : Asset) (t : Z) : Asset :=
  mkAsset (_asset_id a) (_creator_address a) (_metadata a) (_royalty_info a)
          (_created_at a) (_status a) (_verification_status a) (_token_id a)
          (_contract_address a) (_c2pa_hash a) (_verification_attempts a)
          t (_domain_events a).

Definition set_domain_events (a : Asset) (l : list Event) : Asset :=
  mkAsset (_asset_id a) (_creator_address a) (_metadata a) (_royalty_info a)
          (_created_at a) (_status a) (_verification_status a) (_token_id a)
          (_contract_address a) (_c2pa_hash a) (_verification_attempts a)
          (_updated_at a) l.

(** [_add_domain_event]; [utcnow] is its own clock reading. *)
Definition _add_domain_event (a : Asset) (event_type : string)
    (event_data : list (string * EventValue)) (utcnow : Z) : Asset :=
  set_domain_events a
    (_domain_events a
     ++ [mkEvent event_type event_data utcnow (AssetId_str (_asset_id a))]).

Definition opt_int (o : option Z) : EventValue :=
  match o with Some n => VInt n | None => VNone end.

(** Every method returns what it raised, if anything, and the object as
    it is left.  [t1] is the reading stored in [_updated_at], [t2] the one
    taken by [_add_domain_event]. *)
Definition Outcome : Type := (result unit * Asset)%type.

Definition raise_ValueError (a : Asset) (msg : string) : Outcome :=
  (Raise (mkExc ValueError msg), a).

Definition update_metadata (a : Asset) (new_metadata : AssetMetadata)
    (t1 t2 : Z) : Outcome :=
  if is_minted a then raise_ValueError a "Cannot update metadata after minting"
  else
    let a := set_metadata a new_metadata in
    let a := set_updated_at a t1 in
    (Return tt,
     _add_domain_event a "asset_metadata_updated"
       [("asset_id", VStr (AssetId_str (_asset_id a)));
        ("new_metadata",
         VDict [("title", VStr (title new_metadata));
                ("description", VStr (description new_metadata))])] t2).

Definition update_royalty_info (a : Asset) (new_royalty_info : RoyaltyInfo)
    (t1 t2 : Z) : Outcome :=
  if negb (String.eqb (recipient new_royalty_info) (_creator_address a))
  then raise_ValueError a "Only creator can update royalty info"
  else
    let a := set_royalty_info a new_royalty_info in
    let a := set_updated_at a t1 in
    (Return tt,
     _add_domain_event a "asset_royalty_updated"
       [("asset_id", VStr (AssetId_str (_asset_id a)));
        ("new_percentage", VFloatOf (percentage new_royalty_info))] t2).

Definition start_verification (a : Asset) (t1 t2 : Z) : Outcome :=
  if negb (VerificationStatus_eqb (_verification_status a) PENDING)
  then raise_ValueError a
         "Asset verification already in progress or completed"
  else
    let a := set_verification_attempts a (_verification_attempts a + 1) in
    let a := set_updated_at a t1 in
    (Return tt,
     _add_domain_event a "asset_verification_started"
       [("asset_id", VStr (AssetId_str (_asset_id a)));
        ("attempt", VInt (_verification_attempts a))] t2).

Definition verify (a : Asset) (c2pa_hash : C2PAHash)
    (verifier_address : string) (t1 t2 : Z) : Outcome :=
  if VerificationStatus_eqb (_verification_status a) VERIFIED
  then raise_ValueError a "Asset already verified"
  else
    let a := set_verification_status a VERIFIED in
    let a := set_c2pa_hash a (Some c2pa_hash) in
    let a := set_updated_at a t1 in
    (Return tt,
     _add_domain_event a "asset_verified"
       [("asset_id", VStr (AssetId_str (_asset_id a)));
        ("c2pa_hash", VStr (C2PAHash_str c2pa_hash));
        ("verifier", VStr verifier_address)] t2).

Definition reject_verification (a : Asset) (reason : string) (t1 t2 : Z)
  : Outcome :=
  let a := set_verification_status a REJECTED in
  let a := set_updated_at a t1 in
  (Return tt,
   _add_domain_event a "asset_verification_rejected"
     [("asset_id", VStr (AssetId_str (_asset_id a)));
      ("reason", VStr reason)] t2).

Definition start_minting (a : Asset) (t1 t2 : Z) : Outcome :=
  if negb (can_be_minted a)
  then raise_ValueError a "Asset cannot be minted in current state"
  else
    let a := set_status a MINTING in
    let a := set_updated_at a t1 in
    (Return tt,
     _add_domain_event a "asset_minting_started"
       [("asset_id", VStr (AssetId_str (_asset_id a)))] t2).

(** [complete_minting]: [_token_id] is assigned before the address is
    validated. *)
Definition complete_minting (a : Asset) (token_id : Z)
    (contract_address : string) (t1 t2 : Z) : Outcome :=
  if negb (AssetStatus_eqb (_status a) MINTING)
  then raise_ValueError a "Asset is not in minting state"
  else
    let a := set_token_id a (Some token_id) in
    match _validate_ethereum_address contract_address with
    | Raise e => (Raise e, a)
    | Return c =>
        let a := set_contract_address a (Some c) in
        let a := set_status a MINTED in
        let a := set_updated_at a t1 in
        (Return tt,
         _add_domain_event a "asset_minted"
           [("asset_id", VStr (AssetId_str (_asset_id a)));
            ("token_id", VInt token_id);
            ("contract_address", VStr contract_address)] t2)
    end.

Definition list_for_sale (a : Asset) (t1 t2 : Z) : Outcome :=
  if negb (is_minted a)
  then raise_ValueError a "Asset must be minted before listing"
  else
    let a := set_status a LISTED in
    let a := set_updated_at a t1 in
    (Return tt,
     _add_domain_event a "asset_listed"
       [("asset_id", VStr (AssetId_str (_asset_id a)));
        ("token_id", opt_int (_token_id a))] t2).

Definition mark_as_sold (a : Asset) (t1 t2 : Z) : Outcome :=
  if negb (AssetStatus_eqb (_status a) LISTED)
  then raise_ValueError a "Asset is not listed for sale"
  else
    let a := set_status a SOLD in
    let a := set_updated_at a t1 in
    (Return tt,
     _add_domain_event a "asset_sold"
       [("asset_id", VStr (AssetId_str (_asset_id a)));
        ("token_id", opt_int (_token_id a))] t2).

(** [get_domain_events]: the events so far, and the object with its log
    emptied. *)
Definition get_domain_events (a : Asset) : list Event * Asset :=
  (_domain_events a, set_domain_events a []).

(** [__eq__] between two assets. *)
Definition Asset_eq (a b : Asset) : bool :=
  String.eqb (asset_uuid (_asset_id a)) (asset_uuid (_asset_id b)).

(** What [_validate_ethereum_address] returns: in lower case and
    starting with [0x]. *)
Definition canonical_address (c : string) : Prop :=
  lower c = c /\ String.prefix "0x" c = true.

(** The states an asset can be in. *)
Definition asset_invariant (a : Asset) : Prop :=
  (is_minted a = true <->
   _status a = MINTED \/ _status a = LISTED \/ _status a = SOLD) /\
  _status a <> BURNED /\
  (_status a = DRAFT -> _token_id a = None) /\
  (_status a = DRAFT \/ _status a = MINTING -> _contract_address a = None) /\
  (forall c, _contract_address a = Some c -> canonical_address c) /\
  canonical_address (_creator_address a).

Fixpoint all_space (s : string) : bool :=
  match s with
  | EmptyString => true
  | String c s' => isspace c && all_space s'
  end.

(** *** Sequences of calls *)

Inductive Call : Type :=
  | UpdateMetadata (new_metadata : AssetMetadata) (t1 t2 : Z)
  | UpdateRoyaltyInfo (new_royalty_info : RoyaltyInfo) (t1 t2 : Z)
  | StartVerification (t1 t2 : Z)
  | Verify (c2pa_hash : C2PAHash) (verifier_address : string) (t1 t2 : Z)
  | RejectVerification (reason : string) (t1 t2 : Z)
  | StartMinting (t1 t2 : Z)
  | CompleteMinting (token_id : Z) (contract_address : string) (t1 t2 : Z)
  | ListForSale (t1 t2 : Z)
  | MarkAsSold (t1 t2 : Z)
  | GetDomainEvents.

Definition call (a : Asset) (c : Call) : Outcome :=
  match c with
  | UpdateMetadata m t1 t2 => update_metadata a m t1 t2
  | UpdateRoyaltyInfo r t1 t2 => update_royalty_info a r t1 t2
  | StartVerification t1 t2 => start_verification a t1 t2
  | Verify h v t1 t2 => verify a h v t1 t2
  | RejectVerification r t1 t2 => reject_verification a r t1 t2
  | StartMinting t1 t2 => start_minting a t1 t2
  | CompleteMinting t c t1 t2 => complete_minting a t c t1 t2
  | ListForSale t1 t2 => list_for_sale a t1 t2
  | MarkAsSold t1 t2 => mark_as_sold a t1 t2
  | GetDomainEvents => (Return tt, snd (get_domain_events a))
  end.

(** The object after a sequence of calls, whether they raise or not. *)
Fixpoint calls (a : Asset) (cs : list Call) : Asset :=
  match cs with
  | [] => a
  | c :: cs' => calls (snd (call a c)) cs'
  end.

Definition is_drain (c : Call) : bool :=
  match c with GetDomainEvents => true | _ => false end.

Definition returns_normally (o : Outcome) : bool :=
  match fst o with Return _ => true | Raise _ => false end.

(** How many calls of a sequence, other than [get_domain_events], return
    normally. *)
Fixpoint completed (a : Asset) (cs : list Call) : nat :=
  match cs with
  | [] => O
  | c :: cs' =>
      ((if returns_normally (call a c) && negb (is_drain c) then 1 else 0)
       + completed (snd (call a c)) cs')%nat
  end.

(** The order in which the status advances. *)
Definition status_rank (s : AssetStatus) : nat :=
  match s with
  | DRAFT => 0
  | MINTING => 1
  | MINTED => 2
  | LISTED | SOLD => 3
  | BURNED => 4
  end.

(** How many [start_verification] calls of a sequence return normally. *)
Fixpoint verifications_started (a : Asset) (cs : list Call) : Z :=
  match cs with
  | [] => 0
  | c :: cs' =>
      (match c with
       | StartVerification _ _ =>
           if returns_normally (call a c) then 1 else 0
       | _ => 0
       end)
      + verifications_started (snd (call a c)) cs'
  end.

End AssetDomain.

(** ** The plugin manager ([app/core/plugins/plugin_manager.py])

    A plugin class is kept as what the manager asks of it.  Instantiating
    a class and reading [metadata] is taken to have no effect and to give
    the same metadata each time, as for the two plugins of the file.  The
    registry holds one class per name, so a name identifies a class.
    Calls to the injected logger are left out. *)

Module Plugins.

Inductive PluginType : Type :=
  | TOKEN_HANDLER
  | PAYMENT_PROCESSOR
  | VERIFICATION_SERVICE
  | NOTIFICATION_SERVICE
  | ANALYTICS_SERVICE
  | INTEGRATION_SERVICE.

Definition PluginType_eqb (a b : PluginType) : bool :=
  match a, b with
  | TOKEN_HANDLER, TOKEN_HANDLER
  | PAYMENT_PROCESSOR, PAYMENT_PROCESSOR
  | VERIFICATION_SERVICE, VERIFICATION_SERVICE
  | NOTIFICATION_SERVICE, NOTIFICATION_SERVICE
  | ANALYTICS_SERVICE, ANALYTICS_SERVICE
  | INTEGRATION_SERVICE, INTEGRATION_SERVICE => true
  | _, _ => false
  end.

Record PluginMetadata : Type := mkPluginMetadata {
  name : string;
  version : string;
  description : string;
  author : string;
  plugin_type : PluginType;
  dependencies : list string;
  enabled : bool
}.

(** A concrete subclass of [Plugin], one whose constructor takes no
    argument and returns and whose [metadata] property returns: its
    metadata, what [initialize] does (return or raise), the event types
    it declares in [handled_event_types], and the names for which
    [hasattr] holds on an instance. *)
Record PluginClass : Type := mkPluginClass {
  metadata : PluginMetadata;
  initialize : result unit;
  handled_event_types : list string;
  attribute_names : list string
}.

Definition plugin_name (c : PluginClass) : string := name (metadata c).


(** A [dict] with string keys, in insertion order. *)
Fixpoint sdict_get {V : Type} (d : list (string * V)) (k : string) : option V :=
  match d with
  | [] => None
  | (k', v) :: d' => if String.eqb k' k then Some v else sdict_get d' k
  end.

(** [d[k] = v]: an existing key keeps its place. *)
Fixpoint sdict_set {V : Type} (d : list (string * V)) (k : string) (v : V)
  : list (string * V) :=
  match d with
  | [] => [(k, v)]
  | (k', v') :: d' =>
      if String.eqb k' k then (k', v) :: d' else (k', v') :: sdict_set d' k v
  end.

Definition sdict_keys {V : Type} (d : list (string * V)) : list string :=
  map fst d.

Definition sdict_values {V : Type} (d : list (string * V)) : list V :=
  map snd d.

(** *** [PluginRegistry] *)

Record PluginRegistry : Type := mkPluginRegistry {
  _plugins : list (string * PluginClass);
  _metadata : list (string * PluginMetadata)
}.



(** [get_plugin] *)
Definition get_plugin (self : PluginRegistry) (n : string)
  : option PluginClass :=
  sdict_get (_plugins self) n.

(** [get_plugins_by_type]: [self._metadata[name]] raises [KeyError] for a
    missing key. *)
Fixpoint plugins_of_type (md : list (string * PluginMetadata))
    (t : PluginType) (items : list (string * PluginClass))
  : result (list PluginClass) :=
  match items with
  | [] => Return []
  | (n, c) :: items' =>
      match sdict_get md n with
      | None => Raise (mkExc KeyError n)
      | Some m =>
          rest <- plugins_of_type md t items' ;;
          Return (if PluginType_eqb (plugin_type m) t then c :: rest else rest)
      end
  end.

Definition get_plugins_by_type (self : PluginRegistry) (t : PluginType)
  : result (list PluginClass) :=
  plugins_of_type (_metadata self) t (_plugins self).


(** *** Dependency resolution *)

(** [all(dep in [p().metadata.name for p in loaded] for dep in
    metadata.dependencies)] *)
Definition dependencies_met (loaded : list PluginClass) (p : PluginClass)
  : bool :=
  forallb (fun dep => existsb (String.eqb dep) (map plugin_name loaded))
          (dependencies (metadata p)).

(** The [for plugin_class in remaining] loop of one round: [loaded] and
    [loaded_this_round] after it. *)
Fixpoint resolve_round (remaining loaded loaded_this_round : list PluginClass)
  : list PluginClass * list PluginClass :=
  match remaining with
  | [] => (loaded, loaded_this_round)
  | p :: rest =>
      if dependencies_met loaded p
      then resolve_round rest (loaded ++ [p])%list
                         (loaded_this_round ++ [p])%list
      else resolve_round rest loaded loaded_this_round
  end.

(** [remaining.remove(plugin_class)]: the first occurrence goes. *)
Fixpoint list_remove (p : PluginClass) (l : list PluginClass)
  : list PluginClass :=
  match l with
  | [] => []
  | q :: l' =>
      if String.eqb (plugin_name q) (plugin_name p) then l'
      else q :: list_remove p l'
  end.

(** [for plugin_class in loaded_this_round: remaining.remove(plugin_class)] *)
Definition remove_all (loaded_this_round remaining : list PluginClass)
  : list PluginClass :=
  fold_left (fun rem p => list_remove p rem) loaded_this_round remaining.

(** What [_resolve_dependencies] gives: the load order, or the
    [ValueError] with the names it could not place. *)
Inductive Resolution : Type :=
  | Loaded (order : list PluginClass)
  | CannotResolve (remaining_names : list string).

(** The [while remaining] loop; [None] when [fuel] rounds were not
    enough. *)
Fixpoint resolve_loop (fuel : nat) (loaded remaining : list PluginClass)
  : option Resolution :=
  match remaining with
  | [] => Some (Loaded loaded)
  | _ :: _ =>
      match fuel with
      | O => None
      | S fuel' =>
          let '(loaded', loaded_this_round) :=
            resolve_round remaining loaded [] in
          match loaded_this_round with
          | [] => Some (CannotResolve (map plugin_name remaining))
          | _ :: _ =>
              resolve_loop fuel' loaded'
                           (remove_all loaded_this_round remaining)
          end
      end
  end.

(** [_resolve_dependencies]: every round places at least one plugin, so
    as many rounds as there are plugins are enough. *)
Definition _resolve_dependencies (registry : PluginRegistry)
  : option Resolution :=
  let all_plugins := sdict_values (_plugins registry) in
  resolve_loop (length all_plugins) [] all_plugins.

(** A load order in which every plugin comes after the plugins it names
    as dependencies. *)
Definition dependency_order (order : list PluginClass) : Prop :=
  forall before p after,
    order = (before ++ p :: after)%list ->
    forall dep, In dep (dependencies (metadata p)) ->
                In dep (map plugin_name before).

(** Registries as [register_plugin] builds them: each class sits under
    its own name, and the two dictionaries have the same keys. *)
Definition registry_ok (r : PluginRegistry) : Prop :=
  NoDup (sdict_keys (_plugins r)) /\
  (forall n c, In (n, c) (_plugins r) -> plugin_name c = n) /\
  _metadata r = map (fun kc => (fst kc, metadata (snd kc))) (_plugins r).

(** *** [PluginManager] *)

Record PluginManager : Type := mkPluginManager {
  _registry : PluginRegistry;
  _active_plugins : list (string * PluginClass);
  _event_subscriptions : list (string * list PluginClass)
}.

(** The subscription loop of [_load_plugins] for one plugin. *)
Fixpoint subscribe (subs : list (string * list PluginClass))
    (event_types : list string) (p : PluginClass)
  : list (string * list PluginClass) :=
  match event_types with
  | [] => subs
  | t :: ts =>
      let current := match sdict_get subs t with
                     | Some l => l
                     | None => []
                     end in
      subscribe (sdict_set subs t (current ++ [p])%list) ts p
  end.

(** The body of the [for plugin_class in plugins_to_load] loop: a plugin
    that is disabled is skipped; one whose [initialize] raises is skipped
    too (the exception is logged). *)
Definition load_one (self : PluginManager) (p : PluginClass) : PluginManager :=
  if enabled (metadata p) then
    match initialize p with
    | Raise _ => self
    | Return _ =>
        mkPluginManager (_registry self)
                        (sdict_set (_active_plugins self) (plugin_name p) p)
                        (subscribe (_event_subscriptions self)
                                   (handled_event_types p) p)
    end
  else self.

(** [_load_plugins]: the manager afterwards, or the [ValueError] of the
    dependency resolution (raised before anything is loaded). *)
Definition _load_plugins (self : PluginManager)
  : option (PluginManager + list string) :=
  match _resolve_dependencies (_registry self) with
  | None => None
  | Some (CannotResolve names) => Some (inr names)
  | Some (Loaded plugins_to_load) =>
      Some (inl (fold_left load_one plugins_to_load self))
  end.

(** A plugin that [_load_plugins] activates: enabled, and [initialize]
    returns. *)
Definition loads_ok (p : PluginClass) : bool :=
  enabled (metadata p)
  && match initialize p with Return _ => true | Raise _ => false end.

(** [_active_plugins] when the plugins of [l] that load were entered in
    the order of [l]. *)
Definition active_entries (l : list PluginClass)
  : list (string * PluginClass) :=
  map (fun p => (plugin_name p, p)) (filter loads_ok l).

(** [get_active_plugins] *)
Definition get_active_plugins (self : PluginManager) : list PluginMetadata :=
  map metadata (sdict_values (_active_plugins self)).

(** [execute_plugin_method]: the two guards; [Return p] stands for the
    call of the method on the active plugin [p]. *)
Definition execute_plugin_method (self : PluginManager)
    (plugin_name_ method_name : string) : result PluginClass :=
  match sdict_get (_active_plugins self) plugin_name_ with
  | None =>
      Raise (mkExc ValueError
                   ("Plugin " ++ plugin_name_ ++ " not found or not active"))
  | Some p =>
      if negb (existsb (String.eqb method_name) (attribute_names p))
      then Raise (mkExc ValueError
                        ("Plugin " ++ plugin_name_
                         ++ " does not have method " ++ method_name))
      else Return p
  end.

End Plugins.

(** ** Retrying ([Web3ClientImpl._retry_on_failure]) *)

Module Retry.

(** What a run leaves behind: the result ([None] when the loop ends
    without returning), how many times [func] was called, and the sleeps
    made, in seconds. *)
Record Retried (A : Type) : Type := mkRetried {
  retried_result : result (option A);
  retried_calls : nat;
  retried_sleeps : list Z
}.
Arguments mkRetried {A} _ _ _.
Arguments retried_result {A} _.
Arguments retried_calls {A} _.
Arguments retried_sleeps {A} _.

(** [delay * (2 ** attempt)] with [delay] left at its default, the float
    [1.0]: the integer [2 ** attempt] is converted to a float, which
    raises [OverflowError] from [2 ** 1024] on (whatever the float
    [delay] is); below that the product is the power of two itself. *)
Definition wait_time (attempt : nat) : result Z :=
  if 1024 <=? Z.of_nat attempt
  then Raise (mkExc ArithmeticError "int too large to convert to float")
  else Return (2 ^ Z.of_nat attempt).

(** The [for attempt in range(max_retries)] loop with [n] attempts left;
    [func k] is what the [k]-th call of [func] does.  An exception raised
    in the handler, by the computation of [wait_time], leaves the
    function. *)
Fixpoint retry_loop {A : Type} (func : nat -> result A) (max_retries : Z)
    (n attempt : nat) (sleeps : list Z) : Retried A :=
  match n with
  | O => mkRetried (Return None) attempt sleeps
  | S n' =>
      match func attempt with
      | Return v => mkRetried (Return (Some v)) (S attempt) sleeps
      | Raise e =>
          if Z.of_nat attempt =? max_retries - 1
          then mkRetried (Raise e) (S attempt) sleeps
          else
            match wait_time attempt with
            | Raise overflow => mkRetried (Raise overflow) (S attempt) sleeps
            | Return t =>
                retry_loop func max_retries n' (S attempt)
                           (sleeps ++ [t])%list
            end
      end
  end.

(** [_retry_on_failure(func, max_retries)], [delay] being left at its
    default. *)
Definition _retry_on_failure {A : Type} (func : nat -> result A)
    (max_retries : Z) : Retried A :=
  retry_loop func max_retries (Z.to_nat max_retries) 0 [].




End Retry.

(** ** [GasEstimate.total_cost_wei] ([web3_client.py]) *)

Module Port.
Import Web3Client.

Definition total_cost_wei (g : GasEstimate) : Z := gas_limit g * gas_price g.

End Port.

(** ** The wallet route and start-up ([app/main.py]) *)

Module Api.
Import PyDecimal Web3Client.

(** [app.state.web3_client] after [lifespan] has started the
    application: the client when [connect] returned [True], else
    [None]. *)
Definition lifespan (ALCHEMY_API_KEY : string) (network : NetworkType)
    (node : Node) : option Client :=
  let web3_client := init ALCHEMY_API_KEY in
  let '(connected, web3_client) := connect web3_client (Net network) node in
  if connected then Some web3_client else None.

(** What a route gives: the JSON body of a 200 answer (the balance is
    the [Decimal] that the body renders with [str]), or an
    [HTTPException]. *)
Inductive Response : Type :=
  | Balance200 (address : string) (balance : Decimal) (unit_ : string)
  | HTTPException (status_code : Z) (detail : string).

(** [GET /wallet/{address}/balance] *)
Definition get_wallet_balance (web3_client : option Client) (node : Node)
    (address : string) : Response :=
  match web3_client with
  | None => HTTPException 503 "Blockchain not available"
  | Some client =>
      match (wallet_address <- new_WalletAddress address ;;
             get_balance client node wallet_address) with
      | Return balance => Balance200 address balance "ETH"
      | Raise e =>
          match exc_class e with
          | ValueError => HTTPException 400 (exc_msg e)
          | _ => HTTPException 500 "Failed to get wallet balance"
          end
      end
  end.

Definition status_of (r : Response) : Z :=
  match r with
  | Balance200 _ _ _ => 200
  | HTTPException s _ => s
  end.

End Api.

(** ** Validators of the settings ([app/config.py]) *)

Module Config.
Import Str AssetDomain.

(** [validate_private_key] *)
Definition validate_private_key (v : string) : result string :=
  let v := if negb (String.prefix "0x" v) then "0x" ++ v else v in
  if negb (Nat.eqb (String.length v) 66)
  then Raise (mkExc ValueError "Private key must be 64 characters (32 bytes)")
  else Return v.


(** [validate_platform_fee] *)
Definition validate_platform_fee (v : Z) : result Z :=
  if v >? 10000
  then Raise (mkExc ValueError "Platform fee cannot exceed 100%")
  else Return v.

(** [str.split(",")] *)
Fixpoint split_comma (s : string) : list string :=
  match s with
  | EmptyString => [EmptyString]
  | String c s' =>
      if Ascii.eqb c ","%char then EmptyString :: split_comma s'
      else match split_comma s' with
           | piece :: pieces => String c piece :: pieces
           | [] => [String c EmptyString]
           end
  end.

(** What [assemble_cors_origins] is handed and what it returns: a string,
    a list of strings, or something else. *)
Inductive CorsValue : Type :=
  | CorsStr (s : string)
  | CorsList (l : list string)
  | CorsOther.

(** [assemble_cors_origins] *)
Definition assemble_cors_origins (v : CorsValue) : result CorsValue :=
  match v with
  | CorsStr s =>
      if negb (String.prefix "[" s)
      then Return (CorsList (map strip (split_comma s)))
      else Return v
  | CorsList _ => Return v
  | CorsOther =>
      Raise (mkExc ValueError
                   "CORS origins must be a list or comma-separated string")
  end.

Fixpoint count_commas (s : string) : nat :=
  match s with
  | EmptyString => O
  | String c s' => ((if Ascii.eqb c ","%char then 1 else 0) + count_commas s')%nat
  end.

(** [",".join(pieces)] *)
Fixpoint join_comma (pieces : list string) : string :=
  match pieces with
  | [] => EmptyString
  | [p] => p
  | p :: rest => p ++ "," ++ join_comma rest
  end.

(** No white space at either end. *)
Definition trimmed (s : string) : Prop := lstrip s = s /\ rstrip s = s.

End Config.

(** ** Specifications and aggregate roots ([domain/base.py]) *)

Module Specifications.

(** A specification over candidates of type [T]: a concrete subclass,
    given by its [is_satisfied_by] (which may raise), or one of the three
    combinators. *)
Inductive Specification (T : Type) : Type :=
  | Concrete (satisfied : T -> result bool)
  | AndSpecification (lhs rhs : Specification T)
  | OrSpecification (lhs rhs : Specification T)
  | NotSpecification (spec : Specification T).
Arguments Concrete {T} _.
Arguments AndSpecification {T} _ _.
Arguments OrSpecification {T} _ _.
Arguments NotSpecification {T} _.

(** [is_satisfied_by]: [and] and [or] evaluate their right operand only
    when the left one did not decide. *)
Fixpoint is_satisfied_by {T : Type} (self : Specification T) (candidate : T)
  : result bool :=
  match self with
  | Concrete satisfied => satisfied candidate
  | AndSpecification lhs rhs =>
      l <- is_satisfied_by lhs candidate ;;
      if l then is_satisfied_by rhs candidate else Return false
  | OrSpecification lhs rhs =>
      l <- is_satisfied_by lhs candidate ;;
      if l then Return true else is_satisfied_by rhs candidate
  | NotSpecification spec =>
      b <- is_satisfied_by spec candidate ;;
      Return (negb b)
  end.

Definition and_ {T : Type} (self other : Specification T) : Specification T :=
  AndSpecification self other.
Definition or_ {T : Type} (self other : Specification T) : Specification T :=
  OrSpecification self other.
Definition not_ {T : Type} (self : Specification T) : Specification T :=
  NotSpecification self.

End Specifications.

Module Aggregate.

(** [AggregateRoot]: identifiers and events are kept abstract, time is a
    clock reading. *)
Record AggregateRoot (Id Event : Type) : Type := mkAggregateRoot {
  _id : Id;
  _version : Z;
  _created_at : Z;
  _updated_at : Z;
  _domain_events : list Event
}.
Arguments mkAggregateRoot {Id Event} _ _ _ _ _.
Arguments _id {Id Event} _.
Arguments _version {Id Event} _.
Arguments _created_at {Id Event} _.
Arguments _updated_at {Id Event} _.
Arguments _domain_events {Id Event} _.

Section Methods.
Context {Id Event : Type}.

(** [__init__], at clock reading [utcnow]. *)
Definition new_AggregateRoot (entity_id : Id) (utcnow : Z)
  : AggregateRoot Id Event :=
  mkAggregateRoot entity_id 1 utcnow utcnow [].

(** [get_domain_events]: the events returned and the aggregate after. *)
Definition get_domain_events (self : AggregateRoot Id Event)
  : list Event * AggregateRoot Id Event :=
  (_domain_events self,
   mkAggregateRoot (_id self) (_version self) (_created_at self)
                   (_updated_at self) []).

(** [mark_as_modified], at clock reading [utcnow]. *)
Definition mark_as_modified (self : AggregateRoot Id Event) (utcnow : Z)
  : AggregateRoot Id Event :=
  mkAggregateRoot (_id self) (_version self + 1) (_created_at self)
                  utcnow (_domain_events self).

(** [_add_domain_event] *)
Definition _add_domain_event (self : AggregateRoot Id Event) (event : Event)
  : AggregateRoot Id Event :=
  mkAggregateRoot (_id self) (_version self) (_created_at self)
                  (_updated_at self) (_domain_events self ++ [event])%list.

(** A use of the aggregate. *)
Inductive Use : Type :=
  | GetDomainEvents
  | MarkAsModified (utcnow : Z)
  | AddDomainEvent (event : Event).

(** A run of uses: the batches that the calls of [get_domain_events]
    returned, in order, and the aggregate at the end. *)
Fixpoint uses (self : AggregateRoot Id Event) (us : list Use)
  : list (list Event) * AggregateRoot Id Event :=
  match us with
  | [] => ([], self)
  | GetDomainEvents :: us' =>
      let '(events, self') := get_domain_events self in
      let '(batches, final) := uses self' us' in
      (events :: batches, final)
  | MarkAsModified t :: us' => uses (mark_as_modified self t) us'
  | AddDomainEvent e :: us' => uses (_add_domain_event self e) us'
  end.

(** The events added by a run, and the number of modifications in it. *)
Fixpoint added (us : list Use) : list Event :=
  match us with
  | [] => []
  | AddDomainEvent e :: us' => e :: added us'
  | _ :: us' => added us'
  end.

Fixpoint modifications (us : list Use) : Z :=
  match us with
  | [] => 0
  | MarkAsModified _ :: us' => 1 + modifications us'
  | _ :: us' => modifications us'
  end.

End Methods.

End Aggregate.

(** ** Concrete inputs used by the examples below *)

Module Examples.
Import Str PyDecimal Units Web3Client.

(** Forty times the letter z after [0x]: the right length, no hex digit. *)
Definition not_hex_address : string := "0x" ++ repeat_char "z" 40.
Definition not_hex_hash : string := "0x" ++ repeat_char "z" 64.

(** The same address written in capitals and in lower case. *)
Definition upper_case_address : string := "0x" ++ repeat_char "A" 40.
Definition lower_case_address : string := "0x" ++ repeat_char "a" 40.

(** A node that answers every call; [send] and [receipt] are the answers
    to the broadcast and to the receipt lookup. *)
Definition example_hash : string := "0x" ++ repeat_char "a" 64.
Definition minter_address : string := "0x" ++ repeat_char "1" 40.
Definition recipient_address : string := "0x" ++ repeat_char "2" 40.
Definition nft_contract_address : string := "0x" ++ repeat_char "3" 40.

Definition node_answering (send : string -> result string)
    (receipt : string -> result RawReceipt) : Node :=
  mkNode (fun _ => Return true)
         (Return (mkBlock 100 1700000000))
         (Return 20)
         (Return 100)
         (fun _ => Return 0)
         (fun _ _ _ => Return 21000)
         (fun _ => Return 5)
         (fun _ _ => Return (mkSignedTxn "0xf86c"))
         send
         receipt
         (fun _ _ => Return tt)
         (fun _ _ => Return 0)
         (fun _ => Return 18%N)
         (fun _ => Return (10 ^ 16))
         (fun _ t => Return t)
         (fun _ => Return minter_address)
         (fun _ => Some (Return "[]")).

Definition no_receipt : string -> result RawReceipt :=
  fun _ => Raise (mkExc NodeError "Transaction not found").

(** The node accepts the broadcast; no receipt exists yet. *)
Definition accepting_node : Node :=
  node_answering (fun _ => Return example_hash) no_receipt.

(** The node refuses the broadcast. *)
Definition rejecting_node : Node :=
  node_answering (fun _ => Raise (mkExc NodeError "nonce too low")) no_receipt.

(** Polling a node that never has the receipt, each lookup taking no
    time. *)
Definition silent_polls : Polls := mkPolls (fun _ => accepting_node) (fun _ => 0).

(** A receipt for [example_hash] whose only log carries token id 7 as its
    third topic. *)
Definition receipt_with_token_7 : RawReceipt :=
  mkRawReceipt 1 1200 250000 None
    [LogMapping (mkLog nft_contract_address [0; 0; 7] [])].

(** The receipt shows up at the third lookup. *)
Definition third_poll_has_receipt : Polls :=
  mkPolls (fun k => if Nat.ltb k 2 then accepting_node
                    else node_answering (fun _ => Return example_hash)
                                        (fun _ => Return receipt_with_token_7))
          (fun _ => 0).

(** The metadata of the specification's mint scenario. *)
Definition sunset : NFTMetadata :=
  mkNFTMetadata "Sunset" "" "ipfs://image" "ipfs://metadata" 500.

(** A fresh client, and the client after [connect(LOCALHOST)] succeeded. *)
Definition fresh_client : Client := init "key".
Definition connected_client : Client :=
  snd (connect fresh_client (Net LOCALHOST) accepting_node).

End Examples.

Module MoreExamples.
Import Str PyDecimal Units Web3Client Examples.

(** A node that reports itself up or down and holds [balance] wei on
    every address. *)
Definition node_holding (up : bool) (balance : Z) : Node :=
  mkNode (fun _ => Return up)
         (Return (mkBlock 100 1700000000))
         (Return 20)
         (Return 100)
         (fun _ => Return balance)
         (fun _ _ _ => Return 21000)
         (fun _ => Return 5)
         (fun _ _ => Return (mkSignedTxn "0xf86c"))
         (fun _ => Return example_hash)
         no_receipt
         (fun _ _ => Return tt)
         (fun _ _ => Return 0)
         (fun _ => Return 18%N)
         (fun _ => Return (10 ^ 16))
         (fun _ t => Return t)
         (fun _ => Return minter_address)
         (fun _ => Some (Return "[]")).

(** A receipt of a transaction that reverted on chain. *)
Definition reverted_receipt : RawReceipt :=
  mkRawReceipt 0 1200 250000 None [].

(** The first lookup already finds the reverted receipt. *)
Definition reverted_at_once : Polls :=
  mkPolls (fun _ => node_answering (fun _ => Return example_hash)
                                   (fun _ => Return reverted_receipt))
          (fun _ => 0).


Definition never_works (k : nat) : result Z :=
  Raise (mkExc NodeError
               (match k with
                | 0%nat => "first"
                | 1%nat => "second"
                | _ => "third"
                end)).

End MoreExamples.

Module PluginExamples.
Import Plugins.

(** The two plugins of [plugin_manager.py]. *)
Definition ERC20TokenHandler : PluginClass :=
  mkPluginClass
    (mkPluginMetadata "erc20_handler" "1.0.0" "Handles ERC20 token operations"
                      "Platform Team" TOKEN_HANDLER [] true)
    (Return tt) []
    ["metadata"; "initialize"; "shutdown"; "on_event";
     "can_handle_token_type"; "mint_token"; "transfer_token"].

Definition StripePaymentProcessor : PluginClass :=
  mkPluginClass
    (mkPluginMetadata "stripe_payments" "1.0.0"
                      "Stripe payment processing integration"
                      "Platform Team" PAYMENT_PROCESSOR [] true)
    (Return tt) []
    ["metadata"; "initialize"; "shutdown"; "on_event";
     "process_payment"; "get_supported_currencies"].

(** A plugin that needs both of them, one that is switched off, and one
    that needs the one switched off. *)
Definition checkout : PluginClass :=
  mkPluginClass
    (mkPluginMetadata "checkout" "0.1" "" "" INTEGRATION_SERVICE
                      ["stripe_payments"; "erc20_handler"] true)
    (Return tt) ["asset_sold"] ["metadata"; "initialize"; "shutdown"; "on_event"].

Definition audit_off : PluginClass :=
  mkPluginClass
    (mkPluginMetadata "audit" "0.1" "" "" ANALYTICS_SERVICE [] false)
    (Return tt) [] ["metadata"; "initialize"; "shutdown"; "on_event"].

Definition report : PluginClass :=
  mkPluginClass
    (mkPluginMetadata "report" "0.1" "" "" ANALYTICS_SERVICE ["audit"] true)
    (Return tt) [] ["metadata"; "initialize"; "shutdown"; "on_event"].

Definition registry_of (l : list PluginClass) : PluginRegistry :=
  mkPluginRegistry (map (fun c => (plugin_name c, c)) l)
                   (map (fun c => (plugin_name c, metadata c)) l).

(** Registered in the order checkout, report, stripe, audit, erc20. *)
Definition five_plugins : PluginRegistry :=
  registry_of [checkout; report; StripePaymentProcessor; audit_off;
               ERC20TokenHandler].

(** [report] without the plugin it depends on. *)
Definition report_alone : PluginRegistry := registry_of [report].

End PluginExamples.

Module AssetExamples.
Import Str PyDecimal AssetDomain.

Definition creator_mixed_case : string := "0x" ++ repeat_char "A" 40.
Definition the_contract : string := "0x" ++ repeat_char "C" 40.

Definition artwork : AssetMetadata :=
  mkAssetMetadata "Sunset" "A sunset" (mkIPFSHash "QmImage")
                  (mkIPFSHash "QmMeta") [] [].

Definition five_percent : Decimal := mkDec false 5 0.

Definition creator_royalty : RoyaltyInfo :=
  mkRoyaltyInfo creator_mixed_case five_percent.

(** [Asset(...)] for the values above, created at time 10. *)
Definition new_artwork : Asset :=
  mkAsset (mkAssetId "asset-1") (lower creator_mixed_case) artwork
          creator_royalty 10 DRAFT PENDING None None None 0 10 [].

Definition a_c2pa_hash : C2PAHash := mkC2PAHash ("0x" ++ repeat_char "f" 64).

(** Verification, then a mint whose first completion is given a malformed
    address and whose second one succeeds, then a listing. *)
Definition minting_calls : list Call :=
  [ StartVerification 11 12;
    Verify a_c2pa_hash "0xverifier" 13 14;
    StartMinting 15 16;
    CompleteMinting 7 "not an address" 17 18;
    CompleteMinting 7 the_contract 19 20 ].

End AssetExamples.

(** * Properties *)

Import Str PyDecimal Units Web3Client PyFloat Domain Examples.

(** Split a goal along its conjunctions, and nothing else. *)
Ltac split_conj := repeat match goal with |- _ /\ _ => split end.

(** ** Construction of addresses and hashes *)

Section Construction.

Lemma prefix_0x_iff (s : string) :
  String.prefix "0x" s = true <-> exists t, s = "0x" ++ t.
Proof.
  split.
  - destruct s as [|a [|b t]]; cbn [String.prefix]; try discriminate.
    + destruct (ascii_dec "0" a); discriminate.
    + destruct (ascii_dec "0" a) as [<-|]; [|discriminate].
      destruct (ascii_dec "x" b) as [<-|]; [|discriminate].
      intros _. now exists t.
  - intros [t ->]. cbn [String.prefix String.append].
    destruct (ascii_dec "0" "0"); [|congruence].
    destruct (ascii_dec "x" "x"); [|congruence].
    now destruct t.
Qed.

Lemma bad_format_false_iff (n : nat) (s : string) :
  bad_format (S (S n)) s = false <-> is_0x_len n s.
Proof.
  unfold bad_format, is_0x_len.
  rewrite orb_false_iff, !negb_false_iff, Nat.eqb_eq, prefix_0x_iff.
  split.
  - intros [[t ->] Hlen]. exists t. split; [reflexivity|].
    simpl in Hlen. now injection Hlen.
  - intros [t [-> Hlen]]. split; [now exists t|]. simpl. now rewrite Hlen.
Qed.

Lemma new_WalletAddress_Return (s : string) (a : WalletAddress) :
  new_WalletAddress s = Return a -> a = mkWalletAddress s /\ is_0x_len 40 s.
Proof.
  unfold new_WalletAddress.
  destruct (bad_format 42 s) eqn:E; [discriminate|].
  intros [= <-]. split; [reflexivity|]. now apply bad_format_false_iff.
Qed.

Lemma new_ContractAddress_Return (s : string) (a : ContractAddress) :
  new_ContractAddress s = Return a -> a = mkContractAddress s /\ is_0x_len 40 s.
Proof.
  unfold new_ContractAddress.
  destruct (bad_format 42 s) eqn:E; [discriminate|].
  intros [= <-]. split; [reflexivity|]. now apply bad_format_false_iff.
Qed.

Lemma new_TransactionHash_Return (s : string) (h : TransactionHash) :
  new_TransactionHash s = Return h -> h = mkTransactionHash s /\ is_0x_len 64 s.
Proof.
  unfold new_TransactionHash.
  destruct (bad_format 66 s) eqn:E; [discriminate|].
  intros [= <-]. split; [reflexivity|]. now apply bad_format_false_iff.
Qed.

(** C7, as stated, fails: a string of the right prefix and length whose
    other characters are not hexadecimal is accepted, as an address and as
    a transaction hash. *)
Lemma non_hex_strings_are_accepted :
  ~ is_0x_hex 40 not_hex_address /\
  new_WalletAddress not_hex_address = Return (mkWalletAddress not_hex_address) /\
  new_ContractAddress not_hex_address
    = Return (mkContractAddress not_hex_address) /\
  new_Address not_hex_address = Return (mkAddress not_hex_address) /\
  ~ is_0x_hex 64 not_hex_hash /\
  new_TransactionHash not_hex_hash = Return (mkTransactionHash not_hex_hash).
Proof.
  repeat split; try reflexivity.
  - intros [h [Heq [_ Hhex]]].
    unfold not_hex_address in Heq. simpl in Heq.
    injection Heq as <-. discriminate Hhex.
  - intros [h [Heq [_ Hhex]]].
    unfold not_hex_hash in Heq. simpl in Heq.
    injection Heq as <-. discriminate Hhex.
Qed.

(** C7, amended: construction succeeds exactly for the strings that start
    with [0x] and have the required total length (42 for the three address
    classes, 66 for a transaction hash), storing the string as given, and
    raises [ValueError] for every other string; the characters after the
    prefix are not inspected. *)
Theorem construction_checks_prefix_and_length (s : string) :
  (is_0x_len 40 s -> new_WalletAddress s = Return (mkWalletAddress s)) /\
  (is_0x_len 40 s -> new_ContractAddress s = Return (mkContractAddress s)) /\
  (is_0x_len 40 s -> new_Address s = Return (mkAddress s)) /\
  (is_0x_len 64 s -> new_TransactionHash s = Return (mkTransactionHash s)) /\
  (~ is_0x_len 40 s ->
     raised_class (new_WalletAddress s) = Some ValueError /\
     raised_class (new_ContractAddress s) = Some ValueError /\
     raised_class (new_Address s) = Some ValueError) /\
  (~ is_0x_len 64 s ->
     raised_class (new_TransactionHash s) = Some ValueError).
Proof.
  unfold new_WalletAddress, new_ContractAddress, new_Address,
    new_TransactionHash.
  pose proof (bad_format_false_iff 40 s) as H40.
  pose proof (bad_format_false_iff 64 s) as H64.
  destruct (bad_format 42 s); destruct (bad_format 66 s).
  all: repeat match goal with |- _ /\ _ => split end.
  all: try (intros _; repeat split; reflexivity).
  all: try (intros Hx; apply H40 in Hx; discriminate).
  all: try (intros Hx; apply H64 in Hx; discriminate).
  all: try (intros Hn; exfalso; apply Hn; apply H40; reflexivity).
  all: try (intros Hn; exfalso; apply Hn; apply H64; reflexivity).
Qed.

End Construction.

(** ** Case of stored addresses *)

Section Canonical_form.

Lemma lower_char_idempotent (c : ascii) :
  lower_char (lower_char c) = lower_char c.
Proof. destruct c as [[] [] [] [] [] [] [] []]; reflexivity. Qed.

Lemma lower_idempotent (s : string) : lower (lower s) = lower s.
Proof.
  induction s as [|c s IH]; simpl; [reflexivity|].
  now rewrite lower_char_idempotent, IH.
Qed.

(** C6, as stated, fails: the address written in capitals is stored in
    capitals, differs from its lower-case form, and the two objects built
    from the two spellings have different stored values and are unequal;
    the same holds for contract addresses. *)
Lemma upper_case_address_is_stored_as_given :
  lower upper_case_address = lower_case_address /\
  new_WalletAddress upper_case_address
    = Return (mkWalletAddress upper_case_address) /\
  new_WalletAddress lower_case_address
    = Return (mkWalletAddress lower_case_address) /\
  wa_value (mkWalletAddress upper_case_address)
    <> lower (wa_value (mkWalletAddress upper_case_address)) /\
  wa_value (mkWalletAddress upper_case_address)
    <> wa_value (mkWalletAddress lower_case_address) /\
  WalletAddress_eq (mkWalletAddress upper_case_address)
                   (mkWalletAddress lower_case_address) = false /\
  new_ContractAddress upper_case_address
    = Return (mkContractAddress upper_case_address) /\
  new_ContractAddress lower_case_address
    = Return (mkContractAddress lower_case_address) /\
  ContractAddress_eq (mkContractAddress upper_case_address)
                     (mkContractAddress lower_case_address) = false.
Proof. repeat split; try reflexivity; discriminate. Qed.

(** C6, amended: an accepted wallet or contract address object stores the
    string exactly as it was given, and two objects are equal exactly when
    the given strings are equal character for character.  Lower case is
    produced only by the string rendering of a wallet address, which is
    the lower-case form of the stored value (so two spellings of one
    address render alike); a contract address renders as stored. *)
Theorem address_is_stored_as_given
    (s1 s2 : string) (a1 a2 : WalletAddress) (c1 c2 : ContractAddress)
    (Ha1 : new_WalletAddress s1 = Return a1)
    (Ha2 : new_WalletAddress s2 = Return a2)
    (Hc1 : new_ContractAddress s1 = Return c1)
    (Hc2 : new_ContractAddress s2 = Return c2) :
  wa_value a1 = s1 /\ ca_value c1 = s1 /\
  (WalletAddress_eq a1 a2 = true <-> s1 = s2) /\
  (ContractAddress_eq c1 c2 = true <-> s1 = s2) /\
  WalletAddress_str a1 = lower s1 /\
  lower (WalletAddress_str a1) = WalletAddress_str a1 /\
  (lower s1 = lower s2 -> WalletAddress_str a1 = WalletAddress_str a2) /\
  ContractAddress_str c1 = s1.
Proof.
  apply new_WalletAddress_Return in Ha1 as [-> _].
  apply new_WalletAddress_Return in Ha2 as [-> _].
  apply new_ContractAddress_Return in Hc1 as [-> _].
  apply new_ContractAddress_Return in Hc2 as [-> _].
  unfold WalletAddress_eq, ContractAddress_eq, WalletAddress_str,
    ContractAddress_str; simpl.
  rewrite String.eqb_eq.
  repeat split; auto using lower_idempotent.
Qed.

Lemma address_is_stored_as_given_witness :
  wa_value (mkWalletAddress upper_case_address) = upper_case_address /\
  WalletAddress_str (mkWalletAddress upper_case_address)
    = WalletAddress_str (mkWalletAddress lower_case_address).
Proof.
  pose proof (address_is_stored_as_given
                upper_case_address lower_case_address
                (mkWalletAddress upper_case_address)
                (mkWalletAddress lower_case_address)
                (mkContractAddress upper_case_address)
                (mkContractAddress lower_case_address)
                eq_refl eq_refl eq_refl eq_refl) as H.
  destruct H as (H1 & _ & _ & _ & _ & _ & H7 & _).
  split; [exact H1 | apply H7; reflexivity].
Defined.

End Canonical_form.

(** ** Connection *)

Section Connection.

Lemma NetworkType_of_value_value (n : NetworkType) :
  NetworkType_of_value (NetworkType_value n) = Some n.
Proof. destruct n; reflexivity. Qed.

Lemma NetworkType_of_value_Some (s : string) (n : NetworkType) :
  NetworkType_of_value s = Some n -> s = NetworkType_value n.
Proof.
  unfold NetworkType_of_value.
  repeat match goal with
         | |- context [String.eqb s ?x] => destruct (String.eqb_spec s x)
         end;
    intros [= <-]; assumption.
Qed.

(** C10: [connect] always returns a boolean.  It returns [True] exactly
    when the argument is equal to a configured member of [NetworkType]
    (it is that member, or a string that spells its value) whose
    endpoint answers the liveness test; [network] then holds the
    argument and [chain_id] the chain id configured for that member.
    When it returns [False], [network] and [chain_id] are what they were
    before the call. *)
Theorem connect_sets_network_only_on_success
    (self : Client) (arg : NetworkArg) (node : Node) :
  let ok := fst (connect self arg node) in
  let self' := snd (connect self arg node) in
  (ok = true <->
   exists n c,
     as_member arg = Some n /\
     dict_get (network_configs self) n = Some c /\
     node_is_connected node (mkWeb3 (cfg_rpc_url c) (needs_poa n))
       = Return true) /\
  (ok = true ->
   exists n c,
     (arg = Net n \/ arg = PlainStr (NetworkType_value n)) /\
     dict_get (network_configs self) n = Some c /\
     network self' = Some arg /\
     chain_id self' = Some (cfg_chain_id c)) /\
  (ok = false ->
   network self' = network self /\
   chain_id self' = chain_id self).
Proof.
  cbv zeta. unfold connect, config_lookup.
  assert (Harg : forall n, as_member arg = Some n ->
                 arg = Net n \/ arg = PlainStr (NetworkType_value n)).
  { intros n. destruct arg as [m|s|r]; cbn.
    - intros [= ->]. now left.
    - intros H. apply NetworkType_of_value_Some in H as ->. now right.
    - discriminate. }
  destruct (as_member arg) as [n|] eqn:Hn.
  2:{ cbn. split_conj; [split; [discriminate|]|discriminate|auto].
      intros (n & c & H & _). discriminate. }
  destruct (dict_get (network_configs self) n) as [c|] eqn:Hc.
  2:{ cbn. split_conj; [split; [discriminate|]|discriminate|auto].
      intros (n' & c' & [= <-] & H & _). congruence. }
  cbn [bind].
  destruct (node_is_connected node (mkWeb3 (cfg_rpc_url c) (needs_poa n)))
    as [[|]|e] eqn:Hp; cbn.
  - split_conj.
    + split; [intros _; exists n, c; auto|reflexivity].
    + intros _. exists n, c. auto.
    + discriminate.
  - split_conj; [split; [discriminate|]|discriminate|auto].
    intros (n' & c' & [= <-] & H & Hp'). congruence.
  - split_conj; [split; [discriminate|]|discriminate|auto].
    intros (n' & c' & [= <-] & H & Hp'). congruence.
Qed.

(** A string that spells the value of a configured network connects as
    the member does, and it is the string that [network] then holds; a
    string that spells no member's value and an object of another kind
    leave the client as it was. *)
Lemma connect_failure_cases (self : Client) (node : Node) :
  (forall r, connect self (OtherObject r) node = (false, self)) /\
  (forall s, NetworkType_of_value s = None ->
             connect self (PlainStr s) node = (false, self)) /\
  (forall n,
     fst (connect self (PlainStr (NetworkType_value n)) node)
     = fst (connect self (Net n) node)) /\
  (forall n c,
     dict_get (network_configs self) n = Some c ->
     node_is_connected node (mkWeb3 (cfg_rpc_url c) (needs_poa n))
       <> Return true ->
     fst (connect self (Net n) node) = false).
Proof.
  split_conj.
  - reflexivity.
  - intros s Hs. unfold connect, config_lookup. cbn. now rewrite Hs.
  - intros n. unfold connect, config_lookup. cbn [as_member].
    rewrite NetworkType_of_value_value.
    destruct (dict_get (network_configs self) n); [|reflexivity].
    cbn [bind].
    destruct (node_is_connected node _) as [[|]|e]; reflexivity.
  - intros n c Hc Hp. unfold connect, config_lookup. cbn [as_member].
    rewrite Hc. cbn [bind].
    destruct (node_is_connected node (mkWeb3 (cfg_rpc_url c) (needs_poa n)))
      as [[|]|e]; cbn; congruence.
Qed.

(** [connect("mainnet")] on a fresh client whose node answers: [True],
    and [network] is the string. *)
Example connect_with_a_string (key : string) :
  connect (init key) (PlainStr "mainnet") accepting_node
  = (true,
     mkClient (Some (mkWeb3 ("https://eth-mainnet.g.alchemy.com/v2/" ++ key)
                            false))
              (Some (PlainStr "mainnet")) (Some 1)
              (network_configs (init key))).
Proof. reflexivity. Qed.

Lemma init_is_not_connected (key : string) (node : Node) :
  is_connected (init key) node = Return false.
Proof. reflexivity. Qed.

End Connection.

(** ** The connection guard *)

Section Guard.

Lemma require_connected_fresh (self : Client) (node : Node) :
  w3 self = None ->
  require_connected self node
  = Raise (mkExc NetworkNotConnectedError "Not connected to any network").
Proof. intros H. unfold require_connected, is_connected. now rewrite H. Qed.

Lemma require_connected_ok (self : Client) (node : Node) :
  is_connected self node = Return true ->
  require_connected self node = Return tt /\ exists w, w3 self = Some w.
Proof.
  intros H. unfold require_connected. rewrite H. split; [reflexivity|].
  unfold is_connected in H. destruct (w3 self) as [w|]; [now exists w|].
  discriminate.
Qed.

(** C5 on the code: on a client that was never connected, the guarded
    methods raise [NetworkNotConnectedError], but [get_token_balance] has
    no guard: it raises [Web3ClientError] when the ABI file is missing,
    whatever reading the file raises when that fails, and otherwise
    [AttributeError] from dereferencing [self.w3], which is still
    [None]. *)
Theorem get_token_balance_is_not_guarded
    (key : string) (node : Node)
    (address to : WalletAddress) (token_contract : ContractAddress)
    (tx_hash : TransactionHash) (amount : Decimal) (data pk : string)
    (v : Z) (gl gp : option Z) :
  let self := init key in
  raised_class (get_network_info self node) = Some NetworkNotConnectedError /\
  raised_class (get_latest_block_number self node)
    = Some NetworkNotConnectedError /\
  raised_class (get_balance self node address)
    = Some NetworkNotConnectedError /\
  raised_class (estimate_gas self node to data v)
    = Some NetworkNotConnectedError /\
  raised_class (send_transaction self node address to amount pk gl gp)
    = Some NetworkNotConnectedError /\
  raised_class (get_transaction_receipt self node tx_hash)
    = Some NetworkNotConnectedError /\
  get_token_balance self node address token_contract
  = match node_abi_file node "ERC20" with
    | None => Raise (mkExc Web3ClientError "ABI file not found: ERC20.json")
    | Some (Raise e) => Raise e
    | Some (Return _) =>
        Raise (mkExc AttributeError "'NoneType' object has no attribute 'eth'")
    end.
Proof.
  cbv zeta.
  repeat split; try reflexivity.
  unfold get_token_balance, _load_contract_abi.
  destruct (node_abi_file node "ERC20") as [[abi|e]|]; reflexivity.
Qed.

(** The same at one input: a fresh client and a node whose ABI files
    exist. *)
Example get_token_balance_on_fresh_client :
  get_token_balance fresh_client accepting_node
    (mkWalletAddress recipient_address) (mkContractAddress nft_contract_address)
  = Raise (mkExc AttributeError "'NoneType' object has no attribute 'eth'").
Proof. reflexivity. Qed.

End Guard.

(** ** Receipts *)

Section Receipts.

Lemma convert_logs_Return (l : list RawLog) (ls : list Log) :
  convert_logs l = Return ls <-> l = map LogMapping ls.
Proof.
  revert ls. induction l as [|x l IH]; intros ls; simpl.
  - split.
    + intros [= <-]. reflexivity.
    + destruct ls; [reflexivity|discriminate].
  - destruct x as [x|].
    + destruct (convert_logs l) as [xs|e] eqn:E; cbn [bind].
      * split.
        -- intros [= <-]. simpl. f_equal. now apply IH.
        -- destruct ls as [|y ls]; [discriminate|]. simpl. intros [= -> Hl].
           apply IH in Hl. now injection Hl as ->.
      * split; [discriminate|].
        destruct ls as [|y ls]; [discriminate|]. simpl. intros [= -> Hl].
        apply IH in Hl. discriminate.
    + split; [discriminate|]. destruct ls; discriminate.
Qed.

Lemma convert_logs_malformed (l : list RawLog) :
  In LogMalformed l -> exists e, convert_logs l = Raise e.
Proof.
  induction l as [|x l IH]; simpl; [tauto|].
  intros [->|H]; [eauto|].
  destruct x; [|eauto].
  destruct (IH H) as [e ->]. cbn [bind]. eauto.
Qed.

(** C9: once connected, [get_transaction_receipt] never raises.  It
    returns [None] whenever the lookup raises, whenever the contract
    address of the receipt is malformed and whenever a log entry cannot be
    converted; otherwise it returns a receipt for the hash asked, whose
    status is [CONFIRMED] exactly when the on-chain status is 1 and
    [FAILED] otherwise. *)
Theorem get_transaction_receipt_maps_errors_to_None
    (self : Client) (node : Node) (tx_hash : TransactionHash)
    (Hconn : is_connected self node = Return true) :
  (exists o, get_transaction_receipt self node tx_hash = Return o) /\
  (forall e,
     node_get_transaction_receipt node (th_value tx_hash) = Raise e ->
     get_transaction_receipt self node tx_hash = Return None) /\
  (forall r,
     node_get_transaction_receipt node (th_value tx_hash) = Return r ->
     ((exists e, convert_contract_address (raw_contractAddress r) = Raise e)
      \/ In LogMalformed (raw_logs r)) ->
     get_transaction_receipt self node tx_hash = Return None) /\
  (forall r rc,
     node_get_transaction_receipt node (th_value tx_hash) = Return r ->
     get_transaction_receipt self node tx_hash = Return (Some rc) ->
     transaction_hash rc = tx_hash /\
     block_number rc = raw_blockNumber r /\
     gas_used rc = raw_gasUsed r /\
     raw_logs r = map LogMapping (logs rc) /\
     (status rc = CONFIRMED <-> raw_status r = 1) /\
     (status rc = FAILED <-> raw_status r <> 1)) /\
  (forall r ca ls,
     node_get_transaction_receipt node (th_value tx_hash) = Return r ->
     convert_contract_address (raw_contractAddress r) = Return ca ->
     raw_logs r = map LogMapping ls ->
     exists rc, get_transaction_receipt self node tx_hash = Return (Some rc)).
Proof.
  destruct (require_connected_ok self node Hconn) as [Hg [w Hw]].
  unfold get_transaction_receipt, the_w3. rewrite Hg, Hw. cbn [bind].
  destruct (node_get_transaction_receipt node (th_value tx_hash))
    as [r|e0] eqn:Hr; cbn [bind try_except].
  - destruct (convert_contract_address (raw_contractAddress r))
      as [ca|e1] eqn:Hca; cbn [bind try_except].
    + destruct (convert_logs (raw_logs r)) as [ls|e2] eqn:Hls;
        cbn [bind try_except]; split_conj; eauto; try discriminate.
      * intros r' [= <-] [[e He]|Hin]; [rewrite Hca in He; discriminate|].
        apply convert_logs_malformed in Hin as [e He]. congruence.
      * intros r' rc [= <-] [= <-]. cbn.
        apply convert_logs_Return in Hls.
        split_conj; auto;
          destruct (Z.eqb_spec (raw_status r) 1); split; intros; congruence.
      * intros r' ca' ls' [= <-] _ Hl. apply convert_logs_Return in Hl.
        congruence.
    + split_conj; eauto; try discriminate.
      intros r' ca' ls' [= <-] Hc _. rewrite Hca in Hc. discriminate.
  - split_conj; eauto; try discriminate.
Qed.

Lemma get_transaction_receipt_maps_errors_to_None_witness :
  get_transaction_receipt connected_client accepting_node
    (mkTransactionHash example_hash) = Return None.
Proof.
  destruct (get_transaction_receipt_maps_errors_to_None
              connected_client accepting_node
              (mkTransactionHash example_hash) eq_refl)
    as (_ & H & _).
  apply (H (mkExc NodeError "Transaction not found")). reflexivity.
Defined.

End Receipts.

(** ** Submission *)

Section Submission.

(** C4, as stated, fails: a broadcast that the node refuses ("nonce too
    low") surfaces from [send_transaction] as a [TransactionFailedError],
    the one class the adapter has for a failed transaction. *)
Lemma rejected_broadcast_raises_TransactionFailedError :
  is_connected connected_client rejecting_node = Return true /\
  node_send_raw_transaction rejecting_node "0xf86c"
    = Raise (mkExc NodeError "nonce too low") /\
  send_transaction connected_client rejecting_node
    (mkWalletAddress minter_address) (mkWalletAddress recipient_address)
    (of_int 1) "key" None None
  = Raise (mkExc TransactionFailedError "Transaction failed: nonce too low").
Proof. repeat split. Qed.

(** C4, amended: once connected, every failure of [send_transaction] is a
    [TransactionFailedError]; in particular, when the nonce, the gas
    price, the conversion to wei and the signature succeed and the node
    refuses the broadcast with an exception [e], the error raised is
    [TransactionFailedError] with the message ["Transaction failed: "]
    followed by [str(e)].  No class of its own marks a refused
    broadcast. *)
Theorem send_transaction_failure_is_TransactionFailedError
    (self : Client) (node : Node) (from_address to_address : WalletAddress)
    (value : Decimal) (private_key : string) (gas_limit gas_price : option Z)
    (Hconn : is_connected self node = Return true) :
  (forall e,
     send_transaction self node from_address to_address value private_key
                      gas_limit gas_price = Raise e ->
     exc_class e = TransactionFailedError) /\
  (forall nonce gp value_wei signed_txn e,
     node_get_transaction_count node (wa_value from_address) = Return nonce ->
     match gas_price with
     | Some g => Return g
     | None => node_gas_price node
     end = Return gp ->
     ether_to_wei value = Return value_wei ->
     node_sign_transaction node
       (mkTxn (wa_value to_address) value_wei (gas_or_default gas_limit)
              gp nonce (chain_id self)) private_key = Return signed_txn ->
     node_send_raw_transaction node (rawTransaction signed_txn) = Raise e ->
     send_transaction self node from_address to_address value private_key
                      gas_limit gas_price
     = Raise (mkExc TransactionFailedError
                    ("Transaction failed: " ++ exc_msg e))).
Proof.
  destruct (require_connected_ok self node Hconn) as [Hg [w Hw]].
  unfold send_transaction, the_w3. rewrite Hg, Hw. cbn [bind].
  split.
  - intros e. unfold try_except.
    match goal with |- match ?b with _ => _ end = _ -> _ => destruct b end.
    + discriminate.
    + intros [= <-]. reflexivity.
  - intros nonce gp value_wei signed_txn e Hn Hgp Hv Hs Hb.
    rewrite Hn. cbn [bind]. rewrite Hgp. cbn [bind]. rewrite Hv. cbn [bind].
    rewrite Hs. cbn [bind]. rewrite Hb. reflexivity.
Qed.

Lemma send_transaction_failure_is_TransactionFailedError_witness :
  send_transaction connected_client rejecting_node
    (mkWalletAddress minter_address) (mkWalletAddress recipient_address)
    (of_int 1) "key" None None
  = Raise (mkExc TransactionFailedError "Transaction failed: nonce too low").
Proof.
  refine (proj2 (send_transaction_failure_is_TransactionFailedError
                   connected_client rejecting_node
                   (mkWalletAddress minter_address)
                   (mkWalletAddress recipient_address)
                   (of_int 1) "key" None None eq_refl)
                5 20 (10 ^ 18) (mkSignedTxn "0xf86c")
                (mkExc NodeError "nonce too low") _ _ _ _ _);
    reflexivity.
Defined.

End Submission.

(** ** Waiting for confirmation *)

Section Waiting.

Variable self : Client.
Variable polls : Polls.
Variable tx_hash : TransactionHash.
Variable timeout now : Z.

Lemma check_clock_lower_bound :
  (forall k, 0 <= poll_latency polls k) ->
  forall k, now + poll_interval * Z.of_nat k <= check_clock polls now k.
Proof.
  intros Hlat k. unfold poll_interval.
  induction k as [|k IH]; cbn [check_clock].
  - specialize (Hlat 0%nat). lia.
  - specialize (Hlat (S k)). unfold poll_interval. lia.
Qed.

(** Rounds that find nothing and stay within the timeout are passed
    over. *)
Lemma wait_loop_skip (d : nat) :
  forall (k : nat) (clock : Z) (fuel : nat),
    clock + poll_latency polls k = check_clock polls now k ->
    (forall j, (k <= j < k + d)%nat ->
       get_transaction_receipt self (poll_node polls j) tx_hash = Return None /\ check_clock polls now j - now <= timeout) ->
    exists clock',
      clock' + poll_latency polls (k + d) = check_clock polls now (k + d) /\
      wait_loop self polls tx_hash timeout now (d + fuel) k clock
      = wait_loop self polls tx_hash timeout now fuel (k + d)%nat clock'.
Proof.
  induction d as [|d IH]; intros k clock fuel Hc Hq.
  - exists clock. rewrite Nat.add_0_r. split; [assumption|reflexivity].
  - destruct (Hq k ltac:(lia)) as [Hk Ht].
    cbn [Nat.add wait_loop]. rewrite Hk, Hc.
    destruct (Z.gtb_spec (check_clock polls now k - now) timeout); [lia|].
    destruct (IH (S k) (check_clock polls now k + poll_interval) fuel)
      as [clock' [Hc' Hw]].
    + cbn [check_clock]. reflexivity.
    + intros j Hj. apply Hq. lia.
    + exists clock'. replace (k + S d)%nat with (S k + d)%nat by lia.
      split; assumption.
Qed.

(** With no receipt at any lookup, the loop ends at the first timeout
    test at which the elapsed time exceeds the timeout. *)
Lemma wait_loop_times_out :
  (forall k, get_transaction_receipt self (poll_node polls k) tx_hash
             = Return None) ->
  (forall k, 0 <= poll_latency polls k) ->
  forall (fuel k : nat) (clock : Z),
    clock + poll_latency polls k = check_clock polls now k ->
    (0 < fuel)%nat ->
    timeout - (clock - now) < poll_interval * (Z.of_nat fuel - 1) ->
    exists n,
      (k <= n)%nat /\
      wait_loop self polls tx_hash timeout now fuel k clock
      = Some (mkWaited (Raise (timeout_error tx_hash))
                       (check_clock polls now n) (S n)) /\
      timeout < check_clock polls now n - now /\
      (forall j, (k <= j < n)%nat -> check_clock polls now j - now <= timeout).
Proof.
  intros Hnone Hlat. unfold poll_interval.
  induction fuel as [|fuel IH]; intros k clock Hc Hpos Hfuel; [lia|].
  cbn [wait_loop]. specialize (Hnone k) as Hk.
  rewrite Hk, Hc.
  destruct (Z.gtb_spec (check_clock polls now k - now) timeout) as [Hgt|Hle].
  - exists k. split_conj; [lia|reflexivity|lia|intros j Hj; lia].
  - pose proof (Hlat k) as Hl.
    destruct (IH (S k) (check_clock polls now k + poll_interval))
      as [n (Hn & Hw & Ht & Hbefore)].
    + cbn [check_clock]. reflexivity.
    + destruct fuel; [lia|lia].
    + unfold poll_interval. lia.
    + exists n. split_conj; [lia|exact Hw|exact Ht|].
      intros j Hj. destruct (Nat.eq_dec j k) as [->|Hne]; [lia|].
      apply Hbefore. lia.
Qed.

End Waiting.

Section Confirmation_timeout.

Lemma failed_lookup_gives_None
    (self : Client) (node : Node) (tx_hash : TransactionHash) (e : Exc) :
  is_connected self node = Return true ->
  node_get_transaction_receipt node (th_value tx_hash) = Raise e ->
  get_transaction_receipt self node tx_hash = Return None.
Proof.
  intros Hconn He.
  destruct (require_connected_ok self node Hconn) as [Hg [w Hw]].
  unfold get_transaction_receipt, the_w3. rewrite Hg, Hw. cbn [bind].
  rewrite He. reflexivity.
Qed.

(** A client whose liveness probe fails is told so at the first lookup,
    whatever the timeout. *)
Lemma wait_for_transaction_not_connected
    (self : Client) (polls : Polls) (tx_hash : TransactionHash)
    (timeout now : Z) (fuel : nat) :
  is_connected self (poll_node polls 0%nat) = Return false ->
  wait_for_transaction self polls tx_hash timeout now (S fuel)
  = Some (mkWaited
            (Raise (mkExc NetworkNotConnectedError
                          "Not connected to any network"))
            (now + poll_latency polls 0%nat) 1%nat).
Proof.
  intros H. unfold wait_for_transaction. cbn [wait_loop].
  unfold get_transaction_receipt, require_connected. rewrite H. reflexivity.
Qed.

(** C2, as stated, fails: when no receipt ever shows up, the error raised
    after the default timeout of 300 (at elapsed time 302, on the 152nd
    lookup) is a [TransactionFailedError], the class [send_transaction]
    raises for a failed transaction; it is not of a kind of its own. *)
Lemma timeout_raises_TransactionFailedError :
  wait_for_transaction connected_client silent_polls
    (mkTransactionHash example_hash) default_timeout 0 200
  = Some (mkWaited
            (Raise (mkExc TransactionFailedError
                          ("Transaction " ++ example_hash ++ " timed out")))
            302 152%nat) /\
  raised_class
    (Raise (A := TransactionReceipt)
       (mkExc TransactionFailedError
              ("Transaction " ++ example_hash ++ " timed out")))
  = raised_class
      (send_transaction connected_client rejecting_node
         (mkWalletAddress minter_address) (mkWalletAddress recipient_address)
         (of_int 1) "key" None None).
Proof. split; vm_compute; reflexivity. Qed.

(** C2, amended: while the client stays connected and every receipt
    lookup fails, [wait_for_transaction] ends by raising
    [TransactionFailedError] with the message "Transaction <hash> timed
    out" (the adapter has no separate class for a timeout).  It does so at
    the first timeout test at which the elapsed time exceeds [timeout]:
    at every earlier test the elapsed time was at most [timeout], and the
    raising test comes at most one poll interval plus that round's
    latency after [timeout].  A receipt found at a lookup that the loop
    reaches is returned instead. *)
Theorem wait_for_transaction_raises_after_timeout
    (self : Client) (polls : Polls) (tx_hash : TransactionHash)
    (timeout now : Z) (fuel : nat)
    (Hlat : forall k, 0 <= poll_latency polls k)
    (Hpos : (0 < fuel)%nat)
    (Hfuel : timeout < poll_interval * (Z.of_nat fuel - 1)) :
  ((forall k, is_connected self (poll_node polls k) = Return true) ->
   (forall k, exists e,
      node_get_transaction_receipt (poll_node polls k) (th_value tx_hash)
      = Raise e) ->
   exists n,
     wait_for_transaction self polls tx_hash timeout now fuel
     = Some (mkWaited
               (Raise (mkExc TransactionFailedError
                             ("Transaction " ++ th_value tx_hash
                              ++ " timed out")))
               (check_clock polls now n) (S n)) /\
     timeout < check_clock polls now n - now /\
     (forall j, (j < n)%nat -> check_clock polls now j - now <= timeout) /\
     ((0 < n)%nat ->
      check_clock polls now n - now
      <= timeout + poll_interval + poll_latency polls n)) /\
  (forall m receipt,
     (m < fuel)%nat ->
     (forall j, (j < m)%nat ->
        get_transaction_receipt self (poll_node polls j) tx_hash = Return None
        /\ check_clock polls now j - now <= timeout) ->
     get_transaction_receipt self (poll_node polls m) tx_hash
     = Return (Some receipt) ->
     wait_for_transaction self polls tx_hash timeout now fuel
     = Some (mkWaited (Return receipt) (check_clock polls now m) (S m))).
Proof.
  split.
  - intros Hconn Hnever.
    assert (Hnone : forall k,
               get_transaction_receipt self (poll_node polls k) tx_hash
               = Return None).
    { intros k. destruct (Hnever k) as [e He].
      exact (failed_lookup_gives_None _ _ _ e (Hconn k) He). }
    destruct (wait_loop_times_out self polls tx_hash timeout now Hnone Hlat
                fuel 0%nat now eq_refl Hpos) as [n (_ & Hw & Ht & Hbefore)].
    { lia. }
    exists n. unfold wait_for_transaction. split_conj.
    + exact Hw.
    + exact Ht.
    + intros j Hj. apply Hbefore. lia.
    + intros Hn. destruct n as [|n]; [lia|]. cbn [check_clock].
      specialize (Hbefore n ltac:(lia)). lia.
  - intros m receipt Hm Hbefore Hfound.
    destruct (wait_loop_skip self polls tx_hash timeout now m 0%nat now
                (fuel - m) eq_refl) as [clock' [Hc Hw]].
    { intros j Hj. apply Hbefore. lia. }
    unfold wait_for_transaction.
    replace (m + (fuel - m))%nat with fuel in Hw by lia.
    rewrite Nat.add_0_l in Hc, Hw. rewrite Hw.
    destruct (fuel - m)%nat as [|f] eqn:Hf; [lia|].
    cbn [wait_loop]. rewrite Hfound, Hc. reflexivity.
Qed.

Lemma wait_for_transaction_raises_after_timeout_witness :
  exists n,
    wait_for_transaction connected_client silent_polls
      (mkTransactionHash example_hash) default_timeout 0 200
    = Some (mkWaited
              (Raise (mkExc TransactionFailedError
                            ("Transaction " ++ example_hash ++ " timed out")))
              (check_clock silent_polls 0 n) (S n)) /\
    default_timeout < check_clock silent_polls 0 n - 0.
Proof.
  destruct (proj1 (wait_for_transaction_raises_after_timeout
                     connected_client silent_polls
                     (mkTransactionHash example_hash) default_timeout 0 200
                     (fun _ => Z.le_refl 0)
                     ltac:(vm_compute; lia)
                     ltac:(vm_compute; reflexivity))
                  (fun _ => eq_refl)
                  (fun _ => ex_intro _ (mkExc NodeError "Transaction not found")
                                     eq_refl))
    as [n (Hw & Ht & _)].
  exists n. split; assumption.
Defined.

(** The receipt that shows up at the third lookup is returned, at elapsed
    time 4. *)
Example wait_for_transaction_returns_receipt :
  wait_for_transaction connected_client third_poll_has_receipt
    (mkTransactionHash example_hash) default_timeout 0 200
  = Some (mkWaited
            (Return (mkTransactionReceipt (mkTransactionHash example_hash)
                       1200 250000 CONFIRMED None
                       [mkLog nft_contract_address [0; 0; 7] []]))
            4 3%nat).
Proof. vm_compute. reflexivity. Qed.

End Confirmation_timeout.

(** ** Minting *)

Section Minting.

(** C1 on the code: whenever [mint_nft] succeeds, the token id it returns
    is the literal 1, whatever the logs of the receipt contain; the hash
    it returns is the one the broadcast returned. *)
Theorem mint_nft_token_id_is_constant
    (self : Client) (node : Node) (polls : Polls)
    (contract_address : ContractAddress) (minter_private_key : string)
    (to_address : WalletAddress) (metadata : NFTMetadata)
    (now : Z) (fuel : nat) (token_id : Z) (h : TransactionHash)
    (Hmint : mint_nft self node polls contract_address minter_private_key
                      to_address metadata now fuel
             = Some (Return (token_id, h))) :
  token_id = 1 /\
  mint_submit self node contract_address minter_private_key to_address metadata
  = Return (th_value h).
Proof.
  unfold mint_nft in Hmint.
  destruct (mint_submit self node contract_address minter_private_key
                        to_address metadata) as [tx|e]; [|discriminate].
  destruct (new_TransactionHash tx) as [h0|e] eqn:Hh; [|discriminate].
  destruct (wait_for_transaction self polls h0 default_timeout now fuel)
    as [w|]; [|discriminate].
  destruct (waited_result w) as [receipt|e]; [|discriminate].
  cbn [bind try_except] in Hmint. injection Hmint as <- <-.
  apply new_TransactionHash_Return in Hh as [-> _].
  split; reflexivity.
Qed.

(** The mint scenario of the specification, with a receipt whose only log
    carries token id 7: the call returns token id 1. *)
Example mint_nft_with_token_7_in_log :
  raw_logs receipt_with_token_7
  = [LogMapping (mkLog nft_contract_address [0; 0; 7] [])] /\
  mint_nft connected_client accepting_node third_poll_has_receipt
    (mkContractAddress nft_contract_address) "key"
    (mkWalletAddress recipient_address) sunset 0 200
  = Some (Return (1, mkTransactionHash example_hash)).
Proof. split; vm_compute; reflexivity. Qed.

Lemma mint_nft_token_id_is_constant_witness :
  exists token_id h,
    mint_nft connected_client accepting_node third_poll_has_receipt
      (mkContractAddress nft_contract_address) "key"
      (mkWalletAddress recipient_address) sunset 0 200
    = Some (Return (token_id, h)) /\
    token_id = 1 /\ token_id <> 7.
Proof.
  assert (H : mint_nft connected_client accepting_node third_poll_has_receipt
                (mkContractAddress nft_contract_address) "key"
                (mkWalletAddress recipient_address) sunset 0 200
              = Some (Return (1, mkTransactionHash example_hash)))
    by (vm_compute; reflexivity).
  exists 1, (mkTransactionHash example_hash).
  split; [exact H|].
  split; [exact (proj1 (mint_nft_token_id_is_constant _ _ _ _ _ _ _ _ _ _ _ H))
         | discriminate].
Defined.

End Minting.

(** ** Wei and ether *)

Section Wei_ether.

Lemma div_eucl_div_mod (a b : Z) : Z.div_eucl a b = (a / b, a mod b).
Proof. unfold Z.div, Z.modulo. now destruct (Z.div_eucl a b). Qed.

Lemma pow10_pos (k : Z) : 0 <= k -> 0 < 10 ^ k.
Proof. intros. apply Z.pow_pos_nonneg; lia. Qed.

Lemma pow10_split (a b : Z) : 0 <= a -> 0 <= b -> 10 ^ (a + b) = 10 ^ a * 10 ^ b.
Proof. intros. apply Z.pow_add_r; lia. Qed.

Lemma ndigits_fuel_spec (fuel : nat) :
  forall n, 0 < n < 2 ^ Z.of_nat fuel ->
    1 <= ndigits_fuel fuel n /\
    10 ^ (ndigits_fuel fuel n - 1) <= n < 10 ^ ndigits_fuel fuel n.
Proof.
  induction fuel as [|fuel IH]; intros n Hn.
  - simpl in Hn. lia.
  - cbn [ndigits_fuel]. destruct (Z.ltb_spec n 10) as [Hlt|Hge].
    + simpl. lia.
    + assert (Hq : 0 < n / 10 < 2 ^ Z.of_nat fuel).
      { rewrite Nat2Z.inj_succ, Z.pow_succ_r in Hn by lia.
        split.
        - apply Z.div_str_pos. lia.
        - apply Z.div_lt_upper_bound; lia. }
      destruct (IH _ Hq) as [H1 [Hlo Hhi]].
      set (d := ndigits_fuel fuel (n / 10)) in *.
      replace (1 + d - 1) with (Z.succ (d - 1)) by lia.
      replace (1 + d) with (Z.succ d) by lia.
      rewrite !Z.pow_succ_r by lia.
      pose proof (Z.div_mod n 10 ltac:(lia)) as Hdm.
      pose proof (Z.mod_pos_bound n 10 ltac:(lia)) as Hm.
      lia.
Qed.

Lemma ndigits_spec (n : Z) :
  0 < n -> 1 <= ndigits n /\ 10 ^ (ndigits n - 1) <= n < 10 ^ ndigits n.
Proof.
  intros Hn. unfold ndigits. apply ndigits_fuel_spec.
  split; [assumption|].
  rewrite Nat2Z.inj_succ, Z2Nat.id by apply Z.log2_nonneg.
  apply Z.log2_spec. assumption.
Qed.

Lemma ndigits_unique (n k : Z) :
  0 < n -> 10 ^ (k - 1) <= n < 10 ^ k -> ndigits n = k.
Proof.
  intros Hn [Hlo Hhi].
  destruct (ndigits_spec n Hn) as [H1 [Hlo' Hhi']].
  assert (Hk : 1 <= k).
  { destruct (Z.le_gt_cases 1 k); [assumption|].
    destruct (Z.le_gt_cases 0 k).
    - assert (k = 0) by lia. subst. simpl in Hhi. lia.
    - rewrite Z.pow_neg_r in Hhi by lia. lia. }
  destruct (Z.lt_trichotomy (ndigits n) k) as [Hlt|[Heq|Hgt]]; [|assumption|].
  - assert (10 ^ ndigits n <= 10 ^ (k - 1)) by (apply Z.pow_le_mono_r; lia). lia.
  - assert (10 ^ k <= 10 ^ (ndigits n - 1)) by (apply Z.pow_le_mono_r; lia). lia.
Qed.

Lemma ndigits_le (n k : Z) : 0 < n < 10 ^ k -> ndigits n <= k.
Proof.
  intros [Hn Hk].
  destruct (ndigits_spec n Hn) as [H1 [Hlo _]].
  destruct (Z.le_gt_cases (ndigits n) k); [assumption|].
  assert (10 ^ k <= 10 ^ (ndigits n - 1)).
  { destruct (Z.le_gt_cases 0 k).
    - apply Z.pow_le_mono_r; lia.
    - rewrite (Z.pow_neg_r 10 k) by lia. apply Z.pow_nonneg. lia. }
  lia.
Qed.

Lemma ndigits_mul_pow10 (n k : Z) :
  0 < n -> 0 <= k -> ndigits (n * 10 ^ k) = ndigits n + k.
Proof.
  intros Hn Hk. destruct (ndigits_spec n Hn) as [H1 [Hlo Hhi]].
  pose proof (pow10_pos k Hk).
  apply ndigits_unique; [nia|].
  replace (ndigits n + k - 1) with ((ndigits n - 1) + k) by lia.
  rewrite !pow10_split by lia. nia.
Qed.

Lemma strip_zeros_spec (rounds : nat) :
  forall c e c' e',
    0 < c ->
    strip_zeros rounds c e = (c', e') ->
    0 < c' /\ e <= e' <= e + Z.of_nat rounds /\
    c' * 10 ^ (e' - e) = c /\
    (e' = e + Z.of_nat rounds \/ c' mod 10 <> 0).
Proof.
  induction rounds as [|rounds IH]; intros c e c' e' Hc H.
  - cbn in H. injection H as <- <-. rewrite Z.sub_diag.
    split_conj; try lia.
  - cbn [strip_zeros] in H.
    destruct (Z.eqb_spec (c mod 10) 0) as [Hz|Hnz].
    + pose proof (Z.div_mod c 10 ltac:(lia)) as Hdm.
      apply IH in H; [|lia].
      destruct H as (Hc' & He & Hv & Hstop).
      split_conj; try lia.
      replace (e' - e) with (Z.succ (e' - (e + 1))) by lia.
      rewrite Z.pow_succ_r by lia. lia.
    + injection H as <- <-. rewrite Z.sub_diag.
      split_conj; try lia.
Qed.

(** A coefficient that fits the precision is left alone. *)
Lemma fix_short (s : bool) (c e : Z) :
  0 < c < 10 ^ prec -> -1000 <= e <= 1000 ->
  fix_ (mkDec s c e) = Return (mkDec s c e).
Proof.
  intros Hc He. unfold fix_. cbn [d_int d_exp d_sign].
  destruct (Z.eqb_spec c 0); [lia|].
  pose proof (ndigits_le c prec Hc) as Hn.
  destruct (ndigits_spec c ltac:(lia)) as [H1 _].
  unfold Etop, Etiny, Emax, Emin, prec in *.
  destruct (Z.gtb_spec (ndigits c + e - 28) (999999 - 28 + 1)); [lia|].
  destruct (Z.ltb_spec (ndigits c + e - 28) (-999999 - 28 + 1)); [lia|].
  destruct (Z.ltb_spec e (ndigits c + e - 28)); [lia|].
  reflexivity.
Qed.

(** A longer coefficient whose surplus digits are all zero loses exactly
    those digits. *)
Lemma fix_trailing_zeros (s : bool) (q e k : Z) :
  0 < q -> 0 < k <= 1000 -> ndigits q = prec -> -1000 <= e <= 1000 ->
  fix_ (mkDec s (q * 10 ^ k) e) = Return (mkDec s q (e + k)).
Proof.
  intros Hq Hk Hn He. unfold fix_. cbn [d_int d_exp d_sign].
  pose proof (pow10_pos k ltac:(lia)) as Hp.
  destruct (Z.eqb_spec (q * 10 ^ k) 0); [nia|].
  rewrite (ndigits_mul_pow10 q k) by lia. rewrite Hn.
  unfold Etop, Etiny, Emax, Emin, prec in *.
  destruct (Z.gtb_spec (28 + k + e - 28) (999999 - 28 + 1)); [lia|].
  destruct (Z.ltb_spec (28 + k + e - 28) (-999999 - 28 + 1)); [lia|].
  destruct (Z.ltb_spec e (28 + k + e - 28)); [|lia].
  replace (28 + k + e - (28 + k + e - 28)) with 28 by lia.
  destruct (Z.ltb_spec 28 0); [lia|].
  unfold round_half_even, round_half_up.
  replace (28 + k - 28) with k by lia.
  replace (28 + k - 28 - 1) with (k - 1) by lia.
  rewrite Z.mod_mul by lia.
  pose proof (pow10_pos (k - 1) ltac:(lia)) as Hp1.
  destruct (Z.eqb_spec 0 (5 * 10 ^ (k - 1))); [lia|].
  cbn [andb].
  assert (Hd : q * 10 ^ k / 10 ^ (k - 1) = q * 10).
  { replace k with (Z.succ (k - 1)) at 1 by lia.
    rewrite Z.pow_succ_r by lia.
    replace (q * (10 * 10 ^ (k - 1))) with (q * 10 * 10 ^ (k - 1)) by ring.
    apply Z.div_mul. lia. }
  rewrite Hd, Z.mod_mul by lia.
  cbn [Z.leb Z.compare Z.eqb].
  rewrite Z.div_mul by lia.
  change (0 >? 0) with false. cbv beta iota zeta.
  replace (28 + k + e - 28) with (e + k) by lia.
  destruct (Z.gtb_spec (e + k) (999999 - 28 + 1)); [lia|].
  reflexivity.
Qed.

Lemma of_int_nonneg (n : Z) : 0 <= n -> of_int n = mkDec false n 0.
Proof.
  intros H. unfold of_int. rewrite Z.abs_eq by assumption.
  destruct (Z.ltb_spec n 0); [lia|reflexivity].
Qed.

Lemma ndigits_wei_per_ether : ndigits (10 ^ 18) = 19.
Proof. vm_compute. reflexivity. Qed.

(** Dividing fewer than 29 digits of wei by [10^18] is exact: the quotient
    is [c * 10^e] with [c * 10^(18+e) = w]. *)
Lemma wei_to_ether_exact (w : Z) :
  0 < w < 10 ^ 28 ->
  exists c e,
    wei_to_ether w = Return (mkDec false c e) /\
    0 < c /\ -18 <= e <= 0 /\ c * 10 ^ (18 + e) = w.
Proof.
  intros Hw. unfold wei_to_ether, truediv.
  rewrite !of_int_nonneg by lia. cbn [d_int d_exp d_sign xorb].
  destruct (Z.eqb_spec (10 ^ 18) 0); [lia|].
  destruct (Z.eqb_spec w 0); [lia|].
  rewrite ndigits_wei_per_ether.
  pose proof (ndigits_le w 28 Hw) as HL.
  destruct (ndigits_spec w ltac:(lia)) as [HL1 _].
  unfold prec. set (shift := 19 - ndigits w + 28 + 1).
  assert (Hshift : 20 <= shift <= 47) by (unfold shift; lia).
  destruct (Z.leb_spec 0 shift); [|lia].
  rewrite div_eucl_div_mod.
  assert (Hsplit : w * 10 ^ shift = w * 10 ^ (shift - 18) * 10 ^ 18).
  { replace shift with ((shift - 18) + 18) at 1 by lia.
    rewrite pow10_split by lia. ring. }
  rewrite Hsplit, Z.div_mul, Z.mod_mul by lia.
  change (0 =? 0) with true. cbv beta iota.
  replace (0 - 0 - (0 - 0 - shift)) with shift by lia.
  replace (0 - 0 - shift) with (- shift) by lia.
  pose proof (pow10_pos (shift - 18) ltac:(lia)) as Hp.
  destruct (strip_zeros (Z.to_nat shift) (w * 10 ^ (shift - 18)) (- shift))
    as [c e] eqn:Hs.
  apply strip_zeros_spec in Hs; [|nia].
  rewrite Z2Nat.id in Hs by lia.
  destruct Hs as (Hc & He & Hv & Hstop).
  assert (He18 : -18 <= e).
  { destruct (Z.le_gt_cases (-18) e) as [|Hlt]; [assumption|exfalso].
    destruct Hstop as [Heq|Hmod]; [lia|]. apply Hmod.
    assert (Hc10 : c = w * 10 ^ (- 19 - e) * 10).
    { assert (Hsp : 10 ^ (shift - 18)
                    = 10 ^ (- 19 - e) * 10 * 10 ^ (e - - shift)).
      { replace (shift - 18) with ((- 19 - e) + 1 + (e - - shift)) by lia.
        rewrite !pow10_split by lia. reflexivity. }
      rewrite Hsp in Hv.
      pose proof (pow10_pos (e - - shift) ltac:(lia)).
      apply (Z.mul_cancel_r _ _ (10 ^ (e - - shift))); [lia|].
      rewrite Hv. ring. }
    rewrite Hc10. apply Z.mod_mul. lia. }
  assert (Hval : c * 10 ^ (18 + e) = w).
  { assert (Hsp : 10 ^ (e - - shift) = 10 ^ (18 + e) * 10 ^ (shift - 18)).
    { replace (e - - shift) with ((18 + e) + (shift - 18)) by lia.
      apply pow10_split; lia. }
    rewrite Hsp in Hv.
    apply (Z.mul_cancel_r _ _ (10 ^ (shift - 18))); [lia|].
    rewrite <- Hv. ring. }
  exists c, e. split_conj; try lia.
  apply fix_short; [|lia].
  pose proof (pow10_pos (18 + e) ltac:(lia)).
  unfold prec. split; [lia|nia].
Qed.

(** Multiplying such a quotient by [10^18] and truncating gives the wei
    back. *)
Lemma ether_to_wei_exact (c e : Z) :
  0 < c -> -18 <= e <= 0 -> c * 10 ^ (18 + e) < 10 ^ 28 ->
  ether_to_wei (mkDec false c e) = Return (c * 10 ^ (18 + e)).
Proof.
  intros Hc He Hw. unfold ether_to_wei.
  assert (Hmul : mul (mkDec false c e) (of_int (10 ^ 18))
                 = fix_ (mkDec false (c * 10 ^ 18) e)).
  { unfold mul. rewrite of_int_nonneg by lia.
    cbn [d_int d_exp d_sign xorb].
    destruct (Z.eqb_spec c 0); [lia|].
    destruct (Z.eqb_spec (10 ^ 18) 0); [lia|]. cbn [orb].
    rewrite Z.add_0_r.
    destruct (Z.eqb_spec c 1) as [->|]; [now rewrite Z.mul_1_l|].
    destruct (Z.eqb_spec (10 ^ 18) 1); [lia|reflexivity]. }
  rewrite Hmul.
  pose proof (pow10_pos (18 + e) ltac:(lia)) as Hp.
  assert (Hc28 : 0 < c < 10 ^ 28) by nia.
  pose proof (ndigits_le c 28 Hc28) as Hn.
  destruct (ndigits_spec c Hc) as [Hn1 [Hlo Hhi]].
  destruct (Z.le_gt_cases (ndigits c) 10) as [Hshort|Hlong].
  - (* the product has at most 28 digits *)
    rewrite fix_short; [|unfold prec|lia].
    + cbn [bind]. f_equal. unfold to_int. cbn [d_sign d_exp d_int].
      destruct (Z.leb_spec 0 e).
      * replace e with 0 by lia. cbn [Z.add]. rewrite Z.pow_0_r. lia.
      * rewrite Z.mul_1_l.
        replace 18 with ((18 + e) + - e) at 1 by lia.
        rewrite pow10_split by lia.
        rewrite Z.mul_assoc. apply Z.div_mul.
        pose proof (pow10_pos (- e) ltac:(lia)). lia.
    + assert (10 ^ ndigits c <= 10 ^ 10) by (apply Z.pow_le_mono_r; lia).
      lia.
  - (* the surplus digits of the product are zeros *)
    set (k := ndigits c - 10).
    assert (Hk : 0 < k <= 18) by (unfold k; lia).
    assert (Hq : c * 10 ^ 18 = c * 10 ^ (18 - k) * 10 ^ k).
    { replace 18 with ((18 - k) + k) at 1 by lia.
      rewrite pow10_split by lia. ring. }
    rewrite Hq.
    pose proof (pow10_pos (18 - k) ltac:(lia)) as Hpk.
    rewrite fix_trailing_zeros; [|nia|lia| |lia].
    + cbn [bind]. f_equal. unfold to_int. cbn [d_sign d_exp d_int].
      destruct (Z.leb_spec 0 (e + k)).
      * rewrite Z.mul_1_l, <- Z.mul_assoc, <- pow10_split by lia.
        f_equal. f_equal. lia.
      * rewrite Z.mul_1_l.
        replace (18 - k) with ((18 + e) + - (e + k)) by lia.
        rewrite pow10_split by lia.
        rewrite Z.mul_assoc. apply Z.div_mul.
        pose proof (pow10_pos (- (e + k)) ltac:(lia)). lia.
    + rewrite ndigits_mul_pow10 by lia. unfold k, prec. lia.
Qed.

(** C3, as stated, fails: [10^28 + 1] wei has 29 significant digits, one
    more than the context's precision; the division rounds it to
    [10^10] ether and the way back gives [10^28] wei. *)
Lemma round_trip_loses_the_29th_digit :
  0 <= 10 ^ 28 + 1 /\
  wei_to_ether (10 ^ 28 + 1) = Return (mkDec false (10 ^ 27) (-17)) /\
  round_trip (10 ^ 28 + 1) = Return (10 ^ 28) /\
  round_trip (10 ^ 28 + 1) <> Return (10 ^ 28 + 1).
Proof.
  split_conj.
  - vm_compute. discriminate.
  - vm_compute. reflexivity.
  - vm_compute. reflexivity.
  - vm_compute. discriminate.
Qed.

(** C3, amended: for every non-negative [w] up to [10^28] (the numbers of
    at most 28 decimal digits, the precision of the default decimal
    context, and [10^28] itself), [ether_to_wei(wei_to_ether(w))] returns
    [w]. *)
Theorem round_trip_exact_up_to_10_pow_28 (w : Z) (Hw : 0 <= w <= 10 ^ 28) :
  round_trip w = Return w.
Proof.
  destruct (Z.eq_dec w 0) as [->|Hnz]; [vm_compute; reflexivity|].
  destruct (Z.eq_dec w (10 ^ 28)) as [->|Hmax]; [vm_compute; reflexivity|].
  destruct (wei_to_ether_exact w ltac:(lia)) as (c & e & Hdiv & Hc & He & Hv).
  unfold round_trip. rewrite Hdiv. cbn [bind].
  rewrite ether_to_wei_exact by lia. now rewrite Hv.
Qed.

Lemma round_trip_exact_up_to_10_pow_28_witness :
  round_trip 1234567890123456789 = Return 1234567890123456789.
Proof.
  apply (round_trip_exact_up_to_10_pow_28 1234567890123456789).
  vm_compute. split; discriminate.
Defined.

End Wei_ether.

(** ** Normalised amounts *)

Section Normalized.

Lemma pow2_pos (k : Z) : 0 <= k -> 0 < 2 ^ k.
Proof. intros. apply Z.pow_pos_nonneg; lia. Qed.

Lemma bit_length_spec (n : Z) :
  0 < n -> 1 <= bit_length n /\ 2 ^ (bit_length n - 1) <= n < 2 ^ bit_length n.
Proof.
  intros Hn. unfold bit_length.
  destruct (Z.eqb_spec n 0); [lia|].
  pose proof (Z.log2_nonneg n). pose proof (Z.log2_spec n Hn).
  replace (Z.log2 n + 1 - 1) with (Z.log2 n) by lia.
  replace (Z.log2 n + 1) with (Z.succ (Z.log2 n)) by lia. lia.
Qed.

Lemma scale_num_eq (x e : Z) : scale_num x e = x * 2 ^ Z.max (- e) 0.
Proof.
  unfold scale_num. destruct (Z.ltb_spec e 0).
  - now rewrite Z.max_l by lia.
  - rewrite Z.max_r by lia. cbn. lia.
Qed.

Lemma scale_den_eq (y e : Z) : scale_den y e = y * 2 ^ Z.max e 0.
Proof.
  unfold scale_den. destruct (Z.ltb_spec e 0).
  - rewrite Z.max_r by lia. cbn. lia.
  - now rewrite Z.max_l by lia.
Qed.

(** Comparing [x / y] with powers of two, by cross multiplication:
    [x / y < 2^(d - c)] carries over to every larger exponent. *)
Lemma pow2_cross_lt (x y c d c2 d2 : Z) :
  0 <= x -> 0 < y -> 0 <= c -> 0 <= d -> 0 <= c2 -> 0 <= d2 ->
  x * 2 ^ c < y * 2 ^ d -> d - c <= d2 - c2 ->
  x * 2 ^ c2 < y * 2 ^ d2.
Proof.
  intros Hx Hy Hc Hd Hc2 Hd2 Hlt Hle.
  apply (Z.mul_lt_mono_pos_r (2 ^ (c + d))); [apply pow2_pos; lia|].
  assert (H1 : x * 2 ^ c2 * 2 ^ (c + d) = x * 2 ^ c * 2 ^ (c2 + d)).
  { rewrite <- !Z.mul_assoc, <- !Z.pow_add_r by lia. do 2 f_equal. lia. }
  assert (H2 : y * 2 ^ d * 2 ^ (c2 + d) <= y * 2 ^ d2 * 2 ^ (c + d)).
  { rewrite <- !Z.mul_assoc, <- !Z.pow_add_r by lia.
    apply Z.mul_le_mono_nonneg_l; [lia|].
    apply Z.pow_le_mono_r; lia. }
  rewrite H1.
  pose proof (pow2_pos (c2 + d) ltac:(lia)). nia.
Qed.

Lemma round_half_even_div_spec (n d : Z) :
  0 <= n -> 0 < d ->
  0 <= round_half_even_div n d /\
  2 * Z.abs (round_half_even_div n d * d - n) <= d /\
  (forall K, n < K * d -> round_half_even_div n d <= K).
Proof.
  intros Hn Hd. unfold round_half_even_div.
  pose proof (Z.div_mod n d ltac:(lia)) as Hdm.
  pose proof (Z.mod_pos_bound n d Hd) as Hm.
  pose proof (Z.div_pos n d Hn Hd) as Hq.
  assert (HK : forall K, n < K * d -> n / d + 1 <= K).
  { intros K HKd. assert (n / d < K); [|lia].
    apply Z.div_lt_upper_bound; lia. }
  destruct (Z.ltb_spec (2 * (n mod d)) d);
    [|destruct (Z.ltb_spec d (2 * (n mod d)));
      [|destruct (Z.even (n / d))]].
  all: split_conj; try lia; try (intros K HKd; specialize (HK K HKd); lia).
Qed.

Lemma round_half_even_div_nearest (n d K : Z) :
  0 <= n -> 0 < d ->
  Z.abs (round_half_even_div n d * d - n) <= Z.abs (K * d - n).
Proof.
  intros Hn Hd.
  destruct (round_half_even_div_spec n d Hn Hd) as (_ & Hnear & _).
  set (m := round_half_even_div n d) in *. clearbody m.
  destruct (Z.eq_dec K m) as [->|Hne]; [lia|].
  assert (d <= Z.abs ((K - m) * d)).
  { rewrite Z.abs_mul, (Z.abs_eq d) by lia.
    assert (1 <= Z.abs (K - m)) by lia. nia. }
  replace (K * d - n) with ((K - m) * d + (m * d - n)) by ring.
  lia.
Qed.

Lemma round_half_even_div_tie (n d K : Z) :
  0 <= n -> 0 < d ->
  K <> round_half_even_div n d ->
  Z.abs (K * d - n) = Z.abs (round_half_even_div n d * d - n) ->
  Z.even (round_half_even_div n d) = true.
Proof.
  intros Hn Hd. unfold round_half_even_div.
  pose proof (Z.div_mod n d ltac:(lia)) as Hdm.
  pose proof (Z.mod_pos_bound n d Hd) as Hm.
  set (q := n / d) in *. set (r := n mod d) in *. clearbody q r.
  assert (Hcases : forall X, X = 0 \/ 1 <= X \/ X <= -1) by (intros; lia).
  destruct (Z.ltb_spec (2 * r) d);
    [|destruct (Z.ltb_spec d (2 * r)); [|destruct (Z.even q) eqn:Hq]].
  - intros Hne Habs. exfalso.
    destruct (Hcases (K - q)) as [E0|[E1|E1]]; [lia| |].
    + assert (d <= (K - q) * d) by nia. lia.
    + assert ((K - q) * d <= - d) by nia. lia.
  - intros Hne Habs. exfalso.
    destruct (Hcases (K - (q + 1))) as [E0|[E1|E1]]; [lia| |].
    + assert (d <= (K - (q + 1)) * d) by nia. lia.
    + assert ((K - (q + 1)) * d <= - d) by nia. lia.
  - intros _ _. exact Hq.
  - intros _ _. cbv iota. rewrite Z.even_add, Hq. reflexivity.
Qed.

Lemma round_half_even_div_ge_even (n d K : Z) :
  0 <= n -> 0 < d -> Z.even K = true ->
  (K <= round_half_even_div n d <-> (2 * K - 1) * d <= 2 * n).
Proof.
  intros Hn Hd HK. unfold round_half_even_div.
  pose proof (Z.div_mod n d ltac:(lia)) as Hdm.
  pose proof (Z.mod_pos_bound n d Hd) as Hm.
  set (q := n / d) in *. set (r := n mod d) in *. clearbody q r.
  assert (Hcases : K <= q \/ K = q + 1 \/ q + 2 <= K) by lia.
  destruct (Z.ltb_spec (2 * r) d);
    [|destruct (Z.ltb_spec d (2 * r)); [|destruct (Z.even q) eqn:Hq]].
  - destruct Hcases as [H1|[H1|H1]]; split; intros; try lia; nia.
  - destruct Hcases as [H1|[H1|H1]]; split; intros; try lia; nia.
  - cbv iota.
    destruct Hcases as [H1|[H1|H1]]; split; intros; try lia; try nia.
    all: subst K; rewrite Z.even_add, Hq in HK; discriminate.
  - cbv iota.
    destruct Hcases as [H1|[H1|H1]]; split; intros; try lia; try nia.
    all: assert (K = q) by nia; subst K; congruence.
Qed.

(** [y * 2^d <= x * 2^c] carries over to every smaller exponent. *)
Lemma pow2_cross_le (x y c d c2 d2 : Z) :
  0 <= x -> 0 < y -> 0 <= c -> 0 <= d -> 0 <= c2 -> 0 <= d2 ->
  y * 2 ^ d <= x * 2 ^ c -> d2 - c2 <= d - c ->
  y * 2 ^ d2 <= x * 2 ^ c2.
Proof.
  intros Hx Hy Hc Hd Hc2 Hd2 Hle Hexp.
  apply (Z.mul_le_mono_pos_r _ _ (2 ^ (c + d))); [apply pow2_pos; lia|].
  assert (H1 : x * 2 ^ c2 * 2 ^ (c + d) = x * 2 ^ c * 2 ^ (c2 + d)).
  { rewrite <- !Z.mul_assoc, <- !Z.pow_add_r by lia. do 2 f_equal. lia. }
  assert (H2 : y * 2 ^ d2 * 2 ^ (c + d) <= y * 2 ^ d * 2 ^ (c2 + d)).
  { rewrite <- !Z.mul_assoc, <- !Z.pow_add_r by lia.
    apply Z.mul_le_mono_nonneg_l; [lia|].
    apply Z.pow_le_mono_r; lia. }
  rewrite H1.
  pose proof (pow2_pos (c2 + d) ltac:(lia)). nia.
Qed.

(** Rounding [v / p] to a multiple of [2^e] gives the nearest binary64,
    provided [e] is the exponent of the binade of the quotient or that
    of the subnormal numbers. *)
Lemma rounding_is_nearest (v p e : Z) (f : float) :
  0 <= v -> 0 < p -> -1074 <= e ->
  (e = -1074 \/ 2 ^ 52 * (p * 2 ^ Z.max e 0) <= v * 2 ^ Z.max (- e) 0) ->
  f_neg f = false ->
  f_mant f * 2 ^ (f_exp f + 1074)
  = round_half_even_div (v * 2 ^ Z.max (- e) 0) (p * 2 ^ Z.max e 0)
    * 2 ^ (e + 1074) ->
  (Z.even (round_half_even_div (v * 2 ^ Z.max (- e) 0) (p * 2 ^ Z.max e 0))
   = true -> Z.even (f_mant f) = true) ->
  nearest_ties_to_even f v p.
Proof.
  intros Hv Hp He Hlow Hneg Hunits Hev g [Hgm Hge].
  set (a := Z.max (- e) 0) in *. set (b := Z.max e 0) in *.
  assert (Hab : 0 <= a <= 1074 /\ 0 <= b /\ e + 1074 = b + (1074 - a))
    by (unfold a, b; lia).
  clearbody a b.
  pose proof (pow2_pos (1074 - a) ltac:(lia)) as HS.
  pose proof (pow2_pos b ltac:(lia)) as Hpb.
  pose proof (pow2_pos a ltac:(lia)) as Hpa.
  pose proof (pow2_pos (e + 1074) ltac:(lia)) as Hpe.
  assert (HV : v * 2 ^ 1074 = v * 2 ^ a * 2 ^ (1074 - a)).
  { rewrite <- Z.mul_assoc, <- Z.pow_add_r by lia. do 2 f_equal. lia. }
  assert (HU : forall K, K * 2 ^ (e + 1074) * p
                         = K * (p * 2 ^ b) * 2 ^ (1074 - a)).
  { intros K. replace (e + 1074) with (b + (1074 - a)) by lia.
    rewrite Z.pow_add_r by lia. ring. }
  assert (HD : 0 < p * 2 ^ b) by nia.
  assert (HN : 0 <= v * 2 ^ a) by nia.
  set (S := 2 ^ (1074 - a)) in *. set (D := p * 2 ^ b) in *.
  set (N := v * 2 ^ a) in *.
  pose proof (round_half_even_div_nearest N D) as Hnear.
  pose proof (round_half_even_div_tie N D) as Htie.
  set (m0 := round_half_even_div N D) in *. clearbody m0.
  assert (Hscaled : forall K, Z.abs (K * 2 ^ (e + 1074) * p - v * 2 ^ 1074)
                              = Z.abs (K * D - N) * S).
  { intros K. rewrite HU, HV.
    replace (K * D * S - N * S) with ((K * D - N) * S) by ring.
    rewrite Z.abs_mul, (Z.abs_eq S) by lia. reflexivity. }
  assert (Hf : float_distance f v p = Z.abs (m0 * D - N) * S).
  { unfold float_distance, float_units. rewrite Hneg, Z.mul_1_l, Hunits.
    apply Hscaled. }
  assert (Hfu : float_units f = m0 * 2 ^ (e + 1074)).
  { unfold float_units. rewrite Hneg, Z.mul_1_l. exact Hunits. }
  rewrite Hf, Hfu.
  assert (Hg : (exists K, float_units g = K * 2 ^ (e + 1074))
               \/ float_units g < 0
               \/ (0 <= float_units g /\ e <> -1074 /\
                   float_units g < 2 ^ 52 * 2 ^ (e + 1074))).
  { unfold float_units.
    pose proof (pow2_pos (f_exp g + 1074) ltac:(lia)) as Hpg.
    destruct (f_neg g).
    - destruct (Z.eq_dec (f_mant g) 0) as [E|E].
      + left. exists 0. rewrite E. ring.
      + right; left. nia.
    - rewrite Z.mul_1_l. destruct (Z.le_gt_cases e (f_exp g)).
      + left. exists (f_mant g * 2 ^ (f_exp g - e)).
        rewrite <- Z.mul_assoc, <- Z.pow_add_r by lia. do 2 f_equal. lia.
      + right; right. split_conj; [nia|lia|].
        assert (2 ^ (f_exp g + 1074) * 2 <= 2 ^ (e + 1074)).
        { replace (e + 1074) with ((f_exp g + 1074) + 1 + (e - f_exp g - 1))
            by lia.
          rewrite (Z.pow_add_r 2 (f_exp g + 1074 + 1)),
            (Z.pow_add_r 2 (f_exp g + 1074) 1) by lia.
          pose proof (pow2_pos (e - f_exp g - 1) ltac:(lia)).
          change (2 ^ 1) with 2. nia. }
        change (2 ^ 53) with (2 ^ 52 * 2) in Hgm.
        assert (HT : 0 < 2 ^ 52) by (apply pow2_pos; lia).
        set (T := 2 ^ 52) in *. clearbody T.
        set (P := 2 ^ (f_exp g + 1074)) in *. clearbody P.
        set (Q := 2 ^ (e + 1074)) in *. clearbody Q.
        assert (f_mant g * P < T * 2 * P)
          by (apply Z.mul_lt_mono_pos_r; lia).
        assert (T * (P * 2) <= T * Q)
          by (apply Z.mul_le_mono_nonneg_l; lia).
        lia. }
  unfold float_distance.
  destruct Hg as [[K HK]|[Hlt|(Hge0 & Hne & Hlt)]].
  - rewrite HK, Hscaled. split.
    + apply Z.mul_le_mono_nonneg_r; [lia|apply Hnear; lia].
    + intros Heq Hneq. apply Hev. apply (Htie K); [lia|lia| |].
      * intros ->. apply Hneq. reflexivity.
      * apply (Z.mul_cancel_r _ _ S); [lia|exact Heq].
  - assert (Hz : Z.abs (m0 * D - N) * S <= v * 2 ^ 1074).
    { rewrite HV. fold N. specialize (Hnear 0 ltac:(lia) ltac:(lia)).
      replace (0 * D - N) with (- N) in Hnear by ring.
      rewrite Z.abs_opp, (Z.abs_eq N) in Hnear by lia. nia. }
    assert (float_units g * p < 0) by nia.
    split; [lia|]. intros Heq. lia.
  - destruct Hlow as [Hlow|Hlow]; [contradiction|].
    assert (Hz : Z.abs (m0 * D - N) * S <= (N - 2 ^ 52 * D) * S).
    { specialize (Hnear (2 ^ 52) ltac:(lia) ltac:(lia)).
      rewrite (Z.abs_neq (2 ^ 52 * D - N)) in Hnear by lia.
      apply Z.mul_le_mono_nonneg_r; lia. }
    assert (Hgp : float_units g * p < 2 ^ 52 * D * S).
    { rewrite <- HU. apply Z.mul_lt_mono_pos_r; assumption. }
    assert (HVN : v * 2 ^ 1074 = N * S) by exact HV.
    split; [|intros Heq]; lia.
Qed.

Lemma overflow_threshold_facts :
  overflow_threshold = (2 ^ 54 - 1) * 2 ^ 970 /\
  0 < overflow_threshold /\
  2 ^ 1023 <= overflow_threshold /\
  overflow_threshold <= 2 ^ 1024.
Proof.
  split_conj.
  - vm_compute. reflexivity.
  - vm_compute. reflexivity.
  - vm_compute. discriminate.
  - vm_compute. discriminate.
Qed.

Lemma round_half_even_div_small (n d : Z) :
  0 <= n -> 2 * n < d -> round_half_even_div n d = 0.
Proof.
  intros Hn Hd.
  destruct (round_half_even_div_spec n d Hn ltac:(lia)) as (H0 & Hnear & _).
  set (m := round_half_even_div n d) in *. clearbody m.
  destruct (Z.eq_dec m 0) as [|Hne]; [assumption|exfalso].
  assert (d <= m * d) by nia. lia.
Qed.

(** The true division of a non-negative integer by a positive one:
    [OverflowError] from the threshold on, and below it the nearest
    binary64, ties going to the even significand. *)
Lemma int_true_divide_spec (v p : Z) :
  0 <= v -> 0 < p ->
  (overflow_threshold * p <= v /\
   int_true_divide v p
   = Raise (mkExc ArithmeticError
                  "integer division result too large for a float"))
  \/
  (v < overflow_threshold * p /\
   exists f,
     int_true_divide v p = Return f /\
     f_neg f = false /\ binary64 f /\ normal_form f /\
     nearest_ties_to_even f v p).
Proof.
  intros Hv Hp.
  destruct overflow_threshold_facts as (Hthr & Hthr0 & Hthr_lo & Hthr_hi).
  unfold int_true_divide.
  destruct (Z.eqb_spec p 0); [lia|].
  destruct (Z.ltb_spec v 0); [lia|]. destruct (Z.ltb_spec p 0); [lia|].
  cbn [xorb]. rewrite (Z.abs_eq v), (Z.abs_eq p) by lia.
  destruct (Z.eqb_spec v 0) as [->|Hv0].
  { right. split; [nia|]. eexists. split; [reflexivity|].
    cbn [f_neg f_mant f_exp]. unfold binary64, normal_form.
    cbn [f_neg f_mant f_exp].
    split; [reflexivity|]. split; [split; [split; [lia|reflexivity]|lia]|].
    split.
    - right; right; reflexivity.
    - apply (rounding_is_nearest 0 p (-1074));
        [lia|lia|lia|left; reflexivity|reflexivity| |intros _; reflexivity].
      cbn [f_neg f_mant f_exp].
      rewrite Z.mul_0_l, round_half_even_div_small; [reflexivity|lia|].
      rewrite (Z.max_r (-1074) 0), Z.pow_0_r by lia. lia. }
  destruct (bit_length_spec v ltac:(lia)) as (Hbv & Hvlo & Hvhi).
  destruct (bit_length_spec p Hp) as (Hbp & Hplo & Hphi).
  set (bv := bit_length v) in *. set (bp := bit_length p) in *.
  clearbody bv bp.
  (* 2^(diff-1) < x / y < 2^(diff+1), from the bit lengths *)
  assert (HA : v * 2 ^ (bp - 1) < p * 2 ^ bv).
  { pose proof (pow2_pos (bp - 1) ltac:(lia)).
    pose proof (pow2_pos bv ltac:(lia)). nia. }
  assert (HB : p * 2 ^ (bv - 1) <= v * 2 ^ bp).
  { pose proof (pow2_pos (bv - 1) ltac:(lia)).
    pose proof (pow2_pos bp ltac:(lia)). nia. }
  destruct (Z.gtb_spec (bv - bp) 1024) as [Hover|Hnover].
  { left. split; [|reflexivity].
    assert (p * 2 ^ 1024 <= v * 2 ^ 0)
      by (apply (pow2_cross_le v p bp (bv - 1)); lia).
    rewrite Z.pow_0_r in *. nia. }
  destruct (Z.ltb_spec (bv - bp) (-1075)) as [Hunder|Hnounder].
  { assert (Hsmall : v * 2 ^ 1075 < p * 2 ^ 0)
      by (apply (pow2_cross_lt v p (bp - 1) bv); lia).
    rewrite Z.pow_0_r, Z.mul_1_r in Hsmall.
    assert (H1075 : 2 ^ 1075 = 2 * 2 ^ 1074) by (vm_compute; reflexivity).
    assert (H1074 : 0 < 2 ^ 1074) by (apply pow2_pos; lia).
    right. split; [nia|]. eexists. split; [reflexivity|].
    unfold binary64, normal_form. cbn [f_neg f_mant f_exp].
    split; [reflexivity|]. split; [split; [split; [lia|reflexivity]|lia]|].
    split.
    - right; right; reflexivity.
    - apply (rounding_is_nearest v p (-1074));
        [lia|lia|lia|left; reflexivity|reflexivity| |intros _; reflexivity].
      cbn [f_neg f_mant f_exp].
      rewrite Z.mul_0_l, round_half_even_div_small; [reflexivity| |].
      + change (- -1074) with 1074. rewrite (Z.max_l 1074 0) by lia. nia.
      + change (- -1074) with 1074.
        rewrite (Z.max_l 1074 0), (Z.max_r (-1074) 0), Z.pow_0_r by lia.
        nia. }
  set (diff := bv - bp) in *.
  set (lead := if scale_den p diff <=? scale_num v diff then diff else diff - 1).
  assert (Hlead : diff - 1 <= lead <= diff /\
                  (exists c d, 0 <= c /\ 0 <= d /\ d - c = lead + 1 /\
                               v * 2 ^ c < p * 2 ^ d) /\
                  (exists c d, 0 <= c /\ 0 <= d /\ d - c = lead /\
                               p * 2 ^ d <= v * 2 ^ c)).
  { unfold lead. destruct (Z.leb_spec (scale_den p diff) (scale_num v diff))
      as [Hge|Hlt].
    - split_conj; [lia|lia| |].
      + exists (bp - 1), bv. split_conj; try lia; exact HA.
      + rewrite scale_den_eq, scale_num_eq in Hge.
        exists (Z.max (- diff) 0), (Z.max diff 0). split_conj; try lia.
    - split_conj; [lia|lia| |].
      + rewrite scale_den_eq, scale_num_eq in Hlt.
        exists (Z.max (- diff) 0), (Z.max diff 0). split_conj; try lia.
      + exists bp, (bv - 1). split_conj; try lia; exact HB. }
  destruct Hlead as (Hlead & (c & d & Hc & Hd & Hdc & Hcd)
                     & (c' & d' & Hc' & Hd' & Hdc' & Hcd')).
  clearbody lead.
  set (e := Z.max (lead - 52) (-1074)).
  assert (He : lead - 52 <= e /\ -1074 <= e /\ (e = -1074 \/ e = lead - 52))
    by (unfold e; lia).
  clearbody e.
  rewrite (scale_num_eq v e), (scale_den_eq p e).
  assert (Hab : 0 <= Z.max (- e) 0 /\ 0 <= Z.max e 0 /\
                Z.max e 0 - Z.max (- e) 0 = e) by lia.
  pose proof (pow2_pos (Z.max (- e) 0) ltac:(lia)) as Hpa.
  pose proof (pow2_pos (Z.max e 0) ltac:(lia)) as Hpb.
  assert (HN : 0 <= v * 2 ^ Z.max (- e) 0) by nia.
  assert (HD : 0 < p * 2 ^ Z.max e 0) by nia.
  destruct (round_half_even_div_spec _ _ HN HD) as (Hm0 & _ & Hupper).
  assert (Hm53 : round_half_even_div (v * 2 ^ Z.max (- e) 0)
                                     (p * 2 ^ Z.max e 0) <= 2 ^ 53).
  { apply Hupper.
    replace (2 ^ 53 * (p * 2 ^ Z.max e 0)) with (p * 2 ^ (Z.max e 0 + 53))
      by (rewrite Z.pow_add_r by lia; ring).
    apply (pow2_cross_lt v p c d); lia. }
  (* the quotient is at least 2^52 units, unless it is subnormal *)
  assert (Hlow : e = -1074 \/
                 2 ^ 52 * (p * 2 ^ Z.max e 0) <= v * 2 ^ Z.max (- e) 0).
  { destruct (Z.eq_dec e (-1074)) as [|Hne]; [now left|right].
    replace (2 ^ 52 * (p * 2 ^ Z.max e 0)) with (p * 2 ^ (Z.max e 0 + 52))
      by (rewrite Z.pow_add_r by lia; ring).
    apply (pow2_cross_le v p c' d'); lia. }
  pose proof (round_half_even_div_ge_even (v * 2 ^ Z.max (- e) 0)
                (p * 2 ^ Z.max e 0) (2 ^ 53) HN HD eq_refl) as H53.
  pose proof (round_half_even_div_ge_even (v * 2 ^ Z.max (- e) 0)
                (p * 2 ^ Z.max e 0) (2 ^ 52) HN HD eq_refl) as H52.
  assert (Hnear : forall f,
            f_neg f = false ->
            f_mant f * 2 ^ (f_exp f + 1074)
            = round_half_even_div (v * 2 ^ Z.max (- e) 0)
                                  (p * 2 ^ Z.max e 0) * 2 ^ (e + 1074) ->
            (Z.even (round_half_even_div (v * 2 ^ Z.max (- e) 0)
                                         (p * 2 ^ Z.max e 0)) = true ->
             Z.even (f_mant f) = true) ->
            nearest_ties_to_even f v p).
  { intros f. apply rounding_is_nearest; lia. }
  change (2 * 2 ^ 53 - 1) with (2 ^ 54 - 1) in H53.
  change (2 * 2 ^ 52 - 1) with (2 ^ 53 - 1) in H52.
  assert (HT : 0 < 2 ^ 54 - 1) by (vm_compute; reflexivity).
  assert (HT52 : 0 < 2 ^ 52) by (vm_compute; reflexivity).
  assert (H5352 : 2 ^ 53 = 2 * 2 ^ 52) by (vm_compute; reflexivity).
  assert (H971 : 2 ^ 971 = 2 * 2 ^ 970) by (vm_compute; reflexivity).
  assert (HC : 0 < 2 ^ 970) by (apply pow2_pos; lia).
  set (m0 := round_half_even_div (v * 2 ^ Z.max (- e) 0)
                                 (p * 2 ^ Z.max e 0)) in *.
  clearbody m0.
  (* below the threshold when the rounded significand stays below 2^53
     and the exponent is at most 971 *)
  assert (Hbelow : e <= 971 -> m0 < 2 ^ 53 -> v < overflow_threshold * p).
  { intros He971 Hm.
    assert (Hlt : 2 * (v * 2 ^ Z.max (- e) 0)
                  < (2 ^ 54 - 1) * (p * 2 ^ Z.max e 0)) by lia.
    rewrite Hthr.
    destruct (Z.le_gt_cases 0 e) as [Hpos|Hneg].
    - rewrite (Z.max_l e 0), (Z.max_r (- e) 0), Z.pow_0_r, Z.mul_1_r in Hlt
        by lia.
      assert (2 ^ e <= 2 ^ 971) by (apply Z.pow_le_mono_r; lia).
      rewrite H971 in *.
      set (T := 2 ^ 54 - 1) in *. set (C := 2 ^ 970) in *.
      set (X := 2 ^ e) in *. clearbody T C X.
      assert (T * (p * X) <= T * (p * (2 * C))).
      { apply Z.mul_le_mono_nonneg_l; [lia|].
        apply Z.mul_le_mono_nonneg_l; lia. }
      lia.
    - rewrite (Z.max_r e 0), (Z.max_l (- e) 0), Z.pow_0_r, Z.mul_1_r in Hlt
        by lia.
      pose proof (pow2_pos (- e) ltac:(lia)).
      set (T := 2 ^ 54 - 1) in *. set (C := 2 ^ 970) in *.
      set (X := 2 ^ (- e)) in *. clearbody T C X.
      assert (v <= v * X) by nia.
      assert (T * p <= T * C * p) by nia.
      lia. }
  destruct (Z.eqb_spec m0 (2 ^ 53)) as [Hm|Hne].
  - destruct (Z.gtb_spec (e + 1) 971) as [Hbig|Hfit].
    + left. split; [|reflexivity].
      assert (Hge : (2 ^ 54 - 1) * (p * 2 ^ Z.max e 0)
                    <= 2 * (v * 2 ^ Z.max (- e) 0)) by (apply H53; lia).
      rewrite (Z.max_l e 0), (Z.max_r (- e) 0), Z.pow_0_r, Z.mul_1_r in Hge
        by lia.
      assert (2 ^ 971 <= 2 ^ e) by (apply Z.pow_le_mono_r; lia).
      rewrite Hthr. rewrite H971 in *.
      set (T := 2 ^ 54 - 1) in *. set (C := 2 ^ 970) in *.
      set (X := 2 ^ e) in *. clearbody T C X.
      assert (T * (p * (2 * C)) <= T * (p * X)).
      { apply Z.mul_le_mono_nonneg_l; [lia|].
        apply Z.mul_le_mono_nonneg_l; lia. }
      lia.
    + right. split.
      * assert (v * 2 ^ 0 < p * 2 ^ 1023)
          by (apply (pow2_cross_lt v p c d); lia).
        rewrite Z.pow_0_r in *. nia.
      * eexists. split; [reflexivity|].
        unfold binary64, normal_form. cbn [f_neg f_mant f_exp].
        split; [reflexivity|]. split; [lia|]. split; [left; lia|].
        apply Hnear; cbn [f_neg f_mant f_exp].
        -- reflexivity.
        -- rewrite Hm.
           replace (e + 1 + 1074) with (1 + (e + 1074)) by lia.
           rewrite Z.pow_add_r by lia. rewrite H5352.
           change (2 ^ 1) with 2. ring.
        -- intros _. reflexivity.
  - destruct (Z.gtb_spec e 971) as [Hbig|Hfit].
    + left. split; [|reflexivity].
      assert (p * 2 ^ 1024 <= v * 2 ^ 0)
        by (apply (pow2_cross_le v p c' d'); lia).
      rewrite Z.pow_0_r in *. nia.
    + right. split; [apply Hbelow; lia|].
      eexists. split; [reflexivity|].
      unfold binary64, normal_form. cbn [f_neg f_mant f_exp].
      split; [reflexivity|]. split; [lia|]. split.
      * destruct Hlow as [->|Hlow]; [right; left; reflexivity|].
        left. apply H52. lia.
      * apply Hnear; cbn [f_neg f_mant f_exp]; auto.
Qed.

Lemma coprime_pow5_pow2 (i j : Z) :
  0 <= i -> 0 <= j -> Z.gcd (5 ^ i) (2 ^ j) = 1.
Proof.
  intros Hi Hj. apply Z.coprime_pow_l; [assumption|].
  apply Z.coprime_pow_r; [assumption|]. reflexivity.
Qed.

(** A binary float can equal [v / 10^d] only if [5^d] divides [v]. *)
Lemma exact_quotient_needs_pow5 (f : float) (v d : Z) :
  0 <= d -> float_is_quotient f v (10 ^ d) -> (5 ^ d | v).
Proof.
  intros Hd. unfold float_is_quotient.
  rewrite scale_den_eq, scale_num_eq.
  change 10 with (5 * 2). rewrite Z.pow_mul_l.
  set (s := if f_neg f then -1 else 1).
  intros Heq.
  apply (Z.gauss (5 ^ d) (2 ^ Z.max (- f_exp f) 0) v).
  - rewrite Z.mul_comm, <- Heq.
    exists (s * f_mant f * 2 ^ d * 2 ^ Z.max (f_exp f) 0). ring.
  - apply coprime_pow5_pow2; lia.
Qed.

(** C8, as stated, fails: [Amount(1, 1).normalized] is the float
    [7205759403792794 * 2^-56], which is not one tenth; and one wei at the
    default 18 decimals is not [10^-18] either. *)
Lemma normalized_one_tenth_is_inexact :
  new_Amount 1 1 = Return (mkAmount 1 1) /\
  normalized (mkAmount 1 1)
  = Some (Return (mkFloat false 7205759403792794 (-56))) /\
  ~ float_is_quotient (mkFloat false 7205759403792794 (-56)) 1 (10 ^ 1) /\
  normalized (mkAmount 1 default_decimals)
  = Some (Return (mkFloat false 5192296858534828 (-112))) /\
  ~ float_is_quotient (mkFloat false 5192296858534828 (-112)) 1
      (10 ^ default_decimals).
Proof.
  split_conj; try (vm_compute; reflexivity); vm_compute; discriminate.
Qed.

(** C8, amended: for every [Amount] (value at least 0 by construction)
    with a non-negative [decimals], [normalized] is the true division of
    two integers, a binary floating-point operation.  It raises
    [OverflowError] exactly when [value / 10^decimals] is at least
    [2^1024 - 2^970]; otherwise it returns the binary64 float nearest to
    [value / 10^decimals]: no binary64 is nearer, of two that are
    equally near the one with the even significand is returned, and the
    significand has its full 53 bits unless the float is subnormal or
    zero.  That float equals [value / 10^decimals] only if [5^decimals]
    divides [value]. *)
Theorem normalized_is_nearest_binary64
    (v d : Z) (a : Amount)
    (Ha : new_Amount v d = Return a) (Hd : 0 <= d) :
  (overflow_threshold * 10 ^ d <= v ->
   normalized a
   = Some (Raise (mkExc ArithmeticError
                        "integer division result too large for a float"))) /\
  (v < overflow_threshold * 10 ^ d ->
   exists f,
     normalized a = Some (Return f) /\
     f_neg f = false /\ binary64 f /\ normal_form f /\
     nearest_ties_to_even f v (10 ^ d) /\
     (float_is_quotient f v (10 ^ d) -> (5 ^ d | v))).
Proof.
  unfold new_Amount in Ha.
  destruct (Z.ltb_spec v 0) as [|Hv]; [discriminate|].
  injection Ha as <-.
  unfold normalized. cbn [decimals value].
  destruct (Z.ltb_spec d 0); [lia|].
  assert (Hp : 0 < 10 ^ d) by (apply Z.pow_pos_nonneg; lia).
  destruct (int_true_divide_spec v (10 ^ d) Hv Hp)
    as [[Hge Hraise]|[Hlt (f & Hret & Hs & Hb & Hn & Hnear)]].
  - split; [intros _; now rewrite Hraise|]. intros Hlt.
    exfalso. apply (Z.lt_irrefl v). eapply Z.lt_le_trans; eassumption.
  - split.
    + intros Hge. exfalso. apply (Z.lt_irrefl v).
      eapply Z.lt_le_trans; eassumption.
    + intros _. exists f. rewrite Hret.
      split; [reflexivity|]. split; [assumption|]. split; [assumption|].
      split; [assumption|]. split; [assumption|].
      now apply exact_quotient_needs_pow5.
Qed.

Lemma normalized_is_nearest_binary64_witness :
  exists f,
    normalized (mkAmount 1 1) = Some (Return f) /\
    f_neg f = false /\ binary64 f /\ normal_form f /\
    nearest_ties_to_even f 1 (10 ^ 1) /\
    (float_is_quotient f 1 (10 ^ 1) -> (5 ^ 1 | 1)).
Proof.
  refine (proj2 (normalized_is_nearest_binary64 1 1 (mkAmount 1 1) _ _) _).
  - reflexivity.
  - vm_compute. discriminate.
  - vm_compute. reflexivity.
Defined.

End Normalized.

(** ** The asset aggregate *)

Section Asset_aggregate.
Import Str PyDecimal AssetDomain AssetExamples.

Lemma lower_keeps_0x (s : string) :
  String.prefix "0x" s = true -> String.prefix "0x" (lower s) = true.
Proof.
  intros H. apply prefix_0x_iff in H as [t ->]. apply prefix_0x_iff.
  exists (lower t). reflexivity.
Qed.

Lemma validate_ethereum_address_Return (s c : string) :
  _validate_ethereum_address s = Return c ->
  c = lower s /\ canonical_address c.
Proof.
  unfold _validate_ethereum_address, canonical_address.
  destruct (String.prefix "0x" s) eqn:Hp; [|discriminate].
  destruct (Nat.eqb_spec (String.length s) 42) as [Hl|]; [|discriminate].
  cbn. intros [= <-].
  split_conj; auto using lower_idempotent, lower_keeps_0x.
Qed.

Lemma new_Asset_invariant id creator m r created now a :
  new_Asset id creator m r created now = Return a ->
  asset_invariant a /\ _creator_address a = lower creator /\
  _status a = DRAFT /\ _verification_status a = PENDING /\
  _domain_events a = [] /\ _asset_id a = id.
Proof.
  unfold new_Asset.
  destruct (_validate_ethereum_address creator) as [c|e] eqn:Hc;
    [|discriminate].
  cbn [bind]. intros [= <-].
  apply validate_ethereum_address_Return in Hc as [-> Hcan].
  unfold asset_invariant, is_minted; cbn.
  split_conj; try reflexivity; try discriminate; auto.
  - split; [discriminate|]. intros [H|[H|H]]; discriminate.
Qed.

Ltac case_call :=
  match goal with
  | |- context [is_minted ?a] => destruct (is_minted a) eqn:?
  | |- context [can_be_minted ?a] => destruct (can_be_minted a) eqn:?
  | |- context [String.eqb ?x ?y] => destruct (String.eqb x y) eqn:?
  | |- context [VerificationStatus_eqb ?x ?y] =>
      destruct (VerificationStatus_eqb x y) eqn:?
  | |- context [AssetStatus_eqb ?x ?y] => destruct (AssetStatus_eqb x y) eqn:?
  | |- context [_validate_ethereum_address ?x] =>
      destruct (_validate_ethereum_address x) eqn:?
  end.



Lemma call_keeps_identity (a : Asset) (c : Call) :
  _creator_address (snd (call a c)) = _creator_address a /\
  _asset_id (snd (call a c)) = _asset_id a /\
  _created_at (snd (call a c)) = _created_at a.
Proof.
  destruct c; cbn;
    unfold update_metadata, update_royalty_info, start_verification, verify,
      reject_verification, start_minting, complete_minting, list_for_sale,
      mark_as_sold; cbn;
    repeat (case_call; cbn); split_conj; reflexivity.
Qed.

Lemma calls_keep_identity (cs : list Call) :
  forall a,
    _creator_address (calls a cs) = _creator_address a /\
    _asset_id (calls a cs) = _asset_id a /\
    _created_at (calls a cs) = _created_at a.
Proof.
  induction cs as [|c cs IH]; intros a; cbn; [split_conj; reflexivity|].
  destruct (IH (snd (call a c))) as (H1 & H2 & H3).
  destruct (call_keeps_identity a c) as (K1 & K2 & K3).
  split_conj; congruence.
Qed.

Ltac unfold_calls :=
  unfold update_metadata, update_royalty_info, start_verification, verify,
    reject_verification, start_minting, complete_minting, list_for_sale,
    mark_as_sold, raise_ValueError, can_be_minted.



(** X2. A call that raises leaves the asset as it was, with one
    exception: [complete_minting] in the MINTING state with a malformed
    contract address raises after it has stored the token id; the status
    stays MINTING and no contract address is stored. *)
Theorem failed_call_leaves_asset_unchanged
    (a : Asset) (c : Call) (e : Exc)
    (Hfail : fst (call a c) = Raise e) :
  snd (call a c) = a \/
  exists token_id contract_address t1 t2,
    c = CompleteMinting token_id contract_address t1 t2 /\
    _status a = MINTING /\
    _validate_ethereum_address contract_address = Raise e /\
    snd (call a c) = set_token_id a (Some token_id).
Proof.
  revert Hfail.
  destruct c as [m1 u1 u2|r1 u1 u2|u1 u2|h1 v1 u1 u2|rs u1 u2|u1 u2
                |tk adr u1 u2|u1 u2|u1 u2|];
    cbn; unfold_calls; cbn; repeat (case_call; cbn);
    intros Hfail; try discriminate; auto.
  injection Hfail as <-. right.
  exists tk, adr, u1, u2. split_conj; auto.
  destruct (_status a); cbn in *; congruence.
Qed.

Lemma failed_call_leaves_asset_unchanged_witness :
  snd (call new_artwork (StartMinting 1 2)) = new_artwork \/
  exists token_id contract_address t1 t2,
    StartMinting 1 2 = CompleteMinting token_id contract_address t1 t2 /\
    _status new_artwork = MINTING /\
    _validate_ethereum_address contract_address
    = Raise (mkExc ValueError "Asset cannot be minted in current state") /\
    snd (call new_artwork (StartMinting 1 2))
    = set_token_id new_artwork (Some token_id).
Proof.
  apply (failed_call_leaves_asset_unchanged new_artwork (StartMinting 1 2)).
  reflexivity.
Defined.

Lemma call_status_rank (a : Asset) (c : Call) :
  _status a <> BURNED ->
  _status (snd (call a c)) <> BURNED /\
  (status_rank (_status a) <= status_rank (_status (snd (call a c))))%nat.
Proof.
  destruct a as [id cr m r ca st vs tid cad ch va ua ev].
  destruct c; cbn; unfold_calls; cbn;
    repeat (case_call; cbn); intros Hb; split; try assumption; try lia;
    try discriminate;
    destruct st; cbn in *; try lia; try discriminate; congruence.
Qed.

(** X3. The status never moves backwards and BURNED is never entered:
    along any sequence of calls from a state that is not BURNED, the rank
    DRAFT < MINTING < MINTED < LISTED = SOLD of the status does not
    decrease. *)
Theorem status_never_goes_back (a : Asset) (cs : list Call)
    (Hb : _status a <> BURNED) :
  _status (calls a cs) <> BURNED /\
  (status_rank (_status a) <= status_rank (_status (calls a cs)))%nat.
Proof.
  revert a Hb. induction cs as [|c cs IH]; intros a Hb; cbn;
    [split; [assumption|lia]|].
  destruct (call_status_rank a c Hb) as [Hb' Hle].
  destruct (IH (snd (call a c)) Hb') as [Hb'' Hle'].
  split; [assumption|lia].
Qed.

Lemma status_never_goes_back_witness :
  _status (calls new_artwork minting_calls) <> BURNED /\
  (status_rank (_status new_artwork)
   <= status_rank (_status (calls new_artwork minting_calls)))%nat.
Proof.
  apply (status_never_goes_back new_artwork minting_calls). discriminate.
Defined.






(** X5. [update_royalty_info] accepts a royalty exactly when its recipient
    is, character for character, the stored creator address, which is the
    lower-case form of the constructor's argument.  So after any sequence
    of calls, a royalty whose recipient spells the creator's address with
    a capital letter is refused with "Only creator can update royalty
    info", even when it is the very string the asset was created with. *)
Theorem royalty_update_needs_lower_case_recipient
    (id : AssetId) (creator : string) (m : AssetMetadata) (r : RoyaltyInfo)
    (created : option Z) (now : Z) (a : Asset) (cs : list Call)
    (new_royalty_info : RoyaltyInfo) (t1 t2 : Z)
    (Hnew : new_Asset id creator m r created now = Return a) :
  (fst (update_royalty_info (calls a cs) new_royalty_info t1 t2) = Return tt
   <-> recipient new_royalty_info = lower creator) /\
  (recipient new_royalty_info <> lower (recipient new_royalty_info) ->
   update_royalty_info (calls a cs) new_royalty_info t1 t2
   = (Raise (mkExc ValueError "Only creator can update royalty info"),
      calls a cs)).
Proof.
  apply new_Asset_invariant in Hnew as (_ & Hcr & _).
  destruct (calls_keep_identity cs a) as (K1 & _).
  unfold update_royalty_info, raise_ValueError. rewrite K1, Hcr.
  destruct (String.eqb_spec (recipient new_royalty_info) (lower creator))
    as [Heq|Hne]; cbn.
  - split; [tauto|]. intros Hcase. exfalso. apply Hcase.
    rewrite Heq. symmetry. apply lower_idempotent.
  - split; [|reflexivity]. split; [discriminate|contradiction].
Qed.

Lemma royalty_update_needs_lower_case_recipient_witness :
  update_royalty_info (calls new_artwork minting_calls) creator_royalty 30 31
  = (Raise (mkExc ValueError "Only creator can update royalty info"),
     calls new_artwork minting_calls).
Proof.
  apply (royalty_update_needs_lower_case_recipient
           (mkAssetId "asset-1") creator_mixed_case artwork creator_royalty
           (Some 10) 0 new_artwork minting_calls creator_royalty 30 31
           eq_refl).
  discriminate.
Defined.

Lemma call_verification (a : Asset) (c : Call) :
  _verification_attempts (snd (call a c))
  = _verification_attempts a + verifications_started a [c] /\
  (_verification_status a <> PENDING ->
   _verification_status (snd (call a c)) <> PENDING /\
   verifications_started a [c] = 0).
Proof.
  destruct a as [id cr m r ca st vs tid cad ch va ua ev].
  destruct c; cbn; unfold returns_normally; cbn; unfold_calls; cbn;
    repeat (case_call; cbn); split; try lia; intros Hp;
    try (split; [assumption || discriminate|reflexivity]);
    destruct vs; cbn in *; try discriminate; congruence.
Qed.

(** X6. [_verification_attempts] counts the calls of [start_verification]
    that returned normally; and once the verification status has left
    PENDING (after [verify] or [reject_verification]) it never comes back
    to it, so every later [start_verification] raises and the count stays
    where it is. *)
Theorem verification_attempts_count_started (a : Asset) (cs : list Call) :
  _verification_attempts (calls a cs)
  = _verification_attempts a + verifications_started a cs /\
  (_verification_status a <> PENDING ->
   _verification_status (calls a cs) <> PENDING /\
   _verification_attempts (calls a cs) = _verification_attempts a).
Proof.
  revert a. induction cs as [|c cs IH]; intros a.
  - cbn. split; [lia|]. intros H. split; [assumption|reflexivity].
  - destruct (call_verification a c) as [Hc Hp].
    destruct (IH (snd (call a c))) as [Hcs Hps].
    cbn [calls verifications_started] in *. split; [lia|].
    intros Hnp. destruct (Hp Hnp) as [Hnp' Hz].
    destruct (Hps Hnp') as [Hfin Heq]. split; [assumption|]. lia.
Qed.

Lemma call_events (a : Asset) (c : Call) :
  is_drain c = false ->
  exists new,
    _domain_events (snd (call a c)) = (_domain_events a ++ new)%list /\
    length new = completed a [c] /\
    Forall (fun ev => aggregate_id ev = AssetId_str (_asset_id a)) new.
Proof.
  intros Hd.
  destruct c; try discriminate; cbn; unfold returns_normally; cbn;
    unfold_calls; cbn; repeat (case_call; cbn);
    try (exists []; rewrite app_nil_r; split_conj;
         [reflexivity|reflexivity|constructor]);
    eexists [_]; split_conj; try reflexivity; repeat constructor.
Qed.

(** X7. Between two calls of [get_domain_events] the log grows by exactly
    one event per call that returns normally and by none per call that
    raises, in call order; every event carries the asset's id as
    aggregate id; [get_domain_events] hands the log over and empties it,
    so calling it again at once gives the empty list. *)
Theorem domain_events_are_recorded_once
    (a : Asset) (cs : list Call)
    (Hnodrain : forallb (fun c => negb (is_drain c)) cs = true) :
  exists new,
    fst (get_domain_events (calls a cs)) = (_domain_events a ++ new)%list /\
    length new = completed a cs /\
    Forall (fun ev => aggregate_id ev = AssetId_str (_asset_id a)) new /\
    fst (get_domain_events (snd (get_domain_events (calls a cs)))) = [].
Proof.
  revert a Hnodrain. induction cs as [|c cs IH]; intros a Hnd; cbn in *.
  - exists []. rewrite app_nil_r. split_conj; auto.
  - apply andb_true_iff in Hnd as [Hc Hcs].
    apply negb_true_iff in Hc.
    destruct (call_events a c Hc) as (n1 & E1 & L1 & F1).
    destruct (IH (snd (call a c)) Hcs) as (n2 & E2 & L2 & F2 & D2).
    exists (n1 ++ n2)%list. cbn in *.
    destruct (call_keeps_identity a c) as (_ & Kid & _).
    rewrite Kid in F2.
    split_conj.
    + rewrite E2, E1, app_assoc. reflexivity.
    + rewrite length_app, L1, L2, Hc. cbn. lia.
    + apply Forall_app. split; assumption.
    + reflexivity.
Qed.

Lemma domain_events_are_recorded_once_witness :
  exists new,
    fst (get_domain_events (calls new_artwork minting_calls))
    = (_domain_events new_artwork ++ new)%list /\
    length new = 4%nat.
Proof.
  destruct (domain_events_are_recorded_once new_artwork minting_calls
              eq_refl) as (new & E & L & _).
  exists new. split; [exact E|]. rewrite L. reflexivity.
Defined.

Lemma lstrip_empty_iff (s : string) : lstrip s = "" <-> all_space s = true.
Proof.
  induction s as [|c s IH]; cbn; [tauto|].
  destruct (isspace c); cbn; [exact IH|]. split; discriminate.
Qed.

Lemma rstrip_empty_iff (s : string) : rstrip s = "" <-> all_space s = true.
Proof.
  induction s as [|c s IH]; cbn; [tauto|].
  destruct (rstrip s) as [|d r] eqn:Hr.
  - destruct (isspace c); cbn.
    + split; [intros _; now apply IH|reflexivity].
    + split; discriminate.
  - split; [discriminate|]. intros H. apply andb_true_iff in H as [_ H].
    apply IH in H. discriminate.
Qed.

Lemma lstrip_all_space (s : string) :
  all_space (lstrip s) = all_space s.
Proof.
  induction s as [|c s IH]; cbn; [reflexivity|].
  destruct (isspace c) eqn:Hc; cbn; [exact IH|]. now rewrite Hc.
Qed.

Lemma strip_empty_iff (s : string) : strip s = "" <-> all_space s = true.
Proof.
  unfold strip. rewrite rstrip_empty_iff, lstrip_all_space. tauto.
Qed.

(** X8. [AssetMetadata] is accepted exactly when the title contains a
    character that is not white space, has at most 200 characters, and
    the description has at most 2000; a title made of white space only is
    refused as empty. *)
Theorem asset_metadata_validation
    (title description : string) (image_uri metadata_uri : IPFSHash)
    (tags : list string) (attributes : list (string * string)) :
  (all_space title = false /\
   (String.length title <= 200)%nat /\
   (String.length description <= 2000)%nat ->
   new_AssetMetadata title description image_uri metadata_uri tags attributes
   = Return (mkAssetMetadata title description image_uri metadata_uri
                             tags attributes)) /\
  (all_space title = true ->
   new_AssetMetadata title description image_uri metadata_uri tags attributes
   = Raise (mkExc ValueError "Title cannot be empty")) /\
  (all_space title = false -> (200 < String.length title)%nat ->
   new_AssetMetadata title description image_uri metadata_uri tags attributes
   = Raise (mkExc ValueError "Title cannot exceed 200 characters")) /\
  (all_space title = false -> (String.length title <= 200)%nat ->
   (2000 < String.length description)%nat ->
   new_AssetMetadata title description image_uri metadata_uri tags attributes
   = Raise (mkExc ValueError "Description cannot exceed 2000 characters")).
Proof.
  unfold new_AssetMetadata.
  pose proof (strip_empty_iff title) as Hs.
  destruct (String.eqb_spec (strip title) "") as [He|Hne].
  - apply Hs in He. rewrite He.
    split_conj; try reflexivity; intros; intuition discriminate.
  - assert (Hsp : all_space title = false).
    { destruct (all_space title); [|reflexivity].
      exfalso. apply Hne, Hs. reflexivity. }
    rewrite Hsp.
    destruct (Nat.ltb_spec 200 (String.length title));
      destruct (Nat.ltb_spec 2000 (String.length description));
      split_conj; try reflexivity; intros; try discriminate;
      try lia; intuition lia.
Qed.

End Asset_aggregate.

(** ** The plugin manager *)

Section Plugin_manager.
Import Plugins PluginExamples.

Lemma dependencies_met_iff (loaded : list PluginClass) (p : PluginClass) :
  dependencies_met loaded p = true <->
  forall dep, In dep (dependencies (metadata p)) -> In dep (map plugin_name loaded).
Proof.
  unfold dependencies_met. rewrite forallb_forall.
  split; intros H dep Hd; specialize (H dep Hd).
  - apply existsb_exists in H as [x [Hx He]].
    apply String.eqb_eq in He. now subst.
  - apply existsb_exists. exists dep. split; [assumption|].
    apply String.eqb_refl.
Qed.

Lemma dependencies_met_more (l extra : list PluginClass) (p : PluginClass) :
  dependencies_met l p = true -> dependencies_met (l ++ extra) p = true.
Proof.
  rewrite !dependencies_met_iff. intros H dep Hd.
  rewrite map_app, in_app_iff. left. auto.
Qed.

Lemma dependency_order_snoc (l : list PluginClass) (p : PluginClass) :
  dependency_order l -> dependencies_met l p = true ->
  dependency_order (l ++ [p]).
Proof.
  intros Hl Hp before q after Heq dep Hd.
  destruct after as [|x after].
  - apply app_inj_tail in Heq as [<- <-].
    now apply dependencies_met_iff with (p := p).
  - assert (Hsplit : l = (before ++ q :: removelast (x :: after))%list).
    { apply (f_equal (@removelast _)) in Heq.
      rewrite removelast_last in Heq. rewrite Heq.
      rewrite removelast_app by discriminate.
      change (q :: x :: after) with ([q] ++ x :: after)%list.
      rewrite removelast_app by discriminate. reflexivity. }
    exact (Hl before q _ Hsplit dep Hd).
Qed.

(** One round: the plugins placed are appended to both lists; together
    with the ones passed over they make up the round's input; a round
    that places nothing found every plugin wanting. *)
Lemma resolve_round_spec (remaining : list PluginClass) :
  forall loaded this_round,
    dependency_order loaded ->
    exists placed skipped,
      resolve_round remaining loaded this_round
      = ((loaded ++ placed)%list, (this_round ++ placed)%list) /\
      Permutation remaining (placed ++ skipped) /\
      dependency_order (loaded ++ placed) /\
      (placed = [] ->
       forall p, In p remaining -> dependencies_met loaded p = false).
Proof.
  induction remaining as [|p rest IH]; intros loaded this_round Hord; cbn.
  - exists [], []. rewrite !app_nil_r. split_conj; auto. intros _ p [].
  - destruct (dependencies_met loaded p) eqn:Hp.
    + destruct (IH (loaded ++ [p])%list (this_round ++ [p])%list
                  (dependency_order_snoc _ _ Hord Hp))
        as (placed & skipped & Heq & Hperm & Hord' & _).
      exists (p :: placed), skipped.
      rewrite <- !app_assoc in Heq. rewrite <- app_assoc in Hord'.
      split_conj; auto.
      * cbn. now apply perm_skip.
      * discriminate.
    + destruct (IH loaded this_round Hord)
        as (placed & skipped & Heq & Hperm & Hord' & Hnone).
      exists placed, (p :: skipped).
      split_conj; auto.
      * rewrite Hperm. apply Permutation_middle.
      * intros -> q [<-|Hq]; [assumption|]. now apply Hnone.
Qed.

Lemma list_remove_perm (p : PluginClass) (l : list PluginClass) :
  NoDup (map plugin_name l) -> In p l -> Permutation l (p :: list_remove p l).
Proof.
  induction l as [|q l IH]; intros Hnd Hin; [destruct Hin|].
  cbn in *. inversion Hnd as [|? ? Hq Hnd']; subst.
  destruct (String.eqb_spec (plugin_name q) (plugin_name p)) as [He|Hne].
  - destruct Hin as [->|Hin]; [reflexivity|].
    exfalso. apply Hq. rewrite He. now apply in_map.
  - destruct Hin as [->|Hin]; [contradiction|].
    rewrite (IH Hnd' Hin) at 1. apply perm_swap.
Qed.

Lemma remove_all_perm (placed : list PluginClass) :
  forall l skipped,
    NoDup (map plugin_name l) -> Permutation l (placed ++ skipped) ->
    Permutation (remove_all placed l) skipped.
Proof.
  induction placed as [|p placed IH]; intros l skipped Hnd Hperm; cbn.
  - assumption.
  - assert (Hin : In p l).
    { apply (Permutation_in p (Permutation_sym Hperm)). now left. }
    pose proof (list_remove_perm p l Hnd Hin) as Hrm.
    apply IH.
    + apply (Permutation_map plugin_name) in Hrm.
      apply (Permutation_NoDup Hrm) in Hnd. now inversion Hnd.
    + apply Permutation_cons_inv with (a := p).
      rewrite <- Hrm. exact Hperm.
Qed.

(** What the loop returns, from a state in which [loaded] is in
    dependency order and, with [remaining], makes up all the plugins. *)
Lemma resolve_loop_spec (all : list PluginClass) (Hnd : NoDup (map plugin_name all)) :
  forall fuel loaded remaining,
    (length remaining <= fuel)%nat ->
    Permutation (loaded ++ remaining) all ->
    dependency_order loaded ->
    exists res,
      resolve_loop fuel loaded remaining = Some res /\
      match res with
      | Loaded order => Permutation order all /\ dependency_order order
      | CannotResolve ns =>
          exists placed stuck,
            Permutation (placed ++ stuck) all /\
            stuck <> [] /\ ns = map plugin_name stuck /\
            dependency_order placed /\
            forall p, In p stuck -> dependencies_met placed p = false
      end.
Proof.
  induction fuel as [|fuel IH]; intros loaded remaining Hfuel Hperm Hord.
  - destruct remaining; [|cbn in Hfuel; lia].
    exists (Loaded loaded). rewrite app_nil_r in Hperm. cbn. auto.
  - destruct remaining as [|r0 rest].
    { exists (Loaded loaded). rewrite app_nil_r in Hperm. cbn. auto. }
    cbn [resolve_loop].
    destruct (resolve_round_spec (r0 :: rest) loaded [] Hord)
      as (placed & skipped & Heq & Hsplit & Hord' & Hnone).
    rewrite Heq. cbn [app].
    destruct placed as [|p placed].
    + exists (CannotResolve (map plugin_name (r0 :: rest))).
      split; [reflexivity|].
      exists loaded, (r0 :: rest). split_conj; auto. discriminate.
    + assert (Hndr : NoDup (map plugin_name (r0 :: rest))).
      { apply (Permutation_map plugin_name) in Hperm.
        apply Permutation_sym in Hperm.
        apply (Permutation_NoDup Hperm) in Hnd.
        rewrite map_app in Hnd. now apply NoDup_app_remove_l in Hnd. }
      pose proof (remove_all_perm (p :: placed) (r0 :: rest) skipped Hndr
                    Hsplit) as Hrest.
      apply IH.
      * rewrite (Permutation_length Hrest).
        apply Permutation_length in Hsplit.
        rewrite length_app in Hsplit. cbn in Hsplit, Hfuel. cbn. lia.
      * rewrite Hrest, <- app_assoc, <- Hsplit. exact Hperm.
      * exact Hord'.
Qed.

Lemma registry_names (r : PluginRegistry) :
  registry_ok r ->
  map plugin_name (sdict_values (_plugins r)) = sdict_keys (_plugins r).
Proof.
  intros (_ & Hname & _). unfold sdict_values, sdict_keys.
  rewrite map_map. apply map_ext_in. intros [n c] Hin. cbn.
  now apply Hname.
Qed.

Lemma dependency_order_nil : dependency_order [].
Proof. intros before p after Heq. destruct before; discriminate. Qed.







Lemma existsb_eqb_In (k : string) (l : list string) :
  existsb (String.eqb k) l = true <-> In k l.
Proof.
  rewrite existsb_exists. split.
  - intros [x [Hx He]]. apply String.eqb_eq in He. now subst.
  - intros H. exists k. split; [assumption|apply String.eqb_refl].
Qed.






Lemma resolve_dependencies_spec (r : PluginRegistry) :
  registry_ok r ->
  exists res,
    _resolve_dependencies r = Some res /\
    match res with
    | Loaded order =>
        Permutation order (sdict_values (_plugins r)) /\
        dependency_order order
    | CannotResolve ns =>
        exists placed stuck,
          Permutation (placed ++ stuck) (sdict_values (_plugins r)) /\
          stuck <> [] /\ ns = map plugin_name stuck /\
          dependency_order placed /\
          forall p, In p stuck -> dependencies_met placed p = false
    end.
Proof.
  intros Hok. unfold _resolve_dependencies.
  apply resolve_loop_spec.
  - rewrite (registry_names r Hok). apply Hok.
  - lia.
  - reflexivity.
  - apply dependency_order_nil.
Qed.

(** X10. On a registry built by [register_plugin],
    [_resolve_dependencies] ends within as many rounds as there are
    plugins; when it returns, the load order holds every registered
    plugin exactly once and every plugin comes after all the plugins it
    names as dependencies. *)
Theorem resolve_dependencies_order
    (r : PluginRegistry) (Hok : registry_ok r) :
  exists res,
    _resolve_dependencies r = Some res /\
    forall order,
      res = Loaded order ->
      Permutation order (sdict_values (_plugins r)) /\
      dependency_order order.
Proof.
  destruct (resolve_dependencies_spec r Hok) as (res & Hres & Hspec).
  exists res. split; [assumption|]. intros order ->. exact Hspec.
Qed.

(** X11. When [_resolve_dependencies] raises, the names in its message are
    those of the plugins it could not place, there is at least one, and
    each of them names a dependency that is not among the plugins placed:
    a name that is not registered, or the name of another plugin that
    could not be placed either (a cycle). *)
Theorem resolve_dependencies_failure
    (r : PluginRegistry) (ns : list string) (Hok : registry_ok r)
    (Hfail : _resolve_dependencies r = Some (CannotResolve ns)) :
  exists placed stuck,
    Permutation (placed ++ stuck) (sdict_values (_plugins r)) /\
    stuck <> [] /\ ns = map plugin_name stuck /\
    forall p, In p stuck ->
      exists dep,
        In dep (dependencies (metadata p)) /\
        ~ In dep (map plugin_name placed) /\
        (In dep ns \/ get_plugin r dep = None).
Proof.
  destruct (resolve_dependencies_spec r Hok) as (res & Hres & Hspec).
  rewrite Hfail in Hres. injection Hres as <-.
  destruct Hspec as (placed & stuck & Hperm & Hne & -> & _ & Hstuck).
  exists placed, stuck. split_conj; auto.
  intros p Hp. specialize (Hstuck p Hp).
  unfold dependencies_met in Hstuck.
  assert (Hex : exists dep, In dep (dependencies (metadata p)) /\
                  existsb (String.eqb dep) (map plugin_name placed) = false).
  { clear - Hstuck. induction (dependencies (metadata p)) as [|d ds IH];
      cbn in *; [discriminate|].
    destruct (existsb (String.eqb d) (map plugin_name placed)) eqn:Hd.
    - destruct (IH Hstuck) as [dep [Hin He]]. exists dep. auto.
    - exists d. auto. }
  destruct Hex as (dep & Hin & He).
  exists dep. split_conj; [assumption| |].
  - intros Hc. apply existsb_eqb_In in Hc. congruence.
  - destruct (in_dec string_dec dep (map plugin_name stuck)) as [|Hns];
      [now left|right].
    unfold get_plugin.
    destruct (sdict_get (_plugins r) dep) as [c|] eqn:Hg; [|reflexivity].
    exfalso.
    assert (Hk : In dep (sdict_keys (_plugins r))).
    { clear - Hg. induction (_plugins r) as [|[k v] d IH]; cbn in *;
        [discriminate|].
      destruct (String.eqb_spec k dep); auto. }
    rewrite <- (registry_names r Hok) in Hk.
    apply (Permutation_in dep
             (Permutation_sym (Permutation_map plugin_name Hperm))) in Hk.
    rewrite map_app, in_app_iff in Hk. destruct Hk as [Hk|Hk].
    + apply existsb_eqb_In in Hk. congruence.
    + contradiction.
Qed.

(** X12. [_resolve_dependencies] succeeds exactly when the registered
    plugins can be put in some order in which each comes after its
    dependencies: it never gives up on a registry that has such an
    order. *)
Theorem resolve_dependencies_complete
    (r : PluginRegistry) (Hok : registry_ok r) :
  (exists order, _resolve_dependencies r = Some (Loaded order)) <->
  (exists good,
     Permutation good (sdict_values (_plugins r)) /\ dependency_order good).
Proof.
  destruct (resolve_dependencies_spec r Hok) as (res & Hres & Hspec).
  split.
  - intros [order Ho]. rewrite Ho in Hres. injection Hres as <-.
    exists order. exact Hspec.
  - intros (good & Hgood & Hord).
    destruct res as [order|ns]; [now exists order|exfalso].
    destruct Hspec as (placed & stuck & Hperm & Hne & _ & _ & Hstuck).
    assert (Hnd : NoDup (map plugin_name (placed ++ stuck))).
    { apply (Permutation_NoDup
               (Permutation_sym (Permutation_map plugin_name Hperm))).
      rewrite (registry_names r Hok). apply Hok. }
    assert (Hall : forall before after,
               good = (before ++ after)%list ->
               forall q, In q before -> In q placed).
    { induction before as [|p before IH] using rev_ind;
        intros after Heq q Hq; [destruct Hq|].
      rewrite <- app_assoc in Heq. cbn in Heq.
      specialize (IH _ Heq).
      apply in_app_iff in Hq as [Hq|[<-|[]]]; [now apply IH|].
      assert (Hmet : dependencies_met placed p = true).
      { apply dependencies_met_iff. intros dep Hd.
        pose proof (Hord before p after Heq dep Hd) as Hin.
        apply in_map_iff in Hin as (x & <- & Hx).
        apply in_map. now apply IH. }
      assert (Hp : In p (placed ++ stuck)).
      { apply (Permutation_in p (Permutation_sym Hperm)).
        apply (Permutation_in p Hgood). rewrite Heq.
        apply in_app_iff. right. now left. }
      apply in_app_iff in Hp as [Hp|Hp]; [assumption|].
      rewrite (Hstuck p Hp) in Hmet. discriminate. }
    destruct stuck as [|q stuck]; [contradiction|].
    assert (Hq : In q placed).
    { apply (Hall good [] (eq_sym (app_nil_r good))).
      apply (Permutation_in q (Permutation_sym Hgood)).
      apply (Permutation_in q Hperm). apply in_app_iff. right. now left. }
    rewrite map_app in Hnd. cbn in Hnd.
    apply NoDup_remove_2 in Hnd. apply Hnd.
    apply in_app_iff. left. now apply in_map.
Qed.


Lemma registry_of_ok (l : list PluginClass) :
  NoDup (map plugin_name l) -> registry_ok (registry_of l).
Proof.
  intros Hnd. unfold registry_ok, registry_of, sdict_keys; cbn.
  rewrite !map_map. cbn. split_conj.
  - exact Hnd.
  - intros n c Hin. apply in_map_iff in Hin as (x & [= <- <-] & _).
    reflexivity.
  - reflexivity.
Qed.

Lemma five_plugins_ok : registry_ok five_plugins.
Proof.
  apply registry_of_ok. cbn.
  repeat constructor; cbn; intuition discriminate.
Qed.

Lemma report_alone_ok : registry_ok report_alone.
Proof.
  apply registry_of_ok. cbn. repeat constructor. intros [].
Qed.

Lemma resolve_dependencies_order_witness :
  exists res,
    _resolve_dependencies five_plugins = Some res /\
    forall order,
      res = Loaded order ->
      Permutation order (sdict_values (_plugins five_plugins)) /\
      dependency_order order.
Proof. exact (resolve_dependencies_order five_plugins five_plugins_ok). Defined.

(** The five plugins are placed in two rounds: the three without
    requirements in the first, [checkout] and [report] in the second. *)
Example resolve_five_plugins :
  _resolve_dependencies five_plugins
  = Some (Loaded [StripePaymentProcessor; audit_off; ERC20TokenHandler;
                  checkout; report]).
Proof. vm_compute. reflexivity. Qed.

Lemma resolve_dependencies_failure_witness :
  exists placed stuck,
    Permutation (placed ++ stuck) (sdict_values (_plugins report_alone)) /\
    stuck <> [] /\ ["report"] = map plugin_name stuck /\
    forall p, In p stuck ->
      exists dep,
        In dep (dependencies (metadata p)) /\
        ~ In dep (map plugin_name placed) /\
        (In dep ["report"] \/ get_plugin report_alone dep = None).
Proof.
  apply (resolve_dependencies_failure report_alone ["report"] report_alone_ok).
  vm_compute. reflexivity.
Defined.

Lemma resolve_dependencies_complete_witness :
  (exists order, _resolve_dependencies five_plugins = Some (Loaded order)) <->
  (exists good,
     Permutation good (sdict_values (_plugins five_plugins))
     /\ dependency_order good).
Proof.
  exact (resolve_dependencies_complete five_plugins five_plugins_ok).
Defined.

Lemma sdict_set_fresh {V : Type} (d : list (string * V)) (k : string) (v : V) :
  ~ In k (sdict_keys d) -> sdict_set d k v = (d ++ [(k, v)])%list.
Proof.
  induction d as [|[k' v'] d IH]; cbn; intros Hk; [reflexivity|].
  destruct (String.eqb_spec k' k) as [->|Hne]; [tauto|].
  rewrite IH by tauto. reflexivity.
Qed.

Lemma sdict_get_None {V : Type} (d : list (string * V)) (k : string) :
  ~ In k (sdict_keys d) -> sdict_get d k = None.
Proof.
  induction d as [|[k' v'] d IH]; cbn; intros Hk; [reflexivity|].
  destruct (String.eqb_spec k' k) as [->|Hne]; [tauto|]. apply IH. tauto.
Qed.

Lemma fold_load_one (todo : list PluginClass) :
  forall (done : list PluginClass) (m : PluginManager),
    NoDup (map plugin_name (done ++ todo)) ->
    _active_plugins m = active_entries done ->
    _active_plugins (fold_left load_one todo m) = active_entries (done ++ todo)
    /\ _registry (fold_left load_one todo m) = _registry m.
Proof.
  induction todo as [|p todo IH]; intros done m Hnd Hact; cbn.
  - rewrite app_nil_r. auto.
  - replace (done ++ p :: todo)%list with ((done ++ [p]) ++ todo)%list in *
      by (rewrite <- app_assoc; reflexivity).
    assert (Hstep : _active_plugins (load_one m p) = active_entries (done ++ [p])
                    /\ _registry (load_one m p) = _registry m).
    { unfold load_one, active_entries, loads_ok.
      rewrite filter_app, map_app. cbn.
      destruct (enabled (metadata p)); cbn;
        [|rewrite app_nil_r; auto].
      destruct (initialize p); cbn; [|rewrite app_nil_r; auto].
      split; [|reflexivity].
      rewrite Hact. apply sdict_set_fresh.
      unfold active_entries, sdict_keys. rewrite map_map. cbn.
      intros Hin. apply in_map_iff in Hin as (q & Hq & Hin).
      apply filter_In in Hin as [Hin _].
      rewrite !map_app in Hnd. cbn in Hnd.
      apply NoDup_app_remove_r in Hnd.
      apply NoDup_remove_2 in Hnd. rewrite app_nil_r in Hnd.
      apply Hnd. rewrite <- Hq. now apply in_map. }
    destruct Hstep as [Hs1 Hs2].
    destruct (IH (done ++ [p])%list (load_one m p) Hnd Hs1) as [H1 H2].
    split; [assumption|congruence].
Qed.

(** X13. After [_load_plugins] on a fresh manager, the active plugins are
    the plugins of the load order that are enabled and whose
    [initialize] returned, in load order.  Whether a plugin's
    dependencies are themselves active plays no part: a plugin is
    activated even when a plugin it depends on is disabled or failed to
    initialise.  A registered plugin that is disabled or failed is not
    active, and [execute_plugin_method] on it raises [ValueError]. *)
Theorem load_plugins_activates_enabled
    (r : PluginRegistry) (order : list PluginClass)
    (Hok : registry_ok r)
    (Hres : _resolve_dependencies r = Some (Loaded order)) :
  exists m,
    _load_plugins (mkPluginManager r [] []) = Some (inl m) /\
    sdict_values (_active_plugins m) = filter loads_ok order /\
    get_active_plugins m = map metadata (filter loads_ok order) /\
    forall p method_name,
      In p order -> loads_ok p = false ->
      raised_class (execute_plugin_method m (plugin_name p) method_name)
      = Some ValueError.
Proof.
  destruct (resolve_dependencies_spec r Hok) as (res & Hres' & Hspec).
  rewrite Hres in Hres'. injection Hres' as <-.
  destruct Hspec as [Hperm _].
  assert (Hnd : NoDup (map plugin_name order)).
  { apply (Permutation_NoDup
             (Permutation_sym (Permutation_map plugin_name Hperm))).
    rewrite (registry_names r Hok). apply Hok. }
  unfold _load_plugins. cbn [_registry]. rewrite Hres.
  eexists. split; [reflexivity|].
  destruct (fold_load_one order [] (mkPluginManager r [] []) Hnd eq_refl)
    as [Hact _].
  cbn [app] in Hact.
  assert (Hvals : sdict_values (_active_plugins
                                  (fold_left load_one order
                                             (mkPluginManager r [] [])))
                  = filter loads_ok order).
  { rewrite Hact. unfold active_entries, sdict_values.
    rewrite map_map. cbn. apply map_id. }
  split_conj.
  - exact Hvals.
  - unfold get_active_plugins. now rewrite Hvals.
  - intros p method_name Hp Hno.
    unfold execute_plugin_method. rewrite Hact.
    rewrite sdict_get_None; [reflexivity|].
    unfold active_entries, sdict_keys. rewrite map_map. cbn.
    intros Hin. apply in_map_iff in Hin as (q & Hq & Hin).
    apply filter_In in Hin as [Hin Hqok].
    assert (q = p); [|congruence].
    clear - Hnd Hq Hin Hp.
    induction order as [|x order IH]; [destruct Hp|].
    cbn in Hnd. inversion Hnd as [|? ? Hx Hnd']; subst.
    destruct Hin as [->|Hin], Hp as [->|Hp]; auto.
    + exfalso. apply Hx. rewrite Hq. now apply in_map.
    + exfalso. apply Hx. rewrite <- Hq. now apply in_map.
Qed.

Lemma load_plugins_activates_enabled_witness :
  exists m,
    _load_plugins (mkPluginManager five_plugins [] []) = Some (inl m) /\
    sdict_values (_active_plugins m)
    = [StripePaymentProcessor; ERC20TokenHandler; checkout; report].
Proof.
  destruct (load_plugins_activates_enabled five_plugins
              [StripePaymentProcessor; audit_off; ERC20TokenHandler;
               checkout; report] five_plugins_ok eq_refl)
    as (m & H1 & H2 & _).
  exists m. split; [exact H1|exact H2].
Defined.

End Plugin_manager.

(** ** Retrying *)

Section Retrying.
Import Retry MoreExamples.

Context {A : Type}.
Variable func : nat -> result A.
Variable max_retries : Z.

Lemma wait_time_below (attempt : nat) :
  Z.of_nat attempt < 1024 ->
  wait_time attempt = Return (2 ^ Z.of_nat attempt).
Proof.
  intros H. unfold wait_time.
  destruct (Z.leb_spec 1024 (Z.of_nat attempt)); [lia|reflexivity].
Qed.

Lemma wait_time_overflow (attempt : nat) :
  1024 <= Z.of_nat attempt ->
  wait_time attempt
  = Raise (mkExc ArithmeticError "int too large to convert to float").
Proof.
  intros H. unfold wait_time.
  destruct (Z.leb_spec 1024 (Z.of_nat attempt)); [reflexivity|lia].
Qed.



(** Attempt number 1024 fails and is not the last one: the handler
    raises [OverflowError]. *)
Lemma retry_loop_overflows (j : nat) :
  forall (n attempt : nat) (sleeps : list Z),
    (j < n)%nat ->
    Z.of_nat (attempt + j) = 1024 ->
    1025 < max_retries ->
    (forall i, (i <= j)%nat -> exists e, func (attempt + i) = Raise e) ->
    retry_loop func max_retries n attempt sleeps
    = mkRetried
        (Raise (mkExc ArithmeticError "int too large to convert to float"))
        (S (attempt + j))
        (sleeps ++ map (fun i => 2 ^ Z.of_nat i) (seq attempt j)).
Proof.
  induction j as [|j IH]; intros n attempt sleeps Hn Hat Hmax Hfail.
  - destruct n; [lia|]. cbn [retry_loop seq map].
    destruct (Hfail 0%nat ltac:(lia)) as [e He].
    rewrite Nat.add_0_r in *. rewrite He, app_nil_r.
    destruct (Z.eqb_spec (Z.of_nat attempt) (max_retries - 1)); [lia|].
    rewrite wait_time_overflow by lia. reflexivity.
  - destruct n; [lia|]. cbn [retry_loop].
    destruct (Hfail 0%nat ltac:(lia)) as [e He].
    rewrite Nat.add_0_r in He. rewrite He.
    destruct (Z.eqb_spec (Z.of_nat attempt) (max_retries - 1)); [lia|].
    rewrite wait_time_below by lia.
    rewrite (IH n (S attempt)).
    + cbn [seq map]. rewrite <- app_assoc. cbn [app].
      f_equal. lia.
    + lia.
    + lia.
    + assumption.
    + intros i Hi. replace (S attempt + i)%nat with (attempt + S i)%nat by lia.
      apply Hfail. lia.
Qed.




End Retrying.

Section Retrying_examples.
Import Retry MoreExamples.



(** With [max_retries = 2000] and a function that always raises, the run
    ends after 1025 calls. *)
Example retry_overflows_at_attempt_1024 :
  retried_result (_retry_on_failure never_works 2000)
  = Raise (mkExc ArithmeticError "int too large to convert to float") /\
  retried_calls (_retry_on_failure never_works 2000) = Z.to_nat 1025.
Proof.
  unfold _retry_on_failure.
  rewrite (retry_loop_overflows never_works 2000 (Z.to_nat 1024)
             (Z.to_nat 2000) 0 []); try lia.
  - split; [reflexivity|]. cbn [retried_calls]. lia.
  - intros i _. eexists. reflexivity.
Qed.

End Retrying_examples.

(** ** More on the adapter *)

Section Adapter_more.
Import Port MoreExamples.

Lemma wei_round_trip_parts (w : Z) :
  0 <= w <= 10 ^ 28 ->
  exists e, wei_to_ether w = Return e /\ ether_to_wei e = Return w.
Proof.
  intros Hw.
  destruct (Z.eq_dec w 0) as [->|Hnz].
  { exists (mkDec false 0 0). split; vm_compute; reflexivity. }
  destruct (Z.eq_dec w (10 ^ 28)) as [->|Hmax].
  { exists (mkDec false 10000000000 0). split; vm_compute; reflexivity. }
  destruct (wei_to_ether_exact w ltac:(lia)) as (c & e & Hdiv & Hc & He & Hv).
  exists (mkDec false c e). split; [assumption|].
  rewrite ether_to_wei_exact by lia. now rewrite Hv.
Qed.

(** X16. On a connected client, the ether amounts that [get_balance] and
    [estimate_gas] return convert back, with [ether_to_wei], to exactly
    the wei figures of the node, as long as these do not exceed [10^28]:
    the balance to the node's balance, and [estimated_cost] to
    [total_cost_wei = gas_limit * gas_price], where [gas_limit] and
    [gas_price] are the node's answers. *)
Theorem ether_amounts_convert_back
    (self : Client) (node : Node)
    (Hconn : is_connected self node = Return true) :
  (forall address w,
     node_get_balance node (wa_value address) = Return w ->
     0 <= w <= 10 ^ 28 ->
     exists e,
       get_balance self node address = Return e /\
       ether_to_wei e = Return w) /\
  (forall to data value gl gp,
     node_estimate_gas node (wa_value to) data value = Return gl ->
     node_gas_price node = Return gp ->
     0 <= gl * gp <= 10 ^ 28 ->
     exists g,
       estimate_gas self node to data value = Return g /\
       gas_limit g = gl /\ gas_price g = gp /\
       ether_to_wei (estimated_cost g) = Return (total_cost_wei g)).
Proof.
  destruct (require_connected_ok self node Hconn) as [Hg [w3' Hw]].
  split.
  - intros address w Hb Hw28.
    destruct (wei_round_trip_parts w Hw28) as (e & He1 & He2).
    exists e. split; [|assumption].
    unfold get_balance, the_w3. rewrite Hg, Hw. cbn [bind]. now rewrite Hb.
  - intros to data value gl gp Hgl Hgp Hw28.
    destruct (wei_round_trip_parts (gl * gp) Hw28) as (e & He1 & He2).
    exists (mkGasEstimate gl gp e).
    unfold estimate_gas, the_w3, total_cost_wei.
    rewrite Hg, Hw. cbn [bind]. rewrite Hgl. cbn [bind]. rewrite Hgp.
    cbn [bind]. rewrite He1. cbn. auto.
Qed.

Lemma ether_amounts_convert_back_witness :
  exists e,
    get_balance connected_client (node_holding true 1234567890123456789)
                (mkWalletAddress recipient_address) = Return e /\
    ether_to_wei e = Return 1234567890123456789.
Proof.
  refine (proj1 (ether_amounts_convert_back connected_client
                   (node_holding true 1234567890123456789) eq_refl)
                (mkWalletAddress recipient_address) 1234567890123456789
                eq_refl _).
  vm_compute. split; discriminate.
Defined.

(** X17. [mint_nft] does not look at the status of the receipt.  When the
    broadcast gave a well-formed hash and the first receipt lookup finds a
    receipt, [mint_nft] returns token id 1 and the hash, also when the
    receipt says that the transaction failed on chain (status other than
    1), in which case [wait_for_transaction] has returned a receipt with
    status FAILED. *)
Theorem mint_nft_ignores_receipt_status
    (self : Client) (node : Node) (polls : Polls)
    (contract_address : ContractAddress) (minter_private_key : string)
    (to_address : WalletAddress) (metadata : NFTMetadata)
    (now : Z) (fuel : nat) (tx_hash : string) (r : RawReceipt)
    (ca : option ContractAddress) (ls : list Log)
    (Hsubmit : mint_submit self node contract_address minter_private_key
                           to_address metadata = Return tx_hash)
    (Hhash : is_0x_len 64 tx_hash)
    (Hconn : is_connected self (poll_node polls 0%nat) = Return true)
    (Hreceipt : node_get_transaction_receipt (poll_node polls 0%nat) tx_hash
                = Return r)
    (Hca : convert_contract_address (raw_contractAddress r) = Return ca)
    (Hlogs : raw_logs r = map LogMapping ls) :
  mint_nft self node polls contract_address minter_private_key to_address
           metadata now (S fuel)
  = Some (Return (1, mkTransactionHash tx_hash)) /\
  exists receipt,
    waited_result
      (mkWaited (Return receipt) (now + poll_latency polls 0%nat) 1%nat)
    = Return receipt /\
    wait_for_transaction self polls (mkTransactionHash tx_hash)
                         default_timeout now (S fuel)
    = Some (mkWaited (Return receipt) (now + poll_latency polls 0%nat) 1%nat)
    /\ (raw_status r <> 1 -> status receipt = FAILED).
Proof.
  assert (Hnew : new_TransactionHash tx_hash
                 = Return (mkTransactionHash tx_hash)).
  { unfold new_TransactionHash.
    apply (bad_format_false_iff 64) in Hhash. now rewrite Hhash. }
  destruct (require_connected_ok self _ Hconn) as [Hg [w3' Hw]].
  set (receipt := mkTransactionReceipt (mkTransactionHash tx_hash)
                    (raw_blockNumber r) (raw_gasUsed r)
                    (if raw_status r =? 1 then CONFIRMED else FAILED) ca ls).
  assert (Hget : get_transaction_receipt self (poll_node polls 0%nat)
                   (mkTransactionHash tx_hash) = Return (Some receipt)).
  { unfold get_transaction_receipt, the_w3. rewrite Hg, Hw. cbn [bind th_value].
    rewrite Hreceipt. cbn [bind]. rewrite Hca. cbn [bind].
    apply convert_logs_Return in Hlogs. rewrite Hlogs. reflexivity. }
  assert (Hwait : wait_for_transaction self polls (mkTransactionHash tx_hash)
                    default_timeout now (S fuel)
                  = Some (mkWaited (Return receipt)
                                   (now + poll_latency polls 0%nat) 1%nat)).
  { unfold wait_for_transaction. cbn [wait_loop]. now rewrite Hget. }
  split.
  - unfold mint_nft. rewrite Hsubmit. cbv beta iota zeta.
    rewrite Hnew. cbv beta iota. rewrite Hwait.
    reflexivity.
  - exists receipt. split_conj; [reflexivity|exact Hwait|].
    intros Hst. unfold receipt. cbn [status].
    destruct (Z.eqb_spec (raw_status r) 1); [contradiction|reflexivity].
Qed.

Lemma mint_nft_ignores_receipt_status_witness :
  raw_status reverted_receipt = 0 /\
  mint_nft connected_client accepting_node reverted_at_once
    (mkContractAddress nft_contract_address) "key"
    (mkWalletAddress recipient_address) sunset 0 1
  = Some (Return (1, mkTransactionHash example_hash)).
Proof.
  split; [reflexivity|].
  refine (proj1 (mint_nft_ignores_receipt_status connected_client
                   accepting_node reverted_at_once
                   (mkContractAddress nft_contract_address) "key"
                   (mkWalletAddress recipient_address) sunset 0 0
                   example_hash reverted_receipt None [] _ _ _ _ _ _)).
  - reflexivity.
  - exists (repeat_char "a" 64). split; reflexivity.
  - reflexivity.
  - reflexivity.
  - reflexivity.
  - reflexivity.
Defined.

(** X18. A [connect] that fails at the liveness test leaves [self.w3]
    assigned while [network] and [chain_id] stay unset.  On a client that
    was fresh before, the guard of the chain-facing methods then depends
    on the node alone: once the node answers the probe,
    [get_latest_block_number] goes through, and [get_network_info] passes
    the guard and raises [AttributeError] on [self.network.value]
    instead of [NetworkNotConnectedError]. *)
Theorem failed_connect_leaves_w3_assigned
    (key : string) (n : NetworkType) (down up : Node) (b : Block)
    (Hdown : forall w, node_is_connected down w = Return false)
    (Hup : forall w, node_is_connected up w = Return true)
    (Hblock : node_get_block_latest up = Return b) :
  let self' := snd (connect (init key) (Net n) down) in
  fst (connect (init key) (Net n) down) = false /\
  (exists w, w3 self' = Some w) /\
  network self' = None /\ chain_id self' = None /\
  is_connected self' up = Return true /\
  get_latest_block_number self' up = node_block_number up /\
  raised_class (get_network_info self' up) = Some AttributeError.
Proof.
  cbv zeta.
  assert (Hcfg : exists c, dict_get (network_configs (init key)) n = Some c).
  { destruct n; eexists; reflexivity. }
  destruct Hcfg as [c Hc].
  unfold connect, config_lookup. cbn [as_member]. rewrite Hc. cbn [bind].
  rewrite Hdown. cbn.
  split_conj; try reflexivity.
  - eexists. reflexivity.
  - unfold is_connected. cbn. apply Hup.
  - unfold get_latest_block_number, require_connected, is_connected. cbn.
    rewrite Hup. reflexivity.
  - unfold get_network_info, require_connected, is_connected. cbn.
    rewrite Hup. cbn. rewrite Hblock. reflexivity.
Qed.

Lemma failed_connect_leaves_w3_assigned_witness :
  fst (connect (init "key") (Net SEPOLIA) (node_holding false 0)) = false /\
  raised_class
    (get_network_info
       (snd (connect (init "key") (Net SEPOLIA) (node_holding false 0)))
       (node_holding true 0))
  = Some AttributeError.
Proof.
  destruct (failed_connect_leaves_w3_assigned "key" SEPOLIA
              (node_holding false 0) (node_holding true 0)
              (mkBlock 100 1700000000)
              (fun _ => eq_refl) (fun _ => eq_refl) eq_refl)
    as (H1 & _ & _ & _ & _ & _ & H7).
  split; [exact H1|exact H7].
Defined.

End Adapter_more.

(** ** The wallet route *)

Section Wallet_route.
Import Api MoreExamples.

(** X19. [GET /wallet/{address}/balance] answers 503 when the application
    has no client (which is what start-up leaves when [connect] returned
    [False]); with a client, 400 with the validator's message when the
    address does not start with 0x or is not 42 characters long; 500, not
    503, when the address is well-formed and the client is not connected;
    and 200 with a balance that converts back to the node's wei figure
    when the client is connected and the node holds at most [10^28]
    wei. *)
Theorem wallet_balance_status_codes
    (client : Client) (node : Node) (address : string) :
  get_wallet_balance None node address
  = HTTPException 503 "Blockchain not available" /\
  (forall key n, fst (connect (init key) (Net n) node) = false ->
                 lifespan key n node = None) /\
  (~ is_0x_len 40 address ->
   get_wallet_balance (Some client) node address
   = HTTPException 400 "Invalid wallet address format") /\
  (is_0x_len 40 address ->
   is_connected client node = Return false ->
   get_wallet_balance (Some client) node address
   = HTTPException 500 "Failed to get wallet balance") /\
  (is_0x_len 40 address ->
   is_connected client node = Return true ->
   forall w, node_get_balance node address = Return w ->
             0 <= w <= 10 ^ 28 ->
   exists e,
     get_wallet_balance (Some client) node address
     = Balance200 address e "ETH" /\
     ether_to_wei e = Return w).
Proof.
  pose proof (bad_format_false_iff 40 address) as Hfmt.
  split_conj.
  - reflexivity.
  - intros key n Hfail. unfold lifespan.
    destruct (connect (init key) (Net n) node) as [ok c]. cbn in Hfail.
    now rewrite Hfail.
  - intros Hbad. unfold get_wallet_balance, new_WalletAddress.
    destruct (bad_format 42 address); [reflexivity|].
    exfalso. apply Hbad, Hfmt. reflexivity.
  - intros Hgood Hdown. apply Hfmt in Hgood.
    unfold get_wallet_balance, new_WalletAddress. rewrite Hgood. cbn [bind].
    unfold get_balance, require_connected. rewrite Hdown. reflexivity.
  - intros Hgood Hup w Hb Hw. apply Hfmt in Hgood.
    destruct (require_connected_ok client node Hup) as [Hg [w3' Hw3]].
    destruct (wei_round_trip_parts w Hw) as (e & He1 & He2).
    exists e. split; [|assumption].
    unfold get_wallet_balance, new_WalletAddress. rewrite Hgood. cbn [bind].
    unfold get_balance, the_w3. rewrite Hg, Hw3. cbn [bind wa_value].
    rewrite Hb. cbn [bind]. now rewrite He1.
Qed.

End Wallet_route.

(** ** Validators of the settings *)

Section Settings_validators.
Import AssetDomain Config.

Lemma lstrip_fixed (s : string) :
  lstrip s = s <->
  match s with EmptyString => True | String c _ => isspace c = false end.
Proof.
  destruct s as [|c s]; cbn; [tauto|].
  destruct (isspace c) eqn:Hc; split; try reflexivity; try discriminate.
  intros H. exfalso.
  assert (L : forall t, (String.length (lstrip t) <= String.length t)%nat).
  { induction t as [|d t IH]; cbn; [lia|].
    destruct (isspace d); cbn; lia. }
  specialize (L s). rewrite H in L. cbn in L. lia.
Qed.

Lemma lstrip_idempotent (s : string) : lstrip (lstrip s) = lstrip s.
Proof.
  induction s as [|c s IH]; cbn; [reflexivity|].
  destruct (isspace c) eqn:Hc; [exact IH|]. cbn. now rewrite Hc.
Qed.

Lemma rstrip_idempotent (s : string) : rstrip (rstrip s) = rstrip s.
Proof.
  induction s as [|c s IH]; cbn; [reflexivity|].
  destruct (rstrip s) as [|d r] eqn:Hr.
  - destruct (isspace c) eqn:Hc; cbn; [reflexivity|]. now rewrite Hc.
  - cbn [rstrip] in *. rewrite IH. reflexivity.
Qed.

Lemma rstrip_keeps_head (c : ascii) (s : string) :
  isspace c = false -> exists r, rstrip (String c s) = String c r.
Proof.
  intros Hc. cbn. destruct (rstrip s) as [|d r].
  - rewrite Hc. now exists EmptyString.
  - now exists (String d r).
Qed.

Lemma strip_trimmed (s : string) : trimmed (strip s).
Proof.
  unfold trimmed, strip. split; [|apply rstrip_idempotent].
  pose proof (lstrip_idempotent s) as H. apply lstrip_fixed in H.
  apply lstrip_fixed.
  destruct (lstrip s) as [|c t]; [exact I|].
  destruct (rstrip_keeps_head c t H) as [r ->]. exact H.
Qed.

Lemma split_comma_nonempty (s : string) : split_comma s <> [].
Proof.
  induction s as [|c s IH]; cbn; [discriminate|].
  destruct (Ascii.eqb c ","); [discriminate|].
  destruct (split_comma s); discriminate.
Qed.

Lemma split_comma_spec (s : string) :
  join_comma (split_comma s) = s /\
  length (split_comma s) = S (count_commas s) /\
  Forall (fun p => count_commas p = 0%nat) (split_comma s).
Proof.
  induction s as [|c s (IHj & IHl & IHf)]; cbn [split_comma count_commas].
  - split_conj; [reflexivity|reflexivity|]. repeat constructor.
  - pose proof (split_comma_nonempty s) as Hne.
    destruct (Ascii.eqb_spec c ",") as [->|Hc].
    + split_conj.
      * rewrite <- IHj at 2.
        destruct (split_comma s) as [|p ps]; [congruence|reflexivity].
      * cbn [length]. rewrite IHl. reflexivity.
      * constructor; [reflexivity|assumption].
    + destruct (split_comma s) as [|p ps]; [congruence|].
      split_conj.
      * rewrite <- IHj. destruct ps; reflexivity.
      * cbn [length] in *. rewrite IHl. reflexivity.
      * inversion IHf; subst. constructor; [|assumption].
        cbn [count_commas]. destruct (Ascii.eqb_spec c ","); [contradiction|].
        assumption.
Qed.

(** X20. [validate_private_key] accepts a key written with the [0x]
    prefix and 64 further characters, which it returns as it is, and a key
    of 64 characters that does not start with [0x], to which it adds the
    prefix; nothing else is accepted.  What it returns is always [0x]
    followed by 64 characters, and validating that again changes
    nothing.  The 64 characters are not required to be hexadecimal. *)
Theorem validate_private_key_accepts (v r : string) :
  (validate_private_key v = Return r <->
   (is_0x_len 64 v /\ r = v) \/
   (String.prefix "0x" v = false /\ String.length v = 64%nat /\
    r = "0x" ++ v)) /\
  (validate_private_key v = Return r ->
   is_0x_len 64 r /\ validate_private_key r = Return r).
Proof.
  assert (Hiff : validate_private_key v = Return r <->
     (is_0x_len 64 v /\ r = v) \/
     (String.prefix "0x" v = false /\ String.length v = 64%nat /\
      r = "0x" ++ v)).
  { unfold validate_private_key.
    destruct (String.prefix "0x" v) eqn:Hp; cbn [negb].
    - pose proof (bad_format_false_iff 64 v) as Hb. unfold bad_format in Hb.
      rewrite Hp in Hb. cbn [negb orb] in Hb.
      destruct (Nat.eqb (String.length v) 66); cbn [negb] in *.
      + split.
        * intros [= <-]. left. split; [now apply Hb|reflexivity].
        * intros [[_ ->]|[Hf _]]; [reflexivity|discriminate].
      + split; [discriminate|].
        intros [[Hl _]|[Hf _]]; [|discriminate]. apply Hb in Hl. discriminate.
    - change (String.length ("0x" ++ v)) with (S (S (String.length v))).
      destruct (Nat.eqb_spec (S (S (String.length v))) 66) as [Hl|Hl];
        cbn [negb].
      + split.
        * intros [= <-]. right. split_conj; [reflexivity|lia|reflexivity].
        * intros [[Hl' _]|(_ & _ & ->)]; [|reflexivity].
          destruct Hl' as [t [-> _]].
          assert (String.prefix "0x" ("0x" ++ t) = true)
            by (apply prefix_0x_iff; now exists t).
          congruence.
      + split; [discriminate|].
        intros [[Hl' _]|(_ & Hl' & _)]; [|lia].
        destruct Hl' as [t [-> _]].
        assert (String.prefix "0x" ("0x" ++ t) = true)
          by (apply prefix_0x_iff; now exists t).
        congruence. }
  split; [exact Hiff|].
  intros H. apply Hiff in H.
    assert (Hr : is_0x_len 64 r).
    { destruct H as [[H ->]|(_ & Hl & ->)]; [exact H|]. now exists v. }
    split; [exact Hr|].
    unfold validate_private_key.
    apply (bad_format_false_iff 64) in Hr. unfold bad_format in Hr.
    apply orb_false_iff in Hr as [Hp Hl]. rewrite Hp, Hl. reflexivity.
Qed.



(** X22. Given a string that does not start with an opening square
    bracket, [assemble_cors_origins] cuts it at every comma and strips each piece:
    the pieces joined with commas give the string back, none contains a
    comma, there is one origin more than there are commas (so the empty
    string gives one empty origin, and a trailing comma an empty last
    one), and no origin starts or ends with white space. *)
Theorem assemble_cors_origins_splits (s : string)
    (Hs : String.prefix "[" s = false) :
  exists pieces,
    assemble_cors_origins (CorsStr s) = Return (CorsList (map strip pieces)) /\
    join_comma pieces = s /\
    Forall (fun p => count_commas p = 0%nat) pieces /\
    length (map strip pieces) = S (count_commas s) /\
    Forall trimmed (map strip pieces).
Proof.
  exists (split_comma s).
  destruct (split_comma_spec s) as (Hj & Hl & Hf).
  split_conj; try assumption.
  - unfold assemble_cors_origins. now rewrite Hs.
  - now rewrite length_map.
  - apply Forall_map, Forall_forall. intros p _. apply strip_trimmed.
Qed.

Lemma assemble_cors_origins_splits_witness :
  exists pieces,
    assemble_cors_origins
      (CorsStr "http://localhost:3000, https://art.example ,")
    = Return (CorsList (map strip pieces)) /\
    join_comma pieces = "http://localhost:3000, https://art.example ," /\
    Forall (fun p => count_commas p = 0%nat) pieces /\
    length (map strip pieces)
    = S (count_commas "http://localhost:3000, https://art.example ,") /\
    Forall trimmed (map strip pieces).
Proof.
  apply (assemble_cors_origins_splits
           "http://localhost:3000, https://art.example ,").
  reflexivity.
Defined.

End Settings_validators.

(** ** Specifications and aggregate roots *)

Section Specification_algebra.
Import Specifications.
Context {T : Type}.

(** A specification that raises and one that is never satisfied. *)
Example and_is_not_commutative (c : T) :
  let broken := Concrete (fun _ : T => Raise (mkExc KeyError "owner")) in
  let never := Concrete (fun _ : T => Return false) in
  is_satisfied_by (and_ never broken) c = Return false /\
  is_satisfied_by (and_ broken never) c = Raise (mkExc KeyError "owner").
Proof. split; reflexivity. Qed.

(** X23. The combinators of [Specification] obey De Morgan's laws and
    double negation on every candidate, exceptions included: both sides
    return the same boolean or raise the same exception.  [and_] and
    [or_] stop at their left operand when it decides: a right operand
    that would raise is then not consulted, and the operands commute
    only when both return. *)
Theorem specification_laws (a b : Specification T) (c : T) :
  is_satisfied_by (not_ (and_ a b)) c
  = is_satisfied_by (or_ (not_ a) (not_ b)) c /\
  is_satisfied_by (not_ (or_ a b)) c
  = is_satisfied_by (and_ (not_ a) (not_ b)) c /\
  is_satisfied_by (not_ (not_ a)) c = is_satisfied_by a c /\
  (is_satisfied_by a c = Return false ->
   is_satisfied_by (and_ a b) c = Return false) /\
  (is_satisfied_by a c = Return true ->
   is_satisfied_by (or_ a b) c = Return true) /\
  (forall x y,
     is_satisfied_by a c = Return x -> is_satisfied_by b c = Return y ->
     is_satisfied_by (and_ a b) c = Return (x && y) /\
     is_satisfied_by (or_ a b) c = Return (x || y) /\
     is_satisfied_by (and_ a b) c = is_satisfied_by (and_ b a) c /\
     is_satisfied_by (or_ a b) c = is_satisfied_by (or_ b a) c).
Proof.
  unfold not_, and_, or_. cbn [is_satisfied_by].
  split_conj.
  - destruct (is_satisfied_by a c) as [[|]|e]; reflexivity.
  - destruct (is_satisfied_by a c) as [[|]|e]; reflexivity.
  - destruct (is_satisfied_by a c) as [[|]|e]; reflexivity.
  - intros ->. reflexivity.
  - intros ->. reflexivity.
  - intros x y -> ->. destruct x, y; split_conj; reflexivity.
Qed.

End Specification_algebra.

Section Aggregate_root.
Import Aggregate.
Context {Id Event : Type}.

Lemma uses_spec (us : list (@Use Event)) :
  forall self : AggregateRoot Id Event,
    (concat (fst (uses self us)) ++ _domain_events (snd (uses self us)))%list
    = (_domain_events self ++ added us)%list /\
    _version (snd (uses self us)) = _version self + modifications us /\
    _id (snd (uses self us)) = _id self /\
    _created_at (snd (uses self us)) = _created_at self.
Proof.
  induction us as [|u us IH]; intros self.
  - cbn. rewrite app_nil_r. split_conj; try reflexivity. lia.
  - destruct u as [|t|e]; cbn [uses added modifications].
    + unfold get_domain_events.
      specialize (IH (mkAggregateRoot (_id self) (_version self)
                        (_created_at self) (_updated_at self) [])).
      destruct (uses (mkAggregateRoot (_id self) (_version self)
                        (_created_at self) (_updated_at self) []) us)
        as [batches final].
      cbn [fst snd concat _domain_events _version _id _created_at] in *.
      destruct IH as (H1 & H2 & H3 & H4).
      split_conj; try assumption.
      rewrite <- app_assoc, H1. reflexivity.
    + destruct (IH (mark_as_modified self t)) as (H1 & H2 & H3 & H4).
      cbn [mark_as_modified _domain_events _version _id _created_at] in *.
      split_conj; try assumption. lia.
    + destruct (IH (_add_domain_event self e)) as (H1 & H2 & H3 & H4).
      cbn [_add_domain_event _domain_events _version _id _created_at] in *.
      split_conj; try assumption.
      rewrite H1, <- app_assoc. reflexivity.
Qed.

(** X24. Whatever sequence of [get_domain_events], [mark_as_modified]
    and [_add_domain_event] is applied to a new aggregate, every event
    added is handed out exactly once and in the order of addition: the
    batches returned so far followed by the events still pending are the
    events added.  The version is 1 plus the number of modifications,
    and the identifier and the creation time never change. *)
Theorem aggregate_events_handed_out_once
    (entity_id : Id) (utcnow : Z) (us : list (@Use Event)) :
  let run := uses (new_AggregateRoot entity_id utcnow) us in
  (concat (fst run) ++ _domain_events (snd run))%list = added us /\
  _version (snd run) = 1 + modifications us /\
  _id (snd run) = entity_id /\
  _created_at (snd run) = utcnow.
Proof.
  cbv zeta.
  destruct (uses_spec us (new_AggregateRoot entity_id utcnow))
    as (H1 & H2 & H3 & H4).
  split_conj; assumption.
Qed.

End Aggregate_root.
